(** * ProductionSystem web console: [static/index.js]

    A shallow embedding of the browser-side script of the job-request
    console, and the properties of its progress formatter, cell renderers,
    row selection, context menu, sub-table controls, banner and batched
    AJAX actions.

    JavaScript numbers are IEEE 754 binary64 values; they are modelled by
    Rocq's primitive floats.  The arithmetic of [formatprogress] is written
    once over an interface [Number], instantiated by the doubles the browser
    computes with and by the exact rationals.

    The handlers of the script run in a state and exception monad over the
    [page]: the globals of [window], the rows of the main table with their
    [selected] class, the requests sent with [$.ajax] and the aggregates
    made by [$.when], the timers, the open dialogs, and a log of what the
    script asks of the libraries (grids, banner, console).  Closures are
    defunctionalised.  The browser and the server are the environment: they
    deliver the [event]s, in any order.

    What the source leaves to the page and the libraries is taken as
    follows: [#tableBody] has a [tbody] when the script runs, and the rows
    of sub-tables are not tracked; [.size()] is the number of elements
    (jQuery before 3.0); an exception in a callback ends the dispatch of
    its event; response headers hold well-formed JSON; row ids are
    integers; the cells of the main table hold JSON scalars and arrays, a
    string being the sequence of its UTF-16 code units. *)

From Stdlib Require Import ZArith QArith Qcanon Floats Ascii String List Lia.
From stdpp Require Import base option list strings gmap pretty.

(** ** Numbers *)

Class Number (num : Type) : Type := {
  hundred : num;
  zero : num;
  nadd : num -> num -> num;
  nsub : num -> num -> num;
  nmul : num -> num -> num;
  ndiv : num -> num -> num;
  ngtb : num -> num -> bool
}.

Declare Scope num_scope.
Delimit Scope num_scope with num.
Infix "+" := nadd : num_scope.
Infix "-" := nsub : num_scope.
Infix "*" := nmul : num_scope.
Infix "/" := ndiv : num_scope.
Infix ">?" := ngtb (at level 70) : num_scope.

(** The JavaScript [Number] type. *)
#[global] Instance double : Number float := {|
  hundred := 100%float;
  zero := 0%float;
  nadd := PrimFloat.add;
  nsub := PrimFloat.sub;
  nmul := PrimFloat.mul;
  ndiv := PrimFloat.div;
  ngtb := fun x y => PrimFloat.ltb y x
|}.

(** Exact rational arithmetic, the reading of the same formulas without
    rounding. *)
#[global] Instance exact : Number Qc := {|
  hundred := Q2Qc 100;
  zero := Q2Qc 0;
  nadd := Qcplus;
  nsub := Qcminus;
  nmul := Qcmult;
  ndiv := Qcdiv;
  ngtb := fun x y => match (y ?= x)%Qc with Lt => true | _ => false end
|}.

(** ** Text *)

(** The double quote and the newline of the template literals. *)
Definition dq : string := String (ascii_of_nat 34) EmptyString.
Definition nl : string := String (ascii_of_nat 10) EmptyString.

Fixpoint spaces (n : nat) : string :=
  match n with
  | O => EmptyString
  | S n' => String " " (spaces n')
  end.

(** [name="value"] *)
Definition attr (name value : string) : string :=
  name +:+ "=" +:+ dq +:+ value +:+ dq.

(** ** Parametric jobs and the progress formatter *)

Section Progress.
Context {num : Type} `{Number num}.
(** Number-to-string conversion of template interpolation. *)
Variable toString : num -> string.

Record parametricjob : Type := {
  id : Z;
  request_id : Z;
  njobs : num;
  num_completed : num;
  num_failed : num;
  num_running : num;
  num_submitted : num;
  status : string;
  reschedule : bool
}.

(** The local variables of [formatprogress]. *)
Record progress : Type := {
  striped : string;
  percent_completed : num;
  percent_failed : num;
  percent_running : num;
  percent_submitted : num;
  num_other : num;
  percent_other : num
}.

Local Open Scope num_scope.

Definition progress_vars (parametricjob : parametricjob) : progress :=
  let striped :=
    if num_running parametricjob + num_submitted parametricjob >? zero
    then "progress-bar-striped active" else "" in
  let percent_completed := hundred * num_completed parametricjob / njobs parametricjob in
  let percent_failed := hundred * num_failed parametricjob / njobs parametricjob in
  let percent_running := hundred * num_running parametricjob / njobs parametricjob in
  let percent_submitted := hundred * num_submitted parametricjob / njobs parametricjob in
  let num_other :=
    njobs parametricjob
    - (num_submitted parametricjob + num_running parametricjob
       + num_completed parametricjob + num_failed parametricjob) in
  let percent_other := hundred * num_other / njobs parametricjob in
  {| striped := striped;
     percent_completed := percent_completed;
     percent_failed := percent_failed;
     percent_running := percent_running;
     percent_submitted := percent_submitted;
     num_other := num_other;
     percent_other := percent_other |}.

Local Close Scope num_scope.

(** One [progress-bar] element of the template, with its line breaks and
    indentation. *)
Definition segment (kind striped width style_rest label : string) : string :=
  spaces 20 +:+ "<div " +:+ attr "class" ("progress-bar " +:+ kind +:+ striped)
    +:+ " " +:+ attr "role" "progressbar"
    +:+ " " +:+ attr "style" ("width:" +:+ width +:+ "%" +:+ style_rest) +:+ ">" +:+ nl
  +:+ spaces 22 +:+ label +:+ nl
  +:+ spaces 20 +:+ "</div>" +:+ nl.

Definition render_progress (parametricjob : parametricjob) (v : progress) : string :=
  nl
  +:+ spaces 16 +:+ "<div " +:+ attr "class" "container" +:+ " "
    +:+ attr "style" "width:150px;border:0px;padding:0px;padding-top:15px" +:+ ">" +:+ nl
  +:+ spaces 18 +:+ "<div " +:+ attr "class" "progress" +:+ " "
    +:+ attr "style" "background:rgba(214, 214, 214, 1)" +:+ ">" +:+ nl
  +:+ segment "progress-bar-success " (striped v) (toString (percent_completed v)) ""
        (toString (num_completed parametricjob))
  +:+ segment "progress-bar-danger " (striped v) (toString (percent_failed v)) ""
        (toString (num_failed parametricjob))
  +:+ segment "progress-bar-info " (striped v) (toString (percent_running v)) ""
        (toString (num_running parametricjob))
  +:+ segment "progress-bar-warning " (striped v) (toString (percent_submitted v)) ""
        (toString (num_submitted parametricjob))
  +:+ segment "" (striped v) (toString (percent_other v)) ";background:grey"
        (toString (num_other v))
  +:+ spaces 18 +:+ "</div>" +:+ nl
  +:+ spaces 16 +:+ "</div>".

Definition formatprogress (parametricjob : parametricjob) : string :=
  render_progress parametricjob (progress_vars parametricjob).

(** The five segment widths, in the order they are rendered. *)
Definition percentages (v : progress) : list num :=
  [percent_completed v; percent_failed v; percent_running v;
   percent_submitted v; percent_other v].

(** *** Cell renderers of the sub-table *)

(** The clickable reschedule glyph. *)
Definition reschedule_glyph (macroid requestid : string) : string :=
  "<span " +:+ attr "class" "glyphicon glyphicon-repeat text-primary reschedule"
  +:+ " " +:+ attr "style" "cursor:pointer"
  +:+ " " +:+ attr "macroid" macroid
  +:+ " " +:+ attr "requestid" requestid +:+ "></span>".

Definition render_progress_cell (row : parametricjob) : string :=
  formatprogress row.

Definition render_status (row : parametricjob) : string :=
  if reschedule row then "Rescheduled" else status row.

Definition render_reschedule (row : parametricjob) : string :=
  if decide (status row = "Failed")
  then reschedule_glyph (pretty (id row)) (pretty (request_id row))
  else "".
End Progress.

Arguments parametricjob : clear implicits.
Arguments progress : clear implicits.

(** ** JavaScript values and exceptions *)

(** The functions of the script that are used as values. *)
Inductive fname : Type := Frefresh_table | Fbootstrap_alert.

Unset Elimination Schemes.

(** Values; numbers that occur as values are integers (row ids). *)
Inductive jsval : Type :=
  | VUndefined
  | VNull
  | VBool (b : bool)
  | VNum (n : Z)
  | VStr (s : string)
  | VFun (f : fname)
  | VArr (items : list jsval)
  | VObj (props : list (string * jsval)).

Set Elimination Schemes.

Inductive exn : Type :=
  | ReferenceError (name : string)
  | TypeError (msg : string).

(** String conversion of template literals and of [+] on strings.  An
    array is the join of its elements by commas, [undefined] and [null]
    among them being empty; a function is its source text, of which only
    the head is kept. *)
Fixpoint ToString (v : jsval) : string :=
  match v with
  | VUndefined => "undefined"
  | VNull => "null"
  | VBool true => "true"
  | VBool false => "false"
  | VNum n => pretty n
  | VStr s => s
  | VFun Frefresh_table => "function refresh_table(){"
  | VFun Fbootstrap_alert => "function(status, message, level){"
  | VArr items =>
      let element x :=
        match x with
        | VUndefined | VNull => ""
        | _ => ToString x
        end in
      (fix join (l : list jsval) : string :=
         match l with
         | [] => ""
         | [x] => element x
         | x :: rest => element x +:+ "," +:+ join rest
         end) items
  | VObj _ => "[object Object]"
  end.

Fixpoint assoc (k : string) (props : list (string * jsval)) : option jsval :=
  match props with
  | [] => None
  | (k', v) :: rest => if decide (k = k') then Some v else assoc k rest
  end.

(** Property read [v.k]: a [TypeError] on [undefined] and [null], the
    property of an object, [undefined] where there is none. *)
Definition get_prop (v : jsval) (k : string) : exn + jsval :=
  match v with
  | VUndefined | VNull => inl (TypeError ("Cannot read property " +:+ k))
  | VObj props => inr (default VUndefined (assoc k props))
  | _ => inr VUndefined
  end.

(** ** AJAX requests, responses and the page state *)

Inductive method : Type := GET | PUT | DELETE.

(** The callbacks handed to [$.ajax], as closures over their free
    variables. *)
Inductive handlers : Type :=
  | NoHandlers
  | TableHandlers
  | SubtableHandlers (request_id : jsval)
  | RescheduleHandlers (request_id : jsval).

Record ajax_settings : Type := {
  url : string;
  type : method;
  data : list (string * jsval);
  callbacks : handlers
}.

Inductive body : Type :=
  | RequestRows (ids : list Z)
  | JobRows (rows : list (parametricjob float)).

(** A JSON response with its [Datatable-Order] and [Datatable-Columns]
    headers, already parsed. *)
Record response : Type := {
  content : body;
  Datatable_Order : jsval;
  Datatable_Columns : list jsval
}.

Inductive outcome : Type :=
  | Success (r : response)
  | Failure (code : Z) (status error request_json : string).

Inductive xhr_state : Type := Pending | Succeeded | Failed.

#[global] Instance xhr_state_eq_dec : EqDecision xhr_state.
Proof. solve_decision. Defined.

(** A request that was sent: its settings, its state, and the aggregates
    whose callbacks [$.when] has attached to it. *)
Record xhr : Type := {
  settings : ajax_settings;
  state : xhr_state;
  subscribers : list nat
}.

(** The [done] callbacks given to [$.when(...)], closed over [ids]
    (approve, delete) or [ajax_calls] (Delete key). *)
Inductive continuation : Type :=
  | ApproveDone (ids : option (list Z))
  | DeleteDone (ids : option (list Z))
  | KeyDeleteDone (ajax_calls : list nat).

Inductive join_state : Type := Waiting | Resolved | Rejected.

(** The aggregate promise of [$.when.apply(this, ajax_calls)]. *)
Record join : Type := {
  members : list nat;
  done_callback : continuation;
  joined : join_state
}.

(** A row of [#tableBody tbody]. *)
Record tr : Type := {
  rowid : Z;
  selected : bool;
  child_shown : bool
}.

(** A [bootbox.confirm] dialog, with the rows captured by its callback. *)
Record dialog : Type := {
  captured : list Z;
  answered : bool
}.

(** What the script does to the libraries, the console and the banner. *)
Inductive effect : Type :=
  | DataTable (selector : string) (rows : body) (order : jsval) (columns : list jsval)
  | Reload
  | Notification (status message level : string)
  | Warn (msg : string)
  | Confirm (msg : string)
  | Fancybox (kind href : string)
  | Alert (msg : string)
  | Uncaught (e : exn).

Record page : Type := {
  window : gmap string jsval;
  table_rows : list tr;
  last_selected : Z;
  menu_ids : option (list Z);
  menu_shown : bool;
  xhrs : list xhr;
  joins : list join;
  timers : list (jsval * Z);
  dialogs : list dialog;
  log : list effect
}.

Definition set_window (f : gmap string jsval -> gmap string jsval) (p : page) : page :=
  {| window := f (window p); table_rows := table_rows p; last_selected := last_selected p;
     menu_ids := menu_ids p; menu_shown := menu_shown p; xhrs := xhrs p; joins := joins p;
     timers := timers p; dialogs := dialogs p; log := log p |}.

Definition set_table_rows (f : list tr -> list tr) (p : page) : page :=
  {| window := window p; table_rows := f (table_rows p); last_selected := last_selected p;
     menu_ids := menu_ids p; menu_shown := menu_shown p; xhrs := xhrs p; joins := joins p;
     timers := timers p; dialogs := dialogs p; log := log p |}.

Definition set_last_selected (z : Z) (p : page) : page :=
  {| window := window p; table_rows := table_rows p; last_selected := z;
     menu_ids := menu_ids p; menu_shown := menu_shown p; xhrs := xhrs p; joins := joins p;
     timers := timers p; dialogs := dialogs p; log := log p |}.

Definition set_menu_ids (ids : option (list Z)) (p : page) : page :=
  {| window := window p; table_rows := table_rows p; last_selected := last_selected p;
     menu_ids := ids; menu_shown := menu_shown p; xhrs := xhrs p; joins := joins p;
     timers := timers p; dialogs := dialogs p; log := log p |}.

Definition set_menu_shown (b : bool) (p : page) : page :=
  {| window := window p; table_rows := table_rows p; last_selected := last_selected p;
     menu_ids := menu_ids p; menu_shown := b; xhrs := xhrs p; joins := joins p;
     timers := timers p; dialogs := dialogs p; log := log p |}.

Definition set_xhrs (f : list xhr -> list xhr) (p : page) : page :=
  {| window := window p; table_rows := table_rows p; last_selected := last_selected p;
     menu_ids := menu_ids p; menu_shown := menu_shown p; xhrs := f (xhrs p); joins := joins p;
     timers := timers p; dialogs := dialogs p; log := log p |}.

Definition set_joins (f : list join -> list join) (p : page) : page :=
  {| window := window p; table_rows := table_rows p; last_selected := last_selected p;
     menu_ids := menu_ids p; menu_shown := menu_shown p; xhrs := xhrs p; joins := f (joins p);
     timers := timers p; dialogs := dialogs p; log := log p |}.

Definition set_timers (f : list (jsval * Z) -> list (jsval * Z)) (p : page) : page :=
  {| window := window p; table_rows := table_rows p; last_selected := last_selected p;
     menu_ids := menu_ids p; menu_shown := menu_shown p; xhrs := xhrs p; joins := joins p;
     timers := f (timers p); dialogs := dialogs p; log := log p |}.

Definition set_dialogs (f : list dialog -> list dialog) (p : page) : page :=
  {| window := window p; table_rows := table_rows p; last_selected := last_selected p;
     menu_ids := menu_ids p; menu_shown := menu_shown p; xhrs := xhrs p; joins := joins p;
     timers := timers p; dialogs := f (dialogs p); log := log p |}.

Definition set_log (f : list effect -> list effect) (p : page) : page :=
  {| window := window p; table_rows := table_rows p; last_selected := last_selected p;
     menu_ids := menu_ids p; menu_shown := menu_shown p; xhrs := xhrs p; joins := joins p;
     timers := timers p; dialogs := dialogs p; log := f (log p) |}.

(** ** The monad of handlers: page state and exceptions *)

Inductive result (A : Type) : Type :=
  | Ok (a : A)
  | Throw (e : exn).
Arguments Ok {A} a.
Arguments Throw {A} e.

(** A thrown exception keeps the effects that came before it. *)
Definition M (A : Type) : Type := page -> result A * page.

Definition ret {A : Type} (a : A) : M A := fun p => (Ok a, p).

Definition bind {A B : Type} (c : M A) (k : A -> M B) : M B :=
  fun p =>
    match c p with
    | (Ok a, p') => k a p'
    | (Throw e, p') => (Throw e, p')
    end.

Definition throw {A : Type} (e : exn) : M A := fun p => (Throw e, p).
Definition get : M page := fun p => (Ok p, p).
Definition modify (f : page -> page) : M unit := fun p => (Ok tt, f p).
Definition emit (e : effect) : M unit := modify (set_log (fun l => l ++ [e])).

#[global] Instance M_ret : MRet M := @ret.
#[global] Instance M_bind : MBind M := fun A B k c => bind c k.

Fixpoint for_each {A : Type} (f : A -> M unit) (l : list A) : M unit :=
  match l with
  | [] => ret tt
  | x :: rest => f x;; for_each f rest
  end.

Fixpoint map_m {A B : Type} (f : A -> M B) (l : list A) : M (list B) :=
  match l with
  | [] => ret []
  | x :: rest => y ← f x; ys ← map_m f rest; ret (y :: ys)
  end.

Definition lift {A : Type} (r : exn + A) : M A :=
  match r with
  | inl e => throw e
  | inr a => ret a
  end.

(** ** The script *)

(** An identifier that no enclosing function binds is a property of the
    global object; reading it when the property does not exist throws. *)
Definition resolve_global (x : string) : M jsval :=
  p ← get;
  match window p !! x with
  | Some v => ret v
  | None => throw (ReferenceError x)
  end.

(** Assignment to an undeclared identifier creates a global (the script is
    not in strict mode). *)
Definition set_global (x : string) (v : jsval) : M unit :=
  modify (set_window (<[x := v]>)).

(** The names bound around the success callback of [refresh_subtable]: its
    own parameters, the parameter of [refresh_subtable], and the
    declarations of the ready callback. *)
Definition subtable_success_scope : list string :=
  ["response"; "status"; "request"] ++ ["request_id"]
  ++ ["formatprogress"; "refresh_table"; "refresh_subtable"; "last_selected"].

(** [$.ajax(settings)]: the request is sent and its index returned. *)
Definition ajax (s : ajax_settings) : M nat :=
  p ← get;
  modify (set_xhrs (fun l => l ++ [{| settings := s; state := Pending; subscribers := [] |}]));;
  ret (length (xhrs p)).

Definition warn_error (status error request_json : string) : M unit :=
  emit (Warn ("Error getting table data!" +:+ nl +:+ "status: " +:+ status +:+ nl
              +:+ "error: " +:+ error +:+ nl +:+ "request: " +:+ request_json)).

Definition control_column : jsval :=
  VObj [("data", VNull);
        ("defaultContent",
         VStr "<span class='glyphicon glyphicon-plus-sign text-primary details-control' style='cursor:pointer'></span>");
        ("orderable", VBool false)].

Definition body_ids (b : body) : list Z :=
  match b with
  | RequestRows ids => ids
  | JobRows rows => map id rows
  end.

Definition new_row (i : Z) : tr :=
  {| rowid := i; selected := false; child_shown := false |}.

Definition refresh_table : M jsval :=
  ajax {| url := "/requests"; type := GET; data := []; callbacks := TableHandlers |};;
  ret VUndefined.

Definition table_success (r : response) : M unit :=
  set_global "columns" (VArr [control_column]);;
  emit (DataTable "#tableBody" (content r) (Datatable_Order r)
          (control_column :: Datatable_Columns r));;
  modify (set_table_rows (fun _ => map new_row (body_ids (content r)))).

Definition refresh_subtable (request_id : jsval) : M jsval :=
  ajax {| url := "/requests/" +:+ ToString request_id +:+ "/parametricjobs";
          type := GET; data := []; callbacks := SubtableHandlers request_id |};;
  ret VUndefined.

(** Lines 74 to 102.  [parametricjob] is free in the callback. *)
Definition subtable_success (request_id : jsval) (r : response) : M unit :=
  parametricjob ← resolve_global "parametricjob";
  macroid ← lift (get_prop parametricjob "id");
  set_global "columns"
    (VArr [VObj [("data", VNull);
                 ("defaultContent",
                  VStr (reschedule_glyph (ToString macroid) (ToString request_id)));
                 ("orderable", VBool false)]]);;
  emit (DataTable ("#subtable-" +:+ ToString request_id) (content r)
          (Datatable_Order r) (Datatable_Columns r)).

Definition bad_request : string :=
  "Bad request! Request id can probably not be cast to integer.".

(** The callbacks of a settled request: [success], or [error] followed by
    the handler of status code 400. *)
Definition run_handlers (h : handlers) (o : outcome) : M unit :=
  match h, o with
  | NoHandlers, _ => ret tt
  | TableHandlers, Success r => table_success r
  | TableHandlers, Failure _ st er rq => warn_error st er rq
  | SubtableHandlers request_id, Success r => subtable_success request_id r
  | SubtableHandlers _, Failure code st er rq =>
      warn_error st er rq;;
      if (code =? 400)%Z then emit (Warn bad_request) else ret tt
  | RescheduleHandlers request_id, Success _ => refresh_subtable request_id;; ret tt
  | RescheduleHandlers _, Failure _ _ _ _ => ret tt
  end.

(** *** The banner and the batch continuations *)

Definition bootstrap_alert (status message level : string) : M unit :=
  emit (Notification status message level).

Definition arg (n : nat) (args : list jsval) : jsval := nth n args VUndefined.

(** Calling a value. *)
Definition call (f : jsval) (args : list jsval) : M jsval :=
  match f with
  | VFun Frefresh_table => refresh_table
  | VFun Fbootstrap_alert =>
      bootstrap_alert (ToString (arg 0 args)) (ToString (arg 1 args)) (ToString (arg 2 args));;
      ret VUndefined
  | _ => throw (TypeError (ToString f +:+ " is not a function"))
  end.

(** [ids.length] *)
Definition length_of (ids : option (list Z)) : M nat :=
  match ids with
  | Some l => ret (length l)
  | None => throw (TypeError "Cannot read property length")
  end.

Definition reload : M unit := emit Reload.

Definition run_continuation (k : continuation) : M unit :=
  match k with
  | ApproveDone ids =>
      reload;;
      f ← resolve_global "bootstrap_alert";
      n ← length_of ids;
      call f [VStr "Info!"; VStr ("Approved " +:+ pretty n +:+ " request(s)"); VStr "alert-info"];;
      ret tt
  | DeleteDone ids =>
      reload;;
      f ← resolve_global "bootstrap_alert";
      n ← length_of ids;
      call f [VStr "Attention!"; VStr ("Deleted " +:+ pretty n +:+ " request(s)");
              VStr "alert-danger"];;
      ret tt
  | KeyDeleteDone ajax_calls =>
      reload;;
      f ← resolve_global "bootstrap_alert";
      call f [VStr "Attention!";
              VStr ("Deleted " +:+ pretty (length ajax_calls) +:+ " requests");
              VStr "alert-danger"];;
      ret tt
  end.

Definition xhr_is (s : xhr_state) (xs : list xhr) (r : nat) : bool :=
  match xs !! r with
  | Some x =>
      match state x, s with
      | Pending, Pending | Succeeded, Succeeded | Failed, Failed => true
      | _, _ => false
      end
  | None => false
  end.

Definition subscribe (j : nat) (x : xhr) : xhr :=
  {| settings := settings x; state := state x; subscribers := subscribers x ++ [j] |}.

(** A new aggregate over [ajax_calls]; its callbacks are attached to each of
    them. *)
Definition add_join (ajax_calls : list nat) (k : continuation) (s : join_state) : M unit :=
  p ← get;
  modify (set_joins (fun l => l ++ [{| members := ajax_calls; done_callback := k;
                                       joined := s |}]));;
  modify (set_xhrs (imap (fun r x => if bool_decide (r ∈ ajax_calls)
                                     then subscribe (length (joins p)) x else x))).

(** [$.when.apply(this, ajax_calls).done(k)]: [k] runs once every member has
    succeeded, at once when that is already so; a failed member rejects the
    aggregate, which has no [fail] callback. *)
Definition when (ajax_calls : list nat) (k : continuation) : M unit :=
  p ← get;
  if existsb (xhr_is Failed (xhrs p)) ajax_calls then
    add_join ajax_calls k Rejected
  else if forallb (xhr_is Succeeded (xhrs p)) ajax_calls then
    add_join ajax_calls k Resolved;;
    run_continuation k
  else
    add_join ajax_calls k Waiting.

Definition with_joined (s : join_state) (j : join) : join :=
  {| members := members j; done_callback := done_callback j; joined := s |}.

Definition outcome_state (o : outcome) : xhr_state :=
  match o with
  | Success _ => Succeeded
  | Failure _ _ _ _ => Failed
  end.

Definition with_state (s : xhr_state) (x : xhr) : xhr :=
  {| settings := settings x; state := s; subscribers := subscribers x |}.

(** The effect on aggregate [j] of one of its requests having settled with
    [o]: a failure rejects it, the last success resolves it and runs its
    [done] callback; a settled aggregate ignores what comes later. *)
Definition notify_join (o : outcome) (j : nat) : M unit :=
  p ← get;
  match joins p !! j with
  | Some jn =>
      match joined jn with
      | Waiting =>
          match o with
          | Failure _ _ _ _ => modify (set_joins (<[j := with_joined Rejected jn]>))
          | Success _ =>
              if forallb (xhr_is Succeeded (xhrs p)) (members jn) then
                modify (set_joins (<[j := with_joined Resolved jn]>));;
                run_continuation (done_callback jn)
              else ret tt
          end
      | _ => ret tt
      end
  | None => ret tt
  end.

(** Request [r] completes with [o]: its own callbacks run, then those of the
    aggregates attached to it. *)
Definition settle (r : nat) (o : outcome) : M unit :=
  p ← get;
  match xhrs p !! r with
  | Some x =>
      match state x with
      | Pending =>
          modify (set_xhrs (<[r := with_state (outcome_state o) x]>));;
          run_handlers (callbacks (settings x)) o;;
          for_each (notify_join o) (subscribers x)
      | _ => ret tt
      end
  | None => ret tt
  end.

(** *** Timers *)

Definition setInterval (handler : jsval) (delay : Z) : M unit :=
  modify (set_timers (fun l => l ++ [(handler, delay)])).

(** A timer fires: a function is called; any other handler is compiled from
    its string form, and the program [undefined] does nothing. *)
Definition fire (t : nat) : M unit :=
  p ← get;
  match timers p !! t with
  | Some (VFun f, _) => call (VFun f) [];; ret tt
  | _ => ret tt
  end.

(** *** Table row selection *)

(** An index of [slice], as [Array.prototype.slice] reads it: a negative
    index counts from the end, and both ends are clamped. *)
Definition slice_index (len k : Z) : Z :=
  if (k <? 0)%Z then Z.max (len + k) 0 else Z.min k len.

Definition in_slice (len start stop i : Z) : bool :=
  (slice_index len start <=? i)%Z && (i <? slice_index len stop)%Z.

Definition with_selected (b : bool) (r : tr) : tr :=
  {| rowid := rowid r; selected := b; child_shown := child_shown r |}.

Definition with_child_shown (b : bool) (r : tr) : tr :=
  {| rowid := rowid r; selected := selected r; child_shown := b |}.

(** [$(table_rows).slice(start, stop).addClass("selected")] *)
Definition addClass_slice (start stop : Z) (table_rows : list tr) : list tr :=
  imap (fun k r =>
          if in_slice (Z.of_nat (length table_rows)) start stop (Z.of_nat k)
          then with_selected true r else r) table_rows.

(** [$("tr.selected", $(table_body)).removeClass("selected")] *)
Definition removeClass_all (table_rows : list tr) : list tr :=
  map (with_selected false) table_rows.

(** [$(this).toggleClass("selected")], [this] being the row of index [i]. *)
Definition toggleClass (i : Z) (table_rows : list tr) : list tr :=
  imap (fun k r =>
          if (Z.of_nat k =? i)%Z then with_selected (negb (selected r)) r else r)
       table_rows.

(** The click handler of a row (lines 178 to 194) on the rows and
    [last_selected]; [new_selected] is the index of the clicked row. *)
Definition row_click (ctrlKey shiftKey : bool) (new_selected : Z)
    (table_rows : list tr) (last_selected : Z) : list tr * Z :=
  let rows :=
    if negb ctrlKey && negb shiftKey then removeClass_all table_rows
    else if shiftKey then
      let rows :=
        if (new_selected <? last_selected)%Z then
          let length := (Z.of_nat (length table_rows) - 1)%Z in
          addClass_slice (new_selected - length) (last_selected - length - 1) table_rows
        else table_rows in
      addClass_slice (last_selected + 1) new_selected rows
    else table_rows in
  (toggleClass new_selected rows, new_selected).

(** The indices of the rows that carry the class [selected]. *)
Definition selection (table_rows : list tr) : list nat :=
  List.filter (fun k => match table_rows !! k with
                        | Some r => selected r
                        | None => false
                        end) (seq 0 (length table_rows)).

Definition on_row_click (ctrlKey shiftKey : bool) (i : nat) : M unit :=
  p ← get;
  if bool_decide (i < length (table_rows p)) then
    let '(rows, last) := row_click ctrlKey shiftKey (Z.of_nat i) (table_rows p) (last_selected p) in
    modify (set_table_rows (fun _ => rows));;
    modify (set_last_selected last)
  else ret tt.

(** *** Context menu *)

Definition selected_ids (table_rows : list tr) : list Z :=
  map rowid (List.filter selected table_rows).

(** Right click on row [i] (lines 199 to 228).  The [disabled] classes the
    handler puts on the info and copy entries are not tracked: the click
    handlers of the entries take the class as an input. *)
Definition on_contextmenu (i : nat) : M unit :=
  p ← get;
  match table_rows p !! i with
  | Some r =>
      (if selected r then ret tt
       else modify (set_table_rows
                      (fun rows => <[i := with_selected true r]> (removeClass_all rows))));;
      p ← get;
      modify (set_menu_ids (Some (selected_ids (table_rows p))));;
      modify (set_menu_shown true)
  | None => ret tt
  end.

Definition hide_menu : M unit := modify (set_menu_shown false).

(** A click handler that returns [false] stops the event; otherwise the
    click reaches the [html] handler, which hides the menu. *)
Definition click (handler : M bool) : M unit :=
  propagate ← handler;
  if propagate : bool then hide_menu else ret tt.

Fixpoint join_ids (ids : list Z) : string :=
  match ids with
  | [] => ""
  | [i] => pretty i
  | i :: rest => pretty i +:+ "," +:+ join_ids rest
  end.

Definition ids_to_string (ids : option (list Z)) : string :=
  match ids with
  | Some l => join_ids l
  | None => "undefined"
  end.

Definition on_context_info (disabled : bool) : M bool :=
  if disabled then ret false else
  p ← get;
  emit (Fancybox "ajax" ("/requests/" +:+ ids_to_string (menu_ids p)));;
  ret true.

Definition on_context_edit (disabled : bool) : M bool :=
  if disabled then ret false else
  emit (Alert "Edit");;
  emit (Fancybox "iframe" "/editrequest.html");;
  ret true.

Definition on_context_copy (disabled : bool) : M bool :=
  if disabled then ret false else
  emit (Alert "COPY");;
  ret true.

Definition approve_request (id : Z) : ajax_settings :=
  {| url := "/requests/" +:+ pretty id; type := PUT;
     data := [("status", VStr "Approved")]; callbacks := NoHandlers |}.

Definition delete_request (id : Z) : ajax_settings :=
  {| url := "/requests/" +:+ pretty id; type := DELETE;
     data := []; callbacks := NoHandlers |}.

(** [#contextApprove] (lines 261 to 274); [for (var i in ids)] runs over
    no index when [ids] is undefined. *)
Definition on_context_approve (disabled : bool) : M bool :=
  if disabled then ret false else
  p ← get;
  let ids := menu_ids p in
  ajax_calls ← map_m (fun id => ajax (approve_request id)) (default [] ids);
  when ajax_calls (ApproveDone ids);;
  ret true.

(** [#contextDelete] (lines 276 to 288). *)
Definition on_context_delete (disabled : bool) : M bool :=
  if disabled then ret false else
  p ← get;
  let ids := menu_ids p in
  ajax_calls ← map_m (fun id => ajax (delete_request id)) (default [] ids);
  when ajax_calls (DeleteDone ids);;
  ret true.

(** *** The Delete key *)

Definition on_keypress (keyCode : Z) : M unit :=
  if (keyCode =? 46)%Z then
    p ← get;
    let selected := selected_ids (table_rows p) in
    if bool_decide (length selected = 0) then ret tt else
    emit (Confirm ("Really delete " +:+ pretty (length selected) +:+ " request(s)?"));;
    modify (set_dialogs (fun l => l ++ [{| captured := selected; answered := false |}]))
  else ret tt.

(** The callback of [bootbox.confirm], called once with the answer. *)
Definition on_answer (d : nat) (result : bool) : M unit :=
  p ← get;
  match dialogs p !! d with
  | Some dlg =>
      if answered dlg then ret tt else
      modify (set_dialogs (<[d := {| captured := captured dlg; answered := true |}]>));;
      if negb result then ret tt else
      ajax_calls ← map_m (fun id => ajax (delete_request id)) (captured dlg);
      when ajax_calls (KeyDeleteDone ajax_calls)
  | None => ret tt
  end.

(** *** Sub-tables *)

(** Click on a reschedule glyph (lines 113 to 123). *)
Definition on_reschedule_click (macro_id request_id : jsval) : M bool :=
  ajax {| url := "requests/" +:+ ToString request_id +:+ "/parametricjobs/" +:+ ToString macro_id;
          type := PUT; data := [("reschedule", VBool true)];
          callbacks := RescheduleHandlers request_id |};;
  ret true.

(** Click on the expand control of row [i] (lines 127 to 142). *)
Definition on_details_click (i : nat) : M bool :=
  p ← get;
  match table_rows p !! i with
  | Some r =>
      let request_id := VNum (rowid r) in
      if child_shown r then
        modify (set_table_rows (<[i := with_child_shown false r]>));;
        ret true
      else
        modify (set_table_rows (<[i := with_child_shown true r]>));;
        refresh_subtable request_id;;
        ret true
  | None => ret true
  end.

Definition on_dblclick (i : nat) : M unit :=
  p ← get;
  match table_rows p !! i with
  | Some r => emit (Fancybox "ajax" ("/requests/" +:+ pretty (rowid r)))
  | None => ret tt
  end.

(** *** Start-up and the event loop *)

(** The ready callback: line 108 evaluates [refresh_table()] and hands its
    value to [setInterval]; line 177 initialises [last_selected]; line 318
    creates the global [bootstrap_alert]. *)
Definition ready : M unit :=
  v ← refresh_table;
  setInterval v 300000;;
  modify (set_last_selected 0);;
  set_global "bootstrap_alert" (VFun Fbootstrap_alert).

Inductive event : Type :=
  | Tick (t : nat)
  | AjaxDone (r : nat) (o : outcome)
  | ClickRow (i : nat) (ctrlKey shiftKey : bool)
  | ClickDetails (i : nat) (ctrlKey shiftKey : bool)
  | ClickReschedule (macro_id request_id : jsval)
  | DblClickRow (i : nat)
  | ContextMenu (i : nat)
  | ClickElsewhere
  | ClickInfo (disabled : bool)
  | ClickEdit (disabled : bool)
  | ClickCopy (disabled : bool)
  | ClickApprove (disabled : bool)
  | ClickDelete (disabled : bool)
  | KeyPress (keyCode : Z)
  | Answer (d : nat) (result : bool).

Definition handler (e : event) : M unit :=
  match e with
  | Tick t => fire t
  | AjaxDone r o => settle r o
  | ClickRow i c s => on_row_click c s i;; hide_menu
  | ClickDetails i c s => on_row_click c s i;; click (on_details_click i)
  | ClickReschedule m r => click (on_reschedule_click m r)
  | DblClickRow i => on_dblclick i
  | ContextMenu i => on_contextmenu i
  | ClickElsewhere => hide_menu
  | ClickInfo d => click (on_context_info d)
  | ClickEdit d => click (on_context_edit d)
  | ClickCopy d => click (on_context_copy d)
  | ClickApprove d => click (on_context_approve d)
  | ClickDelete d => click (on_context_delete d)
  | KeyPress k => on_keypress k
  | Answer d b => on_answer d b
  end.

(** A handler runs to its end or to an exception, which is reported and
    leaves the page as it was when thrown. *)
Definition exec (h : M unit) (p : page) : page :=
  match h p with
  | (Ok _, p') => p'
  | (Throw e, p') => set_log (fun l => l ++ [Uncaught e]) p'
  end.

Definition handle (e : event) (p : page) : page := exec (handler e) p.

Definition run (evs : list event) (p : page) : page :=
  fold_left (fun p e => handle e p) evs p.

(** The page before the script runs: the globals of the other scripts and
    nothing else. *)
Definition initial (globals : gmap string jsval) : page :=
  {| window := globals; table_rows := []; last_selected := 0; menu_ids := None;
     menu_shown := false; xhrs := []; joins := []; timers := []; dialogs := [];
     log := [] |}.

Definition startup (globals : gmap string jsval) : page := exec ready (initial globals).

(** The requests sent by [refresh_table]. *)
Definition is_refresh_table (x : xhr) : bool :=
  match callbacks (settings x) with
  | TableHandlers => true
  | _ => false
  end.

Definition refresh_table_calls (p : page) : nat :=
  length (List.filter is_refresh_table (xhrs p)).

(** *** The cells of the main table *)

Unset Elimination Schemes.

(** The data of a cell, as parsed from the JSON of the response, or
    [undefined] for a property the row does not have.  A string is the
    sequence of its UTF-16 code units; objects are left out. *)
Inductive cell : Type :=
  | CUndefined
  | CNull
  | CBool (b : bool)
  | CNum (x : float)
  | CStr (units : list N)
  | CArr (items : list cell).

Set Elimination Schemes.

(** The horizontal ellipsis, U+2026. *)
Definition ellipsis : N := 8230.

(** The renderer of every column of the main table (lines 52 to 54).  A
    number or a boolean has no [length], and the comparison of [undefined]
    with 40 is false; an array has a [length] and no [substr]. *)
Definition render_cell (data : cell) (type : string) : exn + cell :=
  if negb (String.eqb type "display") then inr data else
  match data with
  | CUndefined | CNull => inl (TypeError "Cannot read property length")
  | CBool _ | CNum _ => inr data
  | CStr units =>
      inr (if 40 <? length units then CStr (take 40 units ++ [ellipsis]) else data)
  | CArr items =>
      if 40 <? length items then inl (TypeError "data.substr is not a function")
      else inr data
  end.

(** *** The text of the banner *)

(** [s] without its prefix [pat]. *)
Fixpoint strip_prefix (pat s : string) : option string :=
  match pat, s with
  | EmptyString, _ => Some s
  | String a pat', String b s' => if Ascii.eqb a b then strip_prefix pat' s' else None
  | String _ _, EmptyString => None
  end.

(** The first occurrence of [pat] in [s]: what comes before it and what
    comes after it. *)
Fixpoint search (pat s : string) : option (string * string) :=
  match strip_prefix pat s with
  | Some after => Some (EmptyString, after)
  | None =>
      match s with
      | EmptyString => None
      | String c rest =>
          match search pat rest with
          | Some (before, after) => Some (String c before, after)
          | None => None
          end
      end
  end.

(** The replacement text of [String.prototype.replace] for a pattern that
    is a string, and so has no captures: a dollar followed by a dollar is a
    dollar, followed by an ampersand the match, followed by a backquote or
    a quote what precedes or follows the match; any other dollar stands for
    itself. *)
Fixpoint GetSubstitution (matched before after replacement : string) : string :=
  match replacement with
  | EmptyString => EmptyString
  | String c tail =>
      if Ascii.eqb c "$" then
        match tail with
        | EmptyString => String c EmptyString
        | String d rest =>
            if Ascii.eqb d "$" then String "$" (GetSubstitution matched before after rest)
            else if Ascii.eqb d "&" then
              matched +:+ GetSubstitution matched before after rest
            else if Ascii.eqb d "`" then
              before +:+ GetSubstitution matched before after rest
            else if Ascii.eqb d "'" then
              after +:+ GetSubstitution matched before after rest
            else String c (GetSubstitution matched before after tail)
        end
      else String c (GetSubstitution matched before after tail)
  end.

(** [s.replace(searchValue, replaceValue)], both of them strings: the first
    occurrence is replaced. *)
Definition replace (searchValue replaceValue s : string) : string :=
  match search searchValue s with
  | Some (before, after) =>
      before +:+ GetSubstitution searchValue before after replaceValue +:+ after
  | None => s
  end.

(** The template of lines 321 to 327, cut at its three markers; the
    backslash at the end of line 326 continues the line. *)
Definition alert_open : string :=
  nl +:+ spaces 12 +:+ "<div class='alert alert-dismissible ".

Definition alert_button : string :=
  "' role='alert'>" +:+ nl
  +:+ spaces 16 +:+ "<button type='button' class='close' data-dismiss='alert'>" +:+ nl
  +:+ spaces 20 +:+ "<span class='glyphicon glyphicon-remove-sign'></span>" +:+ nl
  +:+ spaces 16 +:+ "</button>" +:+ nl
  +:+ spaces 16 +:+ "<strong>".

Definition alert_close : string := spaces 12 +:+ "</div>".

Definition notification_template : string :=
  alert_open +:+ "###LEVEL###" +:+ alert_button +:+ "###STATUS###" +:+ "</strong> "
  +:+ "###MESSAGE###" +:+ alert_close.

(** The HTML that [bootstrap_alert] puts into [#notification] (lines 321 to
    329). *)
Definition notification_html (status message level : string) : string :=
  replace "###STATUS###" status
    (replace "###MESSAGE###" message
       (replace "###LEVEL###" level notification_template)).

(** ** Vocabulary of the statements *)

(** The five widths added up, left to right, in the arithmetic of [num]. *)
Definition total {num : Type} `{Number num} (v : progress num) : num :=
  (percent_completed v + percent_failed v + percent_running v
   + percent_submitted v + percent_other v)%num.

(** A progress record with the given counts. *)
Definition job_of_counts {num : Type}
    (njobs num_completed num_failed num_running num_submitted : num) : parametricjob num :=
  {| id := 0; request_id := 0; njobs := njobs; num_completed := num_completed;
     num_failed := num_failed; num_running := num_running;
     num_submitted := num_submitted; status := ""; reschedule := false |}.

(** The example of the specification, and a record whose widths round. *)
Definition example_job : parametricjob float :=
  job_of_counts 10%float 3%float 2%float 1%float 1%float.


(** A row that is not rescheduled and whose status string is "Rescheduled",
    and a failed row. *)
Definition unflagged_row : parametricjob float :=
  {| id := 1; request_id := 1; njobs := 1%float; num_completed := 0%float;
     num_failed := 0%float; num_running := 0%float; num_submitted := 0%float;
     status := "Rescheduled"; reschedule := false |}.

Definition failed_row : parametricjob float :=
  {| id := 7; request_id := 3; njobs := 1%float; num_completed := 0%float;
     num_failed := 1%float; num_running := 0%float; num_submitted := 0%float;
     status := "Failed"; reschedule := false |}.

(** A count as a double. *)
Definition double_of_nat (n : nat) : float :=
  PrimFloat.of_uint63 (Uint63.of_Z (Z.of_nat n)).

(** Within [2^-45] of 100, that is two units in the last place. *)
Definition near_100 (x : float) : bool :=
  PrimFloat.leb (PrimFloat.abs (x - 100)) 0x1p-45%float.

(** The double total of the record with the given counts is near 100, or
    the counts exceed [njobs]. *)
Definition total_near_100 (n c f r s : nat) : bool :=
  implb (c + f + r + s <=? n)%nat
    (near_100 (total (progress_vars
                        (job_of_counts (double_of_nat n) (double_of_nat c) (double_of_nat f)
                           (double_of_nat r) (double_of_nat s))))).

Definition upto (n : nat) : list nat := seq 0 (S n).

Definition totals_near_100 (bound : nat) : bool :=
  forallb (fun n =>
    forallb (fun c => forallb (fun f => forallb (fun r => forallb (fun s =>
      total_near_100 n c f r s) (upto n)) (upto n)) (upto n)) (upto n))
    (seq 1 bound).



(** Pages the script can be in: reached from start-up by events. *)
Definition reachable (p : page) : Prop :=
  exists globals evs, p = run evs (startup globals).

Definition table_response (ids : list Z) : response :=
  {| content := RequestRows ids; Datatable_Order := VArr []; Datatable_Columns := [] |}.

Definition job_response (rows : list (parametricjob float)) : response :=
  {| content := JobRows rows; Datatable_Order := VArr []; Datatable_Columns := [] |}.

(** A handler keeps an invariant of the page, whether it returns or
    throws. *)
Definition keeps (I : page -> Prop) {A : Type} (c : M A) : Prop :=
  forall p, I p -> I (c p).2.

(** No grid other than the main table is initialised. *)
Definition no_subtable (e : effect) : Prop :=
  match e with
  | DataTable selector _ _ _ => selector = "#tableBody"
  | _ => True
  end.

(** What holds of the page from start-up on, [w0] being the global object
    after start-up: the one timer holds [undefined]; no global but [columns]
    changes; [refresh_table] was called once; and, unless some other script
    defines a global [parametricjob], no sub-table grid was initialised. *)
Record invariant (w0 : gmap string jsval) (p : page) : Prop := {
  inv_timers : timers p = [(VUndefined, 300000%Z)];
  inv_window : forall x, x <> "columns" -> window p !! x = w0 !! x;
  inv_alert : w0 !! "bootstrap_alert" = Some (VFun Fbootstrap_alert);
  inv_calls : refresh_table_calls p = 1;
  inv_grids : w0 !! "parametricjob" = None -> Forall no_subtable (log p)
}.

(** *** Batches *)

Definition is_reload (e : effect) : bool :=
  match e with
  | Reload => true
  | _ => false
  end.

Definition is_resolved (jn : join) : bool :=
  match joined jn with
  | Resolved => true
  | _ => false
  end.

(** Reloads answer to resolved aggregates: every aggregate that is resolved
    has all its requests succeeded, and the log holds one reload for each.
    While the [done] callback of an aggregate just resolved has not yet
    reloaded the grid, the log is one reload short ([owed]). *)
Record reloads_settled (owed : nat) (p : page) : Prop := {
  settled_members :
    forall j jn, joins p !! j = Some jn -> joined jn = Resolved ->
      forallb (xhr_is Succeeded (xhrs p)) (members jn) = true;
  settled_reloads :
    owed + length (List.filter is_reload (log p))
    = length (List.filter is_resolved (joins p))
}.

(** What the [done] callback of a batch does when it runs to its end: the
    grid is reloaded and the banner reports the count. *)
Definition continuation_effects (k : continuation) : list effect :=
  match k with
  | ApproveDone ids =>
      [Reload;
       Notification "Info!" ("Approved " +:+ pretty (length (default [] ids)) +:+ " request(s)")
         "alert-info"]
  | DeleteDone ids =>
      [Reload;
       Notification "Attention!"
         ("Deleted " +:+ pretty (length (default [] ids)) +:+ " request(s)") "alert-danger"]
  | KeyDeleteDone ajax_calls =>
      [Reload;
       Notification "Attention!" ("Deleted " +:+ pretty (length ajax_calls) +:+ " requests")
         "alert-danger"]
  end.

(** The callback closes over an array [ids] (not over [undefined]). *)
Definition closed_over_ids (k : continuation) : Prop :=
  match k with
  | ApproveDone ids | DeleteDone ids => is_Some ids
  | KeyDeleteDone _ => True
  end.

(** A request of a batch, as sent: pending, with the aggregate [j] attached. *)
Definition batch_member (j : nat) (s : ajax_settings) : xhr :=
  {| settings := s; state := Pending; subscribers := [j] |}.

(** The indices of the requests of a batch of [n], sent from page [p]. *)
Definition batch_calls (p : page) (n : nat) : list nat := seq (length (xhrs p)) n.

(** The page after a batch: one request [f id] for each of [ids], in order,
    and an aggregate over them that waits to run [k]. *)
Definition with_batch (f : Z -> ajax_settings) (k : continuation) (ids : list Z)
    (p : page) : page :=
  set_xhrs (fun l => l ++ map (fun id => batch_member (length (joins p)) (f id)) ids)
    (set_joins (fun l => l ++ [{| members := batch_calls p (length ids);
                                  done_callback := k; joined := Waiting |}]) p).

(** The two batch actions of the context menu. *)
Inductive action : Type := Approve | Delete.

(** A click on the entry of the action, the entry not being disabled. *)
Definition action_click (a : action) : event :=
  match a with
  | Approve => ClickApprove false
  | Delete => ClickDelete false
  end.

Definition action_request (a : action) : Z -> ajax_settings :=
  match a with
  | Approve => approve_request
  | Delete => delete_request
  end.

Definition action_done (a : action) (ids : list Z) : continuation :=
  match a with
  | Approve => ApproveDone (Some ids)
  | Delete => DeleteDone (Some ids)
  end.

(** The events in which a request of the batch [ms] completes. *)
Definition completes (ms : list nat) (e : event) : bool :=
  match e with
  | AjaxDone r _ => bool_decide (r ∈ ms)
  | _ => false
  end.

Definition all_succeeded (ms : list nat) (p : page) : bool :=
  forallb (xhr_is Succeeded (xhrs p)) ms.

Definition some_failed (ms : list nat) (p : page) : bool :=
  existsb (xhr_is Failed (xhrs p)) ms.


(** The state of a page while the batch [ms], joined by aggregate [j] with
    callback [k], is in flight: [L] is the log and [S] the requests when the
    batch was sent. *)
Record batch (j : nat) (ms : list nat) (k : continuation) (L : list effect)
    (S : list ajax_settings) (p : page) : Prop := {
  batch_join :
    joins p !! j
    = Some {| members := ms; done_callback := k;
              joined := if some_failed ms p then Rejected
                        else if all_succeeded ms p then Resolved else Waiting |};
  batch_xhrs :
    forall r, r ∈ ms ->
      exists x, xhrs p !! r = Some x /\ callbacks (settings x) = NoHandlers
                /\ subscribers x = [j];
  batch_alert : window p !! "bootstrap_alert" = Some (VFun Fbootstrap_alert);
  batch_requests : map settings (xhrs p) = S;
  batch_log : log p = L ++ (if all_succeeded ms p then continuation_effects k else [])
}.

(** The page in which the expand control of the first row was clicked. *)
Definition expanded (globals : gmap string jsval) : page :=
  run [AjaxDone 0 (Success (table_response [11%Z])); ClickDetails 0 false false]
    (startup globals).

(** The page once the table has been loaded with the given request ids. *)
Definition loaded (ids : list Z) : page :=
  handle (AjaxDone 0 (Success (table_response ids))) (startup ∅).

(** The table with five requests, rows 1 to 3 selected and the context menu
    open on them. *)
Definition menu_page : page :=
  run [ClickRow 3 false false; ClickRow 1 false true; ContextMenu 2]
    (loaded [11; 22; 33; 44; 55]%Z).

Definition succeeds : outcome := Success (table_response []).
Definition fails : outcome := Failure 500 "error" "Internal Server Error" "{}".

(** The table with rows 1 to 3 selected. *)
Definition selected_page : page :=
  run [ClickRow 3 false false; ClickRow 1 false true] (loaded [11; 22; 33; 44; 55]%Z).


(** *** Requests of the tables *)

(** The request sent by [refresh_subtable]. *)
Definition subtable_request (request_id : jsval) : xhr :=
  {| settings := {| url := "/requests/" +:+ ToString request_id +:+ "/parametricjobs";
                    type := GET; data := []; callbacks := SubtableHandlers request_id |};
     state := Pending; subscribers := [] |}.

(** The settings of the request sent by a click on a reschedule glyph. *)
Definition reschedule_request (macro_id request_id : jsval) : ajax_settings :=
  {| url := "requests/" +:+ ToString request_id +:+ "/parametricjobs/" +:+ ToString macro_id;
     type := PUT; data := [("reschedule", VBool true)];
     callbacks := RescheduleHandlers request_id |}.

(** The warning of the [error] callbacks. *)
Definition error_warning (status error request_json : string) : effect :=
  Warn ("Error getting table data!" +:+ nl +:+ "status: " +:+ status +:+ nl
        +:+ "error: " +:+ error +:+ nl +:+ "request: " +:+ request_json).

(** The page in which the request for the table has failed. *)
Definition failed_load : page := handle (AjaxDone 0 fails) (startup ∅).

(** A character occurs in a string. *)
Fixpoint has_char (c : ascii) (s : string) : bool :=
  match s with
  | EmptyString => false
  | String d rest => Ascii.eqb c d || has_char c rest
  end.

(** *** What every handler preserves *)

(** The page after a right click on row [i], which is [r]. *)
Definition with_menu (i : nat) (r : tr) (p : page) : page :=
  let rows := if selected r then table_rows p
              else <[i := with_selected true r]> (removeClass_all (table_rows p)) in
  set_menu_shown true
    (set_menu_ids (Some (selected_ids rows)) (set_table_rows (fun _ => rows) p)).

(** A property of the page that is preserved by each update the handlers
    make, in the circumstances in which they make it. *)
Record stable (I : page -> Prop) : Prop := {
  stable_window : forall x v p, I p -> I (set_window (<[x := v]>) p);
  stable_log : forall e p, I p -> I (set_log (fun l => l ++ [e]) p);
  stable_joins : forall f p, I p -> I (set_joins f p);
  stable_last_selected : forall z p, I p -> I (set_last_selected z p);
  stable_hide : forall p, I p -> I (set_menu_shown false p);
  stable_send :
    forall s p, I p ->
      I (set_xhrs (fun l => l ++ [{| settings := s; state := Pending;
                                     subscribers := [] |}]) p);
  stable_subscribe :
    forall (ms : list nat) (j : nat) p, I p ->
      I (set_xhrs (imap (fun r x => if bool_decide (r ∈ ms) then subscribe j x
                                    else x)) p);
  stable_settle :
    forall r x o p, xhrs p !! r = Some x -> state x = Pending -> I p ->
      I (set_xhrs (<[r := with_state (outcome_state o) x]>) p);
  stable_load :
    forall r x resp p, xhrs p !! r = Some x -> state x = Pending ->
      callbacks (settings x) = TableHandlers -> I p ->
      I (set_table_rows (fun _ => map new_row (body_ids (content resp)))
           (set_xhrs (<[r := with_state Succeeded x]>) p));
  stable_click :
    forall c s i p, i < length (table_rows p) -> I p ->
      I (set_table_rows
           (fun _ => (row_click c s (Z.of_nat i) (table_rows p) (last_selected p)).1) p);
  stable_child :
    forall i r b p, table_rows p !! i = Some r -> I p ->
      I (set_table_rows (<[i := with_child_shown b r]>) p);
  stable_menu : forall i r p, table_rows p !! i = Some r -> I p -> I (with_menu i r p);
  stable_confirm :
    forall p, selected_ids (table_rows p) <> [] -> I p ->
      I (set_dialogs (fun l => l ++ [{| captured := selected_ids (table_rows p);
                                        answered := false |}]) p);
  stable_answer :
    forall d dlg p, dialogs p !! d = Some dlg -> I p ->
      I (set_dialogs (<[d := {| captured := captured dlg; answered := true |}]>) p)
}.

(** The table has been loaded: a request of [refresh_table] has
    succeeded. *)
Definition table_loaded (p : page) : Prop :=
  exists r x, xhrs p !! r = Some x /\ callbacks (settings x) = TableHandlers
              /\ state x = Succeeded.

(** The ids kept by the context menu are those of at least one row, and
    the menu is not shown without them; a confirmation dialog stands for at
    least one row; rows come from a load. *)
Record wellformed (p : page) : Prop := {
  wf_menu_ids : forall ids, menu_ids p = Some ids -> ids <> [];
  wf_menu_shown : menu_shown p = true -> is_Some (menu_ids p);
  wf_dialogs : forall d dlg, dialogs p !! d = Some dlg -> captured dlg <> [];
  wf_rows : table_rows p <> [] -> table_loaded p
}.

(** Page [q] has every request of page [p], with the settings it was sent
    with and, if it has settled, in the state in which it settled. *)
Definition keeps_requests (p q : page) : Prop :=
  forall r x, xhrs p !! r = Some x ->
    exists x', xhrs q !! r = Some x' /\ settings x' = settings x
               /\ (state x <> Pending -> state x' = state x).

(** * Properties *)

(** ** The progress formatter *)

Section ExactArithmetic.
Local Open Scope Qc_scope.

End ExactArithmetic.

(** The record of the specification's example, in doubles. *)
Example formatprogress_example :
  progress_vars example_job
  = {| striped := "progress-bar-striped active";
       percent_completed := 30; percent_failed := 20; percent_running := 10;
       percent_submitted := 10; num_other := 3; percent_other := 30 |}%float.
Proof. vm_compute. reflexivity. Qed.


Lemma forallb_upto (P : nat -> bool) (n k : nat) :
  forallb P (upto n) = true -> k <= n -> P k = true.
Proof.
  intros HP Hk. rewrite forallb_forall in HP. apply HP, in_seq. lia.
Qed.

Lemma totals_near_100_spec (bound n c f r s : nat) :
  totals_near_100 bound = true ->
  0 < n <= bound -> c + f + r + s <= n ->
  near_100 (total (progress_vars
                     (job_of_counts (double_of_nat n) (double_of_nat c) (double_of_nat f)
                        (double_of_nat r) (double_of_nat s)))) = true.
Proof.
  intros Hall Hn Hsum.
  unfold totals_near_100 in Hall. rewrite forallb_forall in Hall.
  assert (Hin : In n (seq 1 bound)) by (apply in_seq; lia).
  specialize (Hall n Hin).
  apply (forallb_upto _ n c) in Hall; [|lia].
  apply (forallb_upto _ n f) in Hall; [|lia].
  apply (forallb_upto _ n r) in Hall; [|lia].
  apply (forallb_upto _ n s) in Hall; [|lia].
  unfold total_near_100 in Hall.
  rewrite (proj2 (Nat.leb_le _ _) Hsum) in Hall. exact Hall.
Qed.

(** X19: in doubles, for up to twenty jobs and counts within them, the five
    widths add up to 100 within two units in the last place. *)
Lemma double_total_near_100 (n c f r s : nat) :
  0 < n <= 20 -> c + f + r + s <= n ->
  near_100 (total (progress_vars
                     (job_of_counts (double_of_nat n) (double_of_nat c) (double_of_nat f)
                        (double_of_nat r) (double_of_nat s)))) = true.
Proof. apply totals_near_100_spec. vm_compute. reflexivity. Qed.



(** *** Zero jobs *)

Lemma float_zero_inv (y : float) :
  PrimFloat.eqb y 0 = true -> exists s, Prim2SF y = S754_zero s.
Proof.
  rewrite FloatAxioms.eqb_spec.
  change (Prim2SF 0) with (S754_zero false).
  destruct (Prim2SF y) as [s|s| |s m e]; cbn; try discriminate; eauto.
  all: destruct s; discriminate.
Qed.

(** A quotient by zero is an infinity or a NaN, whatever the numerator. *)
Lemma div_by_zero_not_finite (x y : float) :
  PrimFloat.eqb y 0 = true -> is_finite (x / y) = false.
Proof.
  intros [s Hy]%float_zero_inv.
  unfold is_finite, is_nan, is_infinity.
  rewrite !FloatAxioms.eqb_spec, abs_spec, div_spec, Hy.
  change (Prim2SF infinity) with (S754_infinity false).
  destruct (Prim2SF x) as [sx|sx| |sx m e]; cbn; try reflexivity.
  all: destruct sx, s; reflexivity.
Qed.

(** C9: when [njobs] is zero (of either sign) the five widths are quotients
    by zero, none of them a finite number; [formatprogress] has no branch on
    [njobs] and returns its template filled with these values. *)
Theorem formatprogress_zero_jobs (toString : float -> string) (pj : parametricjob float) :
  PrimFloat.eqb (njobs pj) 0 = true ->
  Forall (fun w => is_finite w = false) (percentages (progress_vars pj))
  /\ formatprogress toString pj = render_progress toString pj (progress_vars pj).
Proof.
  intros Hz. split; [|reflexivity].
  unfold percentages, progress_vars; cbn.
  repeat constructor; apply div_by_zero_not_finite, Hz.
Qed.

Lemma formatprogress_zero_jobs_witness :
  Forall (fun w => is_finite w = false)
    (percentages (progress_vars (job_of_counts 0%float 0%float 0%float 2%float 1%float))).
Proof.
  apply (formatprogress_zero_jobs (fun _ => "")
           (job_of_counts 0%float 0%float 0%float 2%float 1%float)).
  reflexivity.
Defined.

(** The widths of that record: NaN for the zero counts, infinities for the
    others, the remainder being negative. *)
Example formatprogress_zero_jobs_values :
  map Prim2SF (percentages (progress_vars
                 (job_of_counts 0%float 0%float 0%float 2%float 1%float)))
  = [S754_nan; S754_nan; S754_infinity false; S754_infinity false; S754_infinity true].
Proof. vm_compute. reflexivity. Qed.

(** ** The cell renderers *)

Section Renderers.
Context {num : Type}.
Implicit Types row : parametricjob num.


(** C5, as stated, fails: a row that is not rescheduled and whose status
    is the string "Rescheduled" is rendered as "Rescheduled". *)
Lemma render_status_not_iff :
  reschedule unflagged_row = false
  /\ render_status unflagged_row = "Rescheduled"
  /\ ~ (render_status unflagged_row = "Rescheduled" <-> reschedule unflagged_row = true).
Proof.
  split; [reflexivity|]. split; [reflexivity|].
  intros [Hr _]. specialize (Hr eq_refl). discriminate.
Qed.

(** C5 (amended): a row whose reschedule flag is set is rendered as
    "Rescheduled" whatever its status; any other row is rendered as its
    raw status, so that "Rescheduled" is shown exactly when the flag is
    set or the status is that very string. *)
Theorem render_status_spec row :
  (reschedule row = true -> render_status row = "Rescheduled")
  /\ (reschedule row = false -> render_status row = status row)
  /\ (render_status row = "Rescheduled"
      <-> reschedule row = true \/ status row = "Rescheduled").
Proof.
  unfold render_status. destruct (reschedule row).
  - repeat split; intros; auto; discriminate.
  - split; [discriminate|]. split; [reflexivity|].
    split; [intros Hs; right; exact Hs|].
    intros [Hf|Hs]; [discriminate|exact Hs].
Qed.

End Renderers.

(** The cells of a failed and of a running job. *)
Example render_reschedule_failed :
  render_reschedule failed_row
  = "<span class=" +:+ dq +:+ "glyphicon glyphicon-repeat text-primary reschedule" +:+ dq
    +:+ " style=" +:+ dq +:+ "cursor:pointer" +:+ dq
    +:+ " macroid=" +:+ dq +:+ "7" +:+ dq +:+ " requestid=" +:+ dq +:+ "3" +:+ dq
    +:+ "></span>".
Proof. vm_compute. reflexivity. Qed.

(** ** The selection manager *)

Section Selection.
Implicit Types (rows : list tr) (k i j : nat).

Lemma lookup_map_tr (f : tr -> tr) rows k : map f rows !! k = f <$> rows !! k.
Proof.
  revert k. induction rows as [|r rows IH]; intros [|k]; cbn; auto.
Qed.

Lemma length_removeClass_all rows : length (removeClass_all rows) = length rows.
Proof. apply length_map. Qed.

Lemma length_addClass_slice a b rows : length (addClass_slice a b rows) = length rows.
Proof. apply length_imap. Qed.

Lemma length_toggleClass z rows : length (toggleClass z rows) = length rows.
Proof. apply length_imap. Qed.

(** The class of row [k] after each of the three updates. *)
Lemma selected_removeClass_all rows k :
  selected <$> removeClass_all rows !! k = (fun _ => false) <$> rows !! k.
Proof.
  unfold removeClass_all. rewrite lookup_map_tr. destruct (rows !! k); reflexivity.
Qed.

Lemma selected_addClass_slice a b rows k :
  selected <$> addClass_slice a b rows !! k
  = (fun r => in_slice (Z.of_nat (length rows)) a b (Z.of_nat k) || selected r)
    <$> rows !! k.
Proof.
  unfold addClass_slice. rewrite list_lookup_imap.
  destruct (rows !! k) as [r|]; cbn; [|reflexivity].
  destruct (in_slice _ _ _ _); reflexivity.
Qed.

Lemma selected_toggleClass z rows k :
  selected <$> toggleClass z rows !! k
  = (fun r => if (Z.of_nat k =? z)%Z then negb (selected r) else selected r)
    <$> rows !! k.
Proof.
  unfold toggleClass. rewrite list_lookup_imap.
  destruct (rows !! k) as [r|]; cbn; [|reflexivity].
  destruct (Z.of_nat k =? z)%Z; reflexivity.
Qed.

(** A selection is read off the classes of the rows. *)
Lemma selection_ext rows (sel : nat -> bool) :
  (forall k, k < length rows -> selected <$> rows !! k = Some (sel k)) ->
  selection rows = List.filter sel (seq 0 (length rows)).
Proof.
  intros Hsel. unfold selection. apply List.filter_ext_in.
  intros k [_ Hk]%in_seq. specialize (Hsel k Hk).
  destruct (rows !! k); cbn in Hsel; congruence.
Qed.

Lemma filter_seq_none (sel : nat -> bool) a n :
  (forall k, a <= k < a + n -> sel k = false) -> List.filter sel (seq a n) = [].
Proof.
  revert a. induction n as [|n IH]; intros a Hs; cbn; [reflexivity|].
  rewrite (Hs a) by lia. apply IH. intros k Hk. apply Hs. lia.
Qed.

Lemma filter_seq_all (sel : nat -> bool) a n :
  (forall k, a <= k < a + n -> sel k = true) -> List.filter sel (seq a n) = seq a n.
Proof.
  revert a. induction n as [|n IH]; intros a Hs; cbn; [reflexivity|].
  rewrite (Hs a) by lia. f_equal. apply IH. intros k Hk. apply Hs. lia.
Qed.

(** Rows selected exactly on an interval. *)
Lemma filter_seq_interval (sel : nat -> bool) lo hi n :
  lo <= hi -> hi <= n ->
  (forall k, k < n -> sel k = bool_decide (lo <= k < hi)) ->
  List.filter sel (seq 0 n) = seq lo (hi - lo).
Proof.
  intros Hlo Hhi Hs.
  replace n with (lo + ((hi - lo) + (n - hi))) at 1 by lia.
  rewrite !seq_app, !List.filter_app. cbn [Nat.add].
  rewrite filter_seq_none, filter_seq_all, filter_seq_none; cbn.
  - apply app_nil_r.
  - intros k Hk. rewrite Hs by lia. apply bool_decide_eq_false. lia.
  - intros k Hk. rewrite Hs by lia. apply bool_decide_eq_true. lia.
  - intros k Hk. rewrite Hs by lia. apply bool_decide_eq_false. lia.
Qed.

(** A plain click leaves the clicked row alone selected. *)
Lemma row_click_plain rows last i :
  i < length rows ->
  let '(rows', last') := row_click false false (Z.of_nat i) rows last in
  selection rows' = [i] /\ last' = Z.of_nat i /\ length rows' = length rows
  /\ forall k, k < length rows ->
       selected <$> rows' !! k = Some (bool_decide (k = i)).
Proof.
  intros Hi. unfold row_click. cbn [negb andb].
  assert (Hsel : forall k, k < length rows ->
            selected <$> toggleClass (Z.of_nat i) (removeClass_all rows) !! k
            = Some (bool_decide (k = i))).
  { intros k Hk. rewrite selected_toggleClass.
    destruct (lookup_lt_is_Some_2 (removeClass_all rows) k) as [r Hr];
      [rewrite length_removeClass_all; exact Hk|].
    pose proof (selected_removeClass_all rows k) as Hrm. rewrite Hr in Hrm.
    destruct (lookup_lt_is_Some_2 rows k Hk) as [r0 Hr0]. rewrite Hr0 in Hrm.
    cbn in Hrm. injection Hrm as Hrm. rewrite Hr. cbn. rewrite Hrm. f_equal.
    destruct (Z.eqb_spec (Z.of_nat k) (Z.of_nat i)) as [He|He].
    - symmetry. apply bool_decide_eq_true. lia.
    - symmetry. apply bool_decide_eq_false. lia. }
  rewrite length_toggleClass, length_removeClass_all.
  repeat split; [|exact Hsel].
  rewrite (selection_ext _ (fun k => bool_decide (k = i))).
  - rewrite length_toggleClass, length_removeClass_all.
    rewrite (filter_seq_interval _ i (S i)); [|lia|lia|].
    + replace (S i - i) with 1 by lia. reflexivity.
    + intros k Hk. apply bool_decide_ext. lia.
  - rewrite length_toggleClass, length_removeClass_all. exact Hsel.
Qed.

Lemma slice_index_neg len z : (z < 0)%Z -> slice_index len z = Z.max (len + z) 0.
Proof. intros Hz. unfold slice_index. destruct (Z.ltb_spec z 0); [reflexivity|lia]. Qed.

Lemma slice_index_nonneg len z : (0 <= z)%Z -> slice_index len z = Z.min z len.
Proof. intros Hz. unfold slice_index. destruct (Z.ltb_spec z 0); [lia|reflexivity]. Qed.

(** Comparisons of indices are decided case by case. *)
Ltac solve_selected :=
  repeat match goal with
         | |- context [(?a <? ?b)%Z] => destruct (Z.ltb_spec a b)
         | |- context [(?a <=? ?b)%Z] => destruct (Z.leb_spec a b)
         | |- context [(?a =? ?b)%Z] => destruct (Z.eqb_spec a b)
         end;
  repeat case_bool_decide; cbn; try reflexivity; lia.

Lemma sel_addClass_slice a b rows k s :
  selected <$> rows !! k = Some s ->
  selected <$> addClass_slice a b rows !! k
  = Some (in_slice (Z.of_nat (length rows)) a b (Z.of_nat k) || s).
Proof. intros Hs. rewrite selected_addClass_slice. destruct (rows !! k); naive_solver. Qed.

Lemma sel_toggleClass z rows k s :
  selected <$> rows !! k = Some s ->
  selected <$> toggleClass z rows !! k
  = Some (if (Z.of_nat k =? z)%Z then negb s else s).
Proof. intros Hs. rewrite selected_toggleClass. destruct (rows !! k); naive_solver. Qed.

(** The class of each row after a shift-click on [j], when row [i] alone
    is selected and was the last one clicked. *)
Lemma row_click_shift_rows rows i j ctrlKey :
  i < length rows -> j < length rows ->
  (forall k, k < length rows -> selected <$> rows !! k = Some (bool_decide (k = i))) ->
  let '(rows', last') := row_click ctrlKey true (Z.of_nat j) rows (Z.of_nat i) in
  last' = Z.of_nat j /\ length rows' = length rows
  /\ forall k, k < length rows ->
       selected <$> rows' !! k
       = Some (bool_decide (i <> j /\ Nat.min i j <= k <= Nat.max i j)).
Proof.
  intros Hi Hj Hsel. unfold row_click.
  replace (negb ctrlKey && negb true) with false by (destruct ctrlKey; reflexivity).
  split; [reflexivity|].
  split; [destruct (Z.of_nat j <? Z.of_nat i)%Z;
          rewrite length_toggleClass, !length_addClass_slice; reflexivity|].
  intros k Hk. specialize (Hsel k Hk).
  destruct (Z.ltb_spec (Z.of_nat j) (Z.of_nat i)) as [Hlt|Hge].
  - erewrite sel_toggleClass;
      [|apply sel_addClass_slice, sel_addClass_slice, Hsel].
    f_equal. rewrite length_addClass_slice.
    unfold in_slice.
    rewrite (slice_index_neg _ (Z.of_nat j - _)) by lia.
    rewrite (slice_index_neg _ (Z.of_nat i - _ - 1)) by lia.
    rewrite (slice_index_nonneg _ (Z.of_nat i + 1)) by lia.
    rewrite (slice_index_nonneg _ (Z.of_nat j)) by lia.
    solve_selected.
  - erewrite sel_toggleClass; [|apply sel_addClass_slice, Hsel].
    f_equal. unfold in_slice.
    rewrite (slice_index_nonneg _ (Z.of_nat i + 1)) by lia.
    rewrite (slice_index_nonneg _ (Z.of_nat j)) by lia.
    solve_selected.
Qed.

(** On distinct rows the selection is the interval between them. *)
Lemma row_click_shift rows i j ctrlKey :
  i < length rows -> j < length rows -> i <> j ->
  (forall k, k < length rows -> selected <$> rows !! k = Some (bool_decide (k = i))) ->
  selection (row_click ctrlKey true (Z.of_nat j) rows (Z.of_nat i)).1
  = seq (Nat.min i j) (Nat.max i j - Nat.min i j + 1).
Proof.
  intros Hi Hj Hij Hsel.
  pose proof (row_click_shift_rows rows i j ctrlKey Hi Hj Hsel) as Hr.
  destruct (row_click ctrlKey true (Z.of_nat j) rows (Z.of_nat i)) as [rows' last'].
  destruct Hr as (_ & Hlen & Hr). cbn [fst].
  rewrite (selection_ext _ (fun k => bool_decide (i <> j /\ Nat.min i j <= k <= Nat.max i j)))
    by (rewrite Hlen; exact Hr).
  rewrite Hlen.
  rewrite (filter_seq_interval _ (Nat.min i j) (S (Nat.max i j))); [|lia|lia|].
  - f_equal. lia.
  - intros k Hk. apply bool_decide_ext. lia.
Qed.

(** On the row that is selected, a shift-click toggles it off. *)
Lemma row_click_shift_same rows i ctrlKey :
  i < length rows ->
  (forall k, k < length rows -> selected <$> rows !! k = Some (bool_decide (k = i))) ->
  selection (row_click ctrlKey true (Z.of_nat i) rows (Z.of_nat i)).1 = [].
Proof.
  intros Hi Hsel.
  pose proof (row_click_shift_rows rows i i ctrlKey Hi Hi Hsel) as Hr.
  destruct (row_click ctrlKey true (Z.of_nat i) rows (Z.of_nat i)) as [rows' last'].
  destruct Hr as (_ & Hlen & Hr). cbn [fst].
  rewrite (selection_ext _ (fun _ => false)).
  - apply filter_seq_none. reflexivity.
  - intros k Hk. rewrite Hr by (rewrite <- Hlen; exact Hk).
    f_equal. apply bool_decide_eq_false. tauto.
Qed.
End Selection.

(** *** Clicks as events of the page *)

(** Unfolding of the monad operations, and of nothing else. *)
Ltac step_M :=
  cbv beta iota zeta
      delta [mbind M_bind bind mret M_ret ret get modify throw emit lift exec handle].

Lemma handle_ClickRow (p : page) (i : nat) (ctrlKey shiftKey : bool) :
  i < length (table_rows p) ->
  let p' := handle (ClickRow i ctrlKey shiftKey) p in
  table_rows p' = (row_click ctrlKey shiftKey (Z.of_nat i) (table_rows p) (last_selected p)).1
  /\ last_selected p' = Z.of_nat i.
Proof.
  intros Hi. step_M. unfold handler, on_row_click, hide_menu. step_M.
  rewrite bool_decide_eq_true_2 by exact Hi.
  destruct (row_click _ _ _ _ _) as [rows last] eqn:Hclick. step_M.
  split; [reflexivity|].
  unfold row_click in Hclick. injection Hclick as _ <-. reflexivity.
Qed.

(** C4, as stated, fails when the two rows are the same: a shift-click on
    the row just selected toggles it off, and nothing is selected, whereas
    the range from 0 to 0 is row 0. *)
Lemma selection_shift_click_same_row :
  let p1 := handle (ClickRow 0 false false) (loaded [5%Z]) in
  let p2 := handle (ClickRow 0 false true) p1 in
  selection (table_rows p1) = [0]
  /\ selection (table_rows p2) = []
  /\ selection (table_rows p2) <> seq (Nat.min 0 0) (Nat.max 0 0 - Nat.min 0 0 + 1).
Proof. cbv zeta. split; [|split]; [vm_compute; reflexivity ..|vm_compute; discriminate]. Qed.

(** C4 (amended): a plain click on row [i] leaves exactly row [i] selected,
    and a shift-click on another row [j] right after it leaves exactly the
    rows from [min i j] to [max i j] selected. *)
Theorem selection_click (p : page) (i j : nat) (ctrlKey : bool) :
  i < length (table_rows p) -> j < length (table_rows p) -> i <> j ->
  let p1 := handle (ClickRow i false false) p in
  let p2 := handle (ClickRow j ctrlKey true) p1 in
  selection (table_rows p1) = [i]
  /\ selection (table_rows p2) = seq (Nat.min i j) (Nat.max i j - Nat.min i j + 1).
Proof.
  intros Hi Hj Hij p1 p2.
  destruct (handle_ClickRow p i false false Hi) as [Hrows1 Hlast1].
  fold p1 in Hrows1, Hlast1.
  pose proof (row_click_plain (table_rows p) (last_selected p) i Hi) as Hplain.
  destruct (row_click false false (Z.of_nat i) (table_rows p) (last_selected p))
    as [rows1 last1].
  cbn [fst] in Hrows1. destruct Hplain as (Hsel1 & _ & Hlen1 & Hk1).
  rewrite <- Hrows1 in Hsel1, Hlen1, Hk1. split; [exact Hsel1|].
  assert (Hj1 : j < length (table_rows p1)) by (rewrite Hlen1; exact Hj).
  destruct (handle_ClickRow p1 j ctrlKey true Hj1) as [Hrows2 _].
  fold p2 in Hrows2. rewrite Hrows2, Hlast1.
  apply row_click_shift; try assumption.
  - rewrite Hlen1. exact Hi.
  - intros k Hk. apply Hk1. rewrite <- Hlen1. exact Hk.
Qed.

Lemma selection_click_witness :
  let p1 := handle (ClickRow 3 false false) (loaded [11; 22; 33; 44; 55]%Z) in
  let p2 := handle (ClickRow 1 false true) p1 in
  selection (table_rows p1) = [3] /\ selection (table_rows p2) = [1; 2; 3].
Proof.
  cbv zeta.
  assert (H3 : 3 < length (table_rows (loaded [11; 22; 33; 44; 55]%Z)))
    by (vm_compute; lia).
  assert (H1 : 1 < length (table_rows (loaded [11; 22; 33; 44; 55]%Z)))
    by (vm_compute; lia).
  assert (Hne : 3 <> 1) by discriminate.
  exact (selection_click (loaded [11; 22; 33; 44; 55]%Z) 3 1 false H3 H1 Hne).
Defined.

(** ** Invariants of the page *)

Section Keeps.
Context (I : page -> Prop).

Lemma keeps_ret {A} (a : A) : keeps I (ret a).
Proof. intros p Hp. exact Hp. Qed.

Lemma keeps_throw {A} (e : exn) : keeps I (@throw A e).
Proof. intros p Hp. exact Hp. Qed.

Lemma keeps_lift {A} (r : exn + A) : keeps I (lift r).
Proof. destruct r; intros p Hp; exact Hp. Qed.

Lemma keeps_modify (f : page -> page) :
  (forall p, I p -> I (f p)) -> keeps I (modify f).
Proof. intros Hf p Hp. apply Hf, Hp. Qed.

Lemma keeps_bind {A B} (c : M A) (k : A -> M B) :
  keeps I c -> (forall a, keeps I (k a)) -> keeps I (c ≫= k).
Proof.
  intros Hc Hk p Hp. specialize (Hc p Hp). step_M.
  destruct (c p) as [[a|e] p']; cbn in *; [apply Hk, Hc|exact Hc].
Qed.

(** What is read from the page satisfies the invariant. *)
Lemma keeps_get_bind {B} (k : page -> M B) :
  (forall p0, I p0 -> keeps I (k p0)) -> keeps I (get ≫= k).
Proof. intros Hk p Hp. step_M. apply Hk; exact Hp. Qed.

(** The same steps at a given page. *)
Lemma keeps_get_bind_at {B} (k : page -> M B) (p : page) :
  I (k p p).2 -> I ((get ≫= k) p).2.
Proof. intros Hk. exact Hk. Qed.

Lemma keeps_modify_bind_at {B} (f : page -> page) (k : unit -> M B) (p : page) :
  I (f p) -> keeps I (k tt) -> I ((modify f ≫= k) p).2.
Proof. intros Hf Hk. apply (Hk (f p)), Hf. Qed.

Lemma keeps_for_each {A} (f : A -> M unit) (l : list A) :
  (forall a, keeps I (f a)) -> keeps I (for_each f l).
Proof.
  intros Hf. induction l as [|a l IH]; cbn [for_each].
  - apply keeps_ret.
  - apply keeps_bind; [apply Hf|intros _; exact IH].
Qed.

Lemma keeps_map_m {A B} (f : A -> M B) (l : list A) :
  (forall a, keeps I (f a)) -> keeps I (map_m f l).
Proof.
  intros Hf. induction l as [|a l IH]; cbn [map_m].
  - apply keeps_ret.
  - apply keeps_bind; [apply Hf|intros b].
    apply keeps_bind; [exact IH|intros bs; apply keeps_ret].
Qed.

Lemma keeps_exec (h : M unit) :
  keeps I h -> (forall e p, I p -> I (set_log (fun l => l ++ [Uncaught e]) p)) ->
  forall p, I p -> I (exec h p).
Proof.
  intros Hh He p Hp. specialize (Hh p Hp). unfold exec.
  destruct (h p) as [[[]|e] p']; cbn in *; [exact Hh|apply He, Hh].
Qed.
End Keeps.

(** The number of calls of [refresh_table] depends on the settings of the
    requests only. *)
Lemma filter_app_one {A} (f : A -> bool) (l : list A) (x : A) :
  f x = false -> length (List.filter f (l ++ [x])) = length (List.filter f l).
Proof. intros Hx. rewrite List.filter_app. cbn. rewrite Hx, app_nil_r. reflexivity. Qed.

Lemma filter_insert_same {A} (f : A -> bool) (l : list A) (i : nat) (x x' : A) :
  l !! i = Some x -> f x' = f x ->
  length (List.filter f (<[i := x']> l)) = length (List.filter f l).
Proof.
  revert i. induction l as [|y l IH]; intros [|i] Hl Hf; try discriminate.
  - injection Hl as ->. cbn. rewrite Hf. destruct (f x); reflexivity.
  - specialize (IH i Hl Hf). change (<[S i := x']> (y :: l)) with (y :: <[i := x']> l).
    cbn [List.filter]. destruct (f y); cbn [length]; congruence.
Qed.

Lemma filter_imap_same {A} (f : A -> bool) (g : nat -> A -> A) (l : list A) :
  (forall i x, f (g i x) = f x) ->
  length (List.filter f (imap g l)) = length (List.filter f l).
Proof.
  revert g. induction l as [|y l IH]; intros g Hg; cbn; [reflexivity|].
  rewrite Hg. specialize (IH (g ∘ S) (fun i x => Hg (S i) x)).
  destruct (f y); cbn; congruence.
Qed.

Section Invariant.
Context (w0 : gmap string jsval).
Abbreviation Inv := (invariant w0).

Lemma inv_set_log (e : effect) (p : page) :
  no_subtable e -> Inv p -> Inv (set_log (fun l => l ++ [e]) p).
Proof.
  intros He [Ht Hw Ha Hc Hg]. split; cbn; auto.
  intros Hpj. apply Forall_app. split; [auto|]. constructor; [exact He|constructor].
Qed.

Lemma inv_set_xhrs (f : list xhr -> list xhr) (p : page) :
  length (List.filter is_refresh_table (f (xhrs p)))
  = length (List.filter is_refresh_table (xhrs p)) ->
  Inv p -> Inv (set_xhrs f p).
Proof.
  intros Hf [Ht Hw Ha Hc Hg]. split; cbn; auto.
  unfold refresh_table_calls in *. cbn. congruence.
Qed.

Lemma inv_set_columns (v : jsval) (p : page) :
  Inv p -> Inv (set_window (<["columns" := v]>) p).
Proof.
  intros [Ht Hw Ha Hc Hg]. split; cbn; auto.
  intros x Hx. rewrite lookup_insert_ne by congruence. auto.
Qed.

Lemma inv_set_table_rows f p : Inv p -> Inv (set_table_rows f p).
Proof. intros [Ht Hw Ha Hc Hg]. split; cbn; auto. Qed.

Lemma inv_set_last_selected z p : Inv p -> Inv (set_last_selected z p).
Proof. intros [Ht Hw Ha Hc Hg]. split; cbn; auto. Qed.

Lemma inv_set_menu_ids ids p : Inv p -> Inv (set_menu_ids ids p).
Proof. intros [Ht Hw Ha Hc Hg]. split; cbn; auto. Qed.

Lemma inv_set_menu_shown b p : Inv p -> Inv (set_menu_shown b p).
Proof. intros [Ht Hw Ha Hc Hg]. split; cbn; auto. Qed.

Lemma inv_set_joins f p : Inv p -> Inv (set_joins f p).
Proof. intros [Ht Hw Ha Hc Hg]. split; cbn; auto. Qed.

Lemma inv_set_dialogs f p : Inv p -> Inv (set_dialogs f p).
Proof. intros [Ht Hw Ha Hc Hg]. split; cbn; auto. Qed.

Create HintDb inv.
Hint Resolve inv_set_table_rows inv_set_last_selected inv_set_menu_ids
  inv_set_menu_shown inv_set_joins inv_set_dialogs inv_set_columns : inv.

Lemma keeps_emit (e : effect) : no_subtable e -> keeps Inv (emit e).
Proof. intros He. apply keeps_modify. intros p. apply inv_set_log, He. Qed.

(** Structural steps of an invariance proof. *)
Ltac keeps_step :=
  lazymatch goal with
  | |- keeps _ (ret _) => apply keeps_ret
  | |- keeps _ (throw _) => apply keeps_throw
  | |- keeps _ (lift _) => apply keeps_lift
  | |- keeps _ (emit _) => apply keeps_emit; first [exact I | reflexivity]
  | |- keeps _ (modify _) => apply keeps_modify; intros ? ?; solve [eauto with inv]
  | |- keeps _ (for_each _ _) => apply keeps_for_each; intros ?
  | |- keeps _ (map_m _ _) => apply keeps_map_m; intros ?
  | |- keeps _ (get ≫= _) =>
      let p0 := fresh "p0" in let Hp0 := fresh "Hp0" in
      apply keeps_get_bind; intros p0 Hp0
  | |- keeps _ (_ ≫= _) => apply keeps_bind; [|intros ?]
  end.

Lemma keeps_ajax (s : ajax_settings) :
  callbacks s <> TableHandlers -> keeps Inv (ajax s).
Proof.
  intros Hs. unfold ajax. keeps_step. keeps_step; [|keeps_step].
  apply keeps_modify. intros p Hp. apply inv_set_xhrs; [|exact Hp].
  apply filter_app_one. unfold is_refresh_table; cbn.
  destruct (callbacks s); congruence.
Qed.

Lemma keeps_refresh_subtable (request_id : jsval) : keeps Inv (refresh_subtable request_id).
Proof.
  unfold refresh_subtable. keeps_step; [|keeps_step].
  apply keeps_ajax. discriminate.
Qed.

Lemma keeps_set_global_columns (v : jsval) : keeps Inv (set_global "columns" v).
Proof. unfold set_global. keeps_step. Qed.

Lemma keeps_table_success (r : response) : keeps Inv (table_success r).
Proof.
  unfold table_success. repeat keeps_step.
  apply keeps_set_global_columns.
Qed.

(** A global that is not [columns] is read as it was at start-up. *)
Lemma keeps_resolve_bind {B} (x : string) (k : jsval -> M B) :
  x <> "columns" ->
  (forall v, w0 !! x = Some v -> keeps Inv (k v)) ->
  keeps Inv (resolve_global x ≫= k).
Proof.
  intros Hx Hk p Hp. unfold resolve_global. step_M.
  rewrite (inv_window _ _ Hp x Hx).
  destruct (w0 !! x) as [v|] eqn:Hv; [|exact Hp].
  apply Hk; [reflexivity|exact Hp].
Qed.

(** With a global [parametricjob] the invariant says nothing of the
    grids. *)
Lemma inv_set_log_any (e : effect) (v : jsval) (p : page) :
  w0 !! "parametricjob" = Some v -> Inv p -> Inv (set_log (fun l => l ++ [e]) p).
Proof.
  intros Hv [Ht Hw Ha Hc Hg]. split; cbn; auto. congruence.
Qed.

Lemma keeps_subtable_success (request_id : jsval) (r : response) :
  keeps Inv (subtable_success request_id r).
Proof.
  unfold subtable_success. apply keeps_resolve_bind; [discriminate|].
  intros v Hv. repeat keeps_step.
  - apply keeps_set_global_columns.
  - apply keeps_modify. intros p. apply (inv_set_log_any _ v), Hv.
Qed.

Lemma keeps_run_handlers (h : handlers) (o : outcome) : keeps Inv (run_handlers h o).
Proof.
  destruct h, o; cbn [run_handlers]; unfold warn_error; repeat keeps_step.
  - apply keeps_table_success.
  - apply keeps_subtable_success.
  - destruct (code =? 400)%Z; keeps_step.
  - apply keeps_refresh_subtable.
Qed.

Lemma keeps_call_alert (args : list jsval) :
  keeps Inv (call (VFun Fbootstrap_alert) args).
Proof. cbn [call]. unfold bootstrap_alert. repeat keeps_step. Qed.

Lemma keeps_call_global (v : jsval) (args : list jsval) :
  w0 !! "bootstrap_alert" = Some v -> keeps Inv (call v args).
Proof.
  intros Hv p Hp. rewrite (inv_alert _ _ Hp) in Hv. injection Hv as <-.
  apply keeps_call_alert, Hp.
Qed.

Lemma keeps_run_continuation (k : continuation) : keeps Inv (run_continuation k).
Proof.
  destruct k as [ids|ids|calls]; cbn [run_continuation]; unfold reload, length_of;
    (keeps_step; [keeps_step|]);
    (apply keeps_resolve_bind; [discriminate|]); intros v Hv;
    try destruct ids; repeat keeps_step; apply keeps_call_global, Hv.
Qed.

Lemma keeps_add_join (ajax_calls : list nat) (k : continuation) (st : join_state) :
  keeps Inv (add_join ajax_calls k st).
Proof.
  unfold add_join. keeps_step. keeps_step; [keeps_step|].
  apply keeps_modify. intros q Hq. apply inv_set_xhrs; [|exact Hq].
  apply filter_imap_same. intros r x. destruct (bool_decide _); reflexivity.
Qed.

Lemma keeps_when (ajax_calls : list nat) (k : continuation) :
  keeps Inv (when ajax_calls k).
Proof.
  unfold when. keeps_step.
  destruct (existsb _ _); [apply keeps_add_join|].
  destruct (forallb _ _); [|apply keeps_add_join].
  keeps_step; [apply keeps_add_join|apply keeps_run_continuation].
Qed.

Lemma keeps_notify_join (o : outcome) (j : nat) : keeps Inv (notify_join o j).
Proof.
  unfold notify_join. keeps_step.
  destruct (joins p0 !! j) as [jn|]; [|keeps_step].
  destruct (joined jn); try keeps_step.
  destruct o; [|keeps_step].
  destruct (forallb _ _); repeat keeps_step.
  apply keeps_run_continuation.
Qed.

Lemma keeps_settle (r : nat) (o : outcome) : keeps Inv (settle r o).
Proof.
  intros p Hp. unfold settle. apply keeps_get_bind_at.
  destruct (xhrs p !! r) as [x|] eqn:Hx; [|exact Hp].
  destruct (state x); try exact Hp.
  apply keeps_modify_bind_at.
  - apply inv_set_xhrs; [|exact Hp].
    apply (filter_insert_same _ _ _ x); [exact Hx|reflexivity].
  - keeps_step; [apply keeps_run_handlers|].
    keeps_step. apply keeps_notify_join.
Qed.

(** The timer holds [undefined]: when it fires nothing is called. *)
Lemma keeps_fire (t : nat) : keeps Inv (fire t).
Proof.
  unfold fire. keeps_step. rewrite (inv_timers _ _ Hp0).
  destruct t as [|[|t]]; cbn; keeps_step.
Qed.

Lemma keeps_hide_menu : keeps Inv hide_menu.
Proof. unfold hide_menu. keeps_step. Qed.

Lemma keeps_click (h : M bool) : keeps Inv h -> keeps Inv (click h).
Proof.
  intros Hh. unfold click.
  apply keeps_bind; [exact Hh|intros [|]]; [apply keeps_hide_menu|keeps_step].
Qed.

Lemma keeps_on_row_click (c s : bool) (i : nat) : keeps Inv (on_row_click c s i).
Proof.
  unfold on_row_click. keeps_step. destruct (bool_decide _); [|keeps_step].
  destruct (row_click _ _ _ _ _). repeat keeps_step.
Qed.

Lemma keeps_on_contextmenu (i : nat) : keeps Inv (on_contextmenu i).
Proof.
  unfold on_contextmenu. keeps_step.
  destruct (table_rows p0 !! i) as [r|]; [|keeps_step].
  keeps_step; [destruct (selected r); keeps_step|]. repeat keeps_step.
Qed.

Lemma keeps_on_context_approve (d : bool) : keeps Inv (on_context_approve d).
Proof.
  unfold on_context_approve. destruct d; [keeps_step|]. repeat keeps_step.
  - apply keeps_ajax. discriminate.
  - apply keeps_when.
Qed.

Lemma keeps_on_context_delete (d : bool) : keeps Inv (on_context_delete d).
Proof.
  unfold on_context_delete. destruct d; [keeps_step|]. repeat keeps_step.
  - apply keeps_ajax. discriminate.
  - apply keeps_when.
Qed.

Lemma keeps_on_keypress (k : Z) : keeps Inv (on_keypress k).
Proof.
  unfold on_keypress. destruct (k =? 46)%Z; [|keeps_step]. keeps_step.
  destruct (bool_decide _); repeat keeps_step.
Qed.

Lemma keeps_on_answer (d : nat) (b : bool) : keeps Inv (on_answer d b).
Proof.
  unfold on_answer. keeps_step. destruct (dialogs p0 !! d) as [dlg|]; [|keeps_step].
  destruct (answered dlg); [keeps_step|]. keeps_step; [keeps_step|].
  destruct b; cbn [negb]; repeat keeps_step.
  - apply keeps_ajax. discriminate.
  - apply keeps_when.
Qed.

Lemma keeps_on_details_click (i : nat) : keeps Inv (on_details_click i).
Proof.
  unfold on_details_click. keeps_step. destruct (table_rows p0 !! i) as [r|]; [|keeps_step].
  destruct (child_shown r); repeat keeps_step. apply keeps_refresh_subtable.
Qed.

Lemma keeps_handler (e : event) : keeps Inv (handler e).
Proof.
  destruct e as [t|r o|i c s|i c s|m rq|i|i| |dis|dis|dis|dis|dis|kc|d b]; cbn [handler].
  - apply keeps_fire.
  - apply keeps_settle.
  - keeps_step; [apply keeps_on_row_click|apply keeps_hide_menu].
  - keeps_step; [apply keeps_on_row_click|apply keeps_click, keeps_on_details_click].
  - apply keeps_click. unfold on_reschedule_click. repeat keeps_step.
    apply keeps_ajax. discriminate.
  - unfold on_dblclick. keeps_step. destruct (table_rows p0 !! i); keeps_step.
  - apply keeps_on_contextmenu.
  - apply keeps_hide_menu.
  - apply keeps_click. unfold on_context_info. destruct dis; repeat keeps_step.
  - apply keeps_click. unfold on_context_edit. destruct dis; repeat keeps_step.
  - apply keeps_click. unfold on_context_copy. destruct dis; repeat keeps_step.
  - apply keeps_click, keeps_on_context_approve.
  - apply keeps_click, keeps_on_context_delete.
  - apply keeps_on_keypress.
  - apply keeps_on_answer.
Qed.

Lemma invariant_handle (e : event) (p : page) : Inv p -> Inv (handle e p).
Proof.
  apply keeps_exec; [apply keeps_handler|].
  intros x q. apply inv_set_log. exact I.
Qed.

Lemma invariant_run (evs : list event) (p : page) : Inv p -> Inv (run evs p).
Proof.
  revert p. induction evs as [|e evs IH]; intros p Hp; cbn; [exact Hp|].
  apply IH, invariant_handle, Hp.
Qed.
End Invariant.

(** The page at start-up: the request of [refresh_table] is out, the timer
    holds [undefined], and [bootstrap_alert] is a global. *)
Lemma startup_page (globals : gmap string jsval) :
  startup globals
  = {| window := <["bootstrap_alert" := VFun Fbootstrap_alert]> globals;
       table_rows := []; last_selected := 0; menu_ids := None; menu_shown := false;
       xhrs := [{| settings := {| url := "/requests"; type := GET; data := [];
                                  callbacks := TableHandlers |};
                   state := Pending; subscribers := [] |}];
       joins := []; timers := [(VUndefined, 300000%Z)]; dialogs := []; log := [] |}.
Proof. reflexivity. Qed.

Lemma invariant_startup (globals : gmap string jsval) :
  invariant (<["bootstrap_alert" := VFun Fbootstrap_alert]> globals) (startup globals).
Proof.
  rewrite startup_page. split; cbn; auto.
  apply lookup_insert_eq.
Qed.

Lemma invariant_reachable (globals : gmap string jsval) (evs : list event) :
  invariant (<["bootstrap_alert" := VFun Fbootstrap_alert]> globals)
    (run evs (startup globals)).
Proof. apply invariant_run, invariant_startup. Qed.

(** ** The periodic refresh *)

(** A timer that holds [undefined] fires without effect. *)
Lemma tick_undefined (t : nat) (p : page) :
  timers p = [(VUndefined, 300000%Z)] -> handle (Tick t) p = p.
Proof.
  intros Ht. step_M. unfold handler, fire. step_M. rewrite Ht.
  destruct t as [|[|t]]; reflexivity.
Qed.

(** Had the function itself been handed to [setInterval], each tick would
    call it. *)
Example tick_function :
  refresh_table_calls
    (run [Tick 0; Tick 0]
       (set_timers (fun _ => [(VFun Frefresh_table, 300000%Z)]) (startup ∅))) = 3.
Proof. reflexivity. Qed.

(** C3: [refresh_table] is called once, at start-up; what [setInterval]
    receives is the value of that call, [undefined], so that a tick of the
    timer changes nothing, and whatever events follow, the number of calls
    stays one. *)
Theorem refresh_table_once (globals : gmap string jsval) (evs : list event) (t : nat) :
  refresh_table_calls (startup globals) = 1
  /\ map (fun x => (url (settings x), type (settings x))) (xhrs (startup globals))
     = [("/requests", GET)]
  /\ timers (startup globals) = [(VUndefined, 300000%Z)]
  /\ handle (Tick t) (run evs (startup globals)) = run evs (startup globals)
  /\ refresh_table_calls (run evs (startup globals)) = 1.
Proof.
  pose proof (invariant_reachable globals evs) as Hinv.
  repeat split; try reflexivity.
  - apply tick_undefined, (inv_timers _ _ Hinv).
  - apply (inv_calls _ _ Hinv).
Qed.

(** ** The sub-table refresher *)

(** [parametricjob] is the parameter of [formatprogress] and of nothing
    around the success callback. *)
Example parametricjob_is_free : "parametricjob" ∉ subtable_success_scope.
Proof. apply (bool_decide_unpack _). vm_compute. exact I. Qed.

(** With a global [parametricjob] left by some other script the callback
    goes through and initialises the grid. *)
Example subtable_success_with_global :
  last (log (handle (AjaxDone 1 (Success (job_response [failed_row])))
               (expanded {["parametricjob" := VObj [("id", VNum 9)]]})))
  = Some (DataTable "#subtable-11" (JobRows [failed_row]) (VArr []) []).
Proof. vm_compute. reflexivity. Qed.

(** C2 fails on the code: in every page the script reaches, unless another
    script has defined a global [parametricjob], the success callback of
    [refresh_subtable] throws a [ReferenceError] at its first statement
    (line 76) and never reaches the [DataTable] call; the response is
    dropped, and no sub-table grid has been or is initialised. *)
Theorem subtable_success_throws (p : page) (r : nat) (x : xhr) (request_id : jsval)
    (resp : response) :
  reachable p -> window p !! "parametricjob" = None ->
  xhrs p !! r = Some x -> state x = Pending ->
  callbacks (settings x) = SubtableHandlers request_id ->
  let p' := handle (AjaxDone r (Success resp)) p in
  subtable_success request_id resp p = (Throw (ReferenceError "parametricjob"), p)
  /\ log p' = log p ++ [Uncaught (ReferenceError "parametricjob")]
  /\ Forall no_subtable (log p').
Proof.
  intros (globals & evs & ->) Hw Hx Hst Hcb p'.
  pose proof (invariant_reachable globals evs) as Hinv.
  split; [|split].
  - unfold subtable_success, resolve_global. step_M.
    rewrite Hw. reflexivity.
  - subst p'. step_M. unfold handler, settle. step_M. rewrite Hx, Hst. step_M.
    rewrite Hcb. cbn [run_handlers]. unfold subtable_success, resolve_global. step_M.
    cbn [window set_xhrs]. rewrite Hw. reflexivity.
  - apply (inv_grids _ _ (invariant_handle _ _ _ Hinv)).
    rewrite <- (inv_window _ _ Hinv) by discriminate. exact Hw.
Qed.

Lemma reachable_expanded : reachable (expanded ∅).
Proof.
  exists ∅, [AjaxDone 0 (Success (table_response [11%Z])); ClickDetails 0 false false].
  reflexivity.
Defined.

Lemma subtable_success_throws_witness :
  log (handle (AjaxDone 1 (Success (job_response [failed_row]))) (expanded ∅))
  = log (expanded ∅) ++ [Uncaught (ReferenceError "parametricjob")].
Proof.
  assert (Hw : window (expanded ∅) !! "parametricjob" = None)
    by (vm_compute; reflexivity).
  assert (Hx : xhrs (expanded ∅) !! 1
               = Some {| settings := {| url := "/requests/11/parametricjobs"; type := GET;
                                        data := [];
                                        callbacks := SubtableHandlers (VNum 11) |};
                         state := Pending; subscribers := [] |})
    by (vm_compute; reflexivity).
  destruct (subtable_success_throws (expanded ∅) 1 _ (VNum 11) (job_response [failed_row])
              reachable_expanded Hw Hx eq_refl eq_refl) as (_ & Hlog & _).
  exact Hlog.
Defined.

(** ** Batches of requests *)

Lemma set_log_ext (f g : list effect -> list effect) (p : page) :
  f (log p) = g (log p) -> set_log f p = set_log g p.
Proof. intros Hfg. unfold set_log. rewrite Hfg. reflexivity. Qed.

Lemma set_xhrs_ext (f g : list xhr -> list xhr) (p : page) :
  f (xhrs p) = g (xhrs p) -> set_xhrs f p = set_xhrs g p.
Proof. intros Hfg. unfold set_xhrs. rewrite Hfg. reflexivity. Qed.

Lemma set_log_twice (f g : list effect -> list effect) (p : page) :
  set_log f (set_log g p) = set_log (fun l => f (g l)) p.
Proof. reflexivity. Qed.

(** The [done] callback of a batch runs to its end. *)
Lemma run_continuation_ok (k : continuation) (p : page) :
  closed_over_ids k ->
  window p !! "bootstrap_alert" = Some (VFun Fbootstrap_alert) ->
  run_continuation k p = (Ok tt, set_log (fun l => l ++ continuation_effects k) p).
Proof.
  intros Hk Hw.
  assert (Hids : forall ids : option (list Z), is_Some ids -> ids = Some (default [] ids))
    by (intros ids [l ->]; reflexivity).
  destruct k as [ids|ids|calls]; cbn in Hk; try rewrite (Hids ids Hk);
    cbn [run_continuation]; unfold reload, resolve_global, length_of; step_M;
    cbn [window set_log]; rewrite Hw; cbn [call]; unfold bootstrap_alert; step_M;
    f_equal; rewrite set_log_twice; apply set_log_ext; cbn; rewrite <- app_assoc;
    reflexivity.
Qed.

Section XhrStates.
Implicit Types (xs : list xhr) (r : nat) (s : xhr_state) (x : xhr).

Lemma xhr_is_true s xs r :
  xhr_is s xs r = true <-> exists x, xs !! r = Some x /\ state x = s.
Proof.
  unfold xhr_is. destruct (xs !! r) as [x|]; [|split; [discriminate|intros (x & Hx & _); discriminate]].
  split.
  - intros Hs. exists x. split; [reflexivity|]. destruct (state x), s; congruence.
  - intros (x' & [= <-] & <-). destruct (state x); reflexivity.
Qed.

Lemma xhr_is_insert xs r r' x s s' :
  xs !! r = Some x ->
  xhr_is s (<[r := with_state s' x]> xs) r'
  = if decide (r' = r) then bool_decide (s = s') else xhr_is s xs r'.
Proof.
  intros Hx. unfold xhr_is. destruct (decide (r' = r)) as [->|Hne].
  - rewrite list_lookup_insert_eq by (eapply lookup_lt_Some; eassumption). cbn.
    destruct s, s'; reflexivity.
  - rewrite list_lookup_insert_ne by congruence. reflexivity.
Qed.

Lemma xhr_is_unique s s' xs r :
  xhr_is s xs r = true -> xhr_is s' xs r = true -> s = s'.
Proof.
  intros (x & Hx & <-)%xhr_is_true (x' & Hx' & <-)%xhr_is_true. congruence.
Qed.
End XhrStates.

(** A pending request of a batch completes: the aggregate is rejected by a
    failure, resolved by the last success, and left alone otherwise. *)
Lemma settle_member (p : page) (r j : nat) (x : xhr) (jn : join) (o : outcome) :
  xhrs p !! r = Some x -> state x = Pending ->
  callbacks (settings x) = NoHandlers -> subscribers x = [j] ->
  joins p !! j = Some jn ->
  window p !! "bootstrap_alert" = Some (VFun Fbootstrap_alert) ->
  closed_over_ids (done_callback jn) ->
  let p1 := set_xhrs (<[r := with_state (outcome_state o) x]>) p in
  handle (AjaxDone r o) p
  = match joined jn, o with
    | Waiting, Failure _ _ _ _ => set_joins (<[j := with_joined Rejected jn]>) p1
    | Waiting, Success _ =>
        if forallb (xhr_is Succeeded (xhrs p1)) (members jn)
        then set_log (fun l => l ++ continuation_effects (done_callback jn))
               (set_joins (<[j := with_joined Resolved jn]>) p1)
        else p1
    | _, _ => p1
    end.
Proof.
  intros Hx Hst Hcb Hsub Hj Hw Hk p1.
  unfold handle, handler, settle, exec. step_M. rewrite Hx, Hst. step_M.
  rewrite Hcb, Hsub. cbn [run_handlers for_each]. unfold notify_join. step_M.
  cbn [joins set_xhrs]. rewrite Hj.
  destruct (joined jn); [|reflexivity..].
  destruct o as [resp|code st er rq]; [|reflexivity].
  fold p1. change (xhrs p1) with (<[r := with_state Succeeded x]> (xhrs p)).
  destruct (forallb _ (members jn)); [|reflexivity].
  step_M. rewrite run_continuation_ok; [reflexivity|exact Hk|exact Hw].
Qed.

(** A request of a batch that has settled already is not settled again. *)
Lemma settle_settled (p : page) (r : nat) (x : xhr) (o : outcome) :
  xhrs p !! r = Some x -> state x <> Pending -> handle (AjaxDone r o) p = p.
Proof.
  intros Hx Hst. unfold handle, handler, settle, exec. step_M. rewrite Hx.
  destruct (state x); [contradiction|reflexivity..].
Qed.

Lemma settings_insert (xs : list xhr) (r : nat) (x : xhr) (s' : xhr_state) :
  xs !! r = Some x -> map settings (<[r := with_state s' x]> xs) = map settings xs.
Proof.
  revert r. induction xs as [|y ys IH]; intros [|i] Hi; try discriminate; cbn in *.
  - injection Hi as ->. reflexivity.
  - f_equal. apply IH, Hi.
Qed.

Section MemberSettles.
Context (xs : list xhr) (r : nat) (x : xhr) (s' : xhr_state) (ms : list nat).
Hypothesis Hx : xs !! r = Some x.
Hypothesis Hst : state x = Pending.
Hypothesis Hr : r ∈ ms.

Let xs' := <[r := with_state s' x]> xs.

Lemma pending_not_all_succeeded : forallb (xhr_is Succeeded xs) ms = false.
Proof.
  apply not_true_is_false. intros Hall.
  rewrite forallb_forall in Hall. specialize (Hall r).
  rewrite <- list_elem_of_In in Hall. specialize (Hall Hr).
  apply xhr_is_true in Hall as (x' & Hx' & Hs). congruence.
Qed.

Lemma failed_stays_failed :
  existsb (xhr_is Failed xs) ms = true -> existsb (xhr_is Failed xs') ms = true.
Proof.
  rewrite !existsb_exists. intros (r' & Hin & Hf). exists r'. split; [exact Hin|].
  unfold xs'. rewrite (xhr_is_insert _ _ _ _ _ _ Hx).
  destruct (decide (r' = r)) as [->|_]; [|exact Hf].
  apply xhr_is_true in Hf as (x' & Hx' & Hs). congruence.
Qed.

Lemma failed_not_all_succeeded (ys : list xhr) :
  existsb (xhr_is Failed ys) ms = true -> forallb (xhr_is Succeeded ys) ms = false.
Proof.
  rewrite existsb_exists. intros (r' & Hin & Hf).
  apply not_true_is_false. intros Hall. rewrite forallb_forall in Hall.
  specialize (Hall r' Hin). pose proof (xhr_is_unique _ _ _ _ Hf Hall). discriminate.
Qed.

Lemma failure_fails : s' = Failed -> existsb (xhr_is Failed xs') ms = true.
Proof.
  intros ->. rewrite existsb_exists. exists r. split; [apply list_elem_of_In, Hr|].
  unfold xs'. rewrite (xhr_is_insert _ _ _ _ _ _ Hx).
  rewrite decide_True by reflexivity. reflexivity.
Qed.

Lemma success_keeps_unfailed :
  s' = Succeeded -> existsb (xhr_is Failed xs) ms = false ->
  existsb (xhr_is Failed xs') ms = false.
Proof.
  intros -> Hnone. apply not_true_is_false. intros Hsome.
  rewrite existsb_exists in Hsome. destruct Hsome as (r' & Hin & Hf).
  unfold xs' in Hf. rewrite (xhr_is_insert _ _ _ _ _ _ Hx) in Hf.
  destruct (decide (r' = r)) as [->|_]; [discriminate|].
  apply not_true_iff_false in Hnone. apply Hnone.
  rewrite existsb_exists. exists r'. split; assumption.
Qed.

Lemma member_unchanged (r' j : nat) :
  (exists y, xs !! r' = Some y /\ callbacks (settings y) = NoHandlers
             /\ subscribers y = [j]) ->
  exists y, xs' !! r' = Some y /\ callbacks (settings y) = NoHandlers
            /\ subscribers y = [j].
Proof.
  intros (y & Hy & Hc & Hs). unfold xs'. destruct (decide (r' = r)) as [->|Hne].
  - rewrite list_lookup_insert_eq by (eapply lookup_lt_Some; eassumption).
    exists (with_state s' x). split; [reflexivity|]. cbn. split; congruence.
  - rewrite list_lookup_insert_ne by congruence. exists y. auto.
Qed.
End MemberSettles.

(** The state of a batch is kept as its requests complete, in any order and
    with any outcome. *)
Lemma batch_step (j : nat) (ms : list nat) (k : continuation) (L : list effect)
    (S : list ajax_settings) (p : page) (e : event) :
  closed_over_ids k -> batch j ms k L S p -> completes ms e = true ->
  batch j ms k L S (handle e p).
Proof.
  intros Hk Hb He. destruct e as [|r o| | | | | | | | | | | | |]; try discriminate.
  apply bool_decide_eq_true in He.
  destruct (batch_xhrs _ _ _ _ _ _ Hb r He) as (x & Hx & Hcb & Hsub).
  destruct (decide (state x = Pending)) as [Hst|Hst];
    [|rewrite (settle_settled p r x o Hx Hst); exact Hb].
  pose proof (batch_join _ _ _ _ _ _ Hb) as Hj.
  pose proof (pending_not_all_succeeded _ _ _ _ Hx Hst He) as Hnot.
  rewrite (settle_member p r j x _ o Hx Hst Hcb Hsub Hj (batch_alert _ _ _ _ _ _ Hb) Hk).
  cbn [joined members done_callback]. unfold some_failed, all_succeeded in *.
  assert (Hlt : j < length (joins p)) by (eapply lookup_lt_Some; eassumption).
  assert (Hmem : forall r', r' ∈ ms ->
            exists y, <[r := with_state (outcome_state o) x]> (xhrs p) !! r' = Some y
                      /\ callbacks (settings y) = NoHandlers /\ subscribers y = [j]).
  { intros r' Hr'. eapply member_unchanged; [exact Hx|].
    apply (batch_xhrs _ _ _ _ _ _ Hb), Hr'. }
  assert (Hset : map settings (<[r := with_state (outcome_state o) x]> (xhrs p)) = S).
  { rewrite settings_insert by exact Hx. apply (batch_requests _ _ _ _ _ _ Hb). }
  pose proof (batch_alert _ _ _ _ _ _ Hb) as Halert.
  pose proof (batch_log _ _ _ _ _ _ Hb) as Hlog. unfold all_succeeded in Hlog.
  rewrite Hnot in Hlog, Hj |- *.
  destruct (existsb (xhr_is Failed (xhrs p)) ms) eqn:Hfailed.
  - (* rejected before *)
    pose proof (failed_stays_failed _ _ _ (outcome_state o) _ Hx Hst Hfailed) as Hf'.
    pose proof (failed_not_all_succeeded _ _ Hf') as Hn'.
    split; unfold some_failed, all_succeeded; cbn [xhrs joins window log set_xhrs];
      try rewrite Hf'; try rewrite Hn'; auto.
  - destruct o as [resp|code st er rq]; cbn [outcome_state] in *.
    + pose proof (success_keeps_unfailed _ _ _ Succeeded ms Hx eq_refl Hfailed) as Hf'.
      cbn [xhrs set_xhrs].
      destruct (forallb (xhr_is Succeeded (<[r := with_state Succeeded x]> (xhrs p))) ms)
        eqn:Hall.
      * split; unfold some_failed, all_succeeded;
          cbn [xhrs joins window log set_xhrs set_joins set_log];
          try rewrite Hf'; try rewrite Hall; auto.
        -- rewrite list_lookup_insert_eq by exact Hlt. reflexivity.
        -- rewrite Hlog, app_nil_r. reflexivity.
      * split; unfold some_failed, all_succeeded; cbn [xhrs joins window log set_xhrs];
          try rewrite Hf'; try rewrite Hall; auto.
    + pose proof (failure_fails _ _ _ Failed ms Hx He eq_refl) as Hf'.
      pose proof (failed_not_all_succeeded _ _ Hf') as Hn'.
      split; unfold some_failed, all_succeeded;
        cbn [xhrs joins window log set_xhrs set_joins];
        try rewrite Hf'; try rewrite Hn'; auto.
      rewrite list_lookup_insert_eq by exact Hlt. reflexivity.
Qed.

Lemma batch_run (j : nat) (ms : list nat) (k : continuation) (L : list effect)
    (S : list ajax_settings) (evs : list event) (p : page) :
  closed_over_ids k -> batch j ms k L S p ->
  forallb (completes ms) evs = true ->
  batch j ms k L S (run evs p).
Proof.
  intros Hk. revert p. induction evs as [|e evs IH]; intros p Hb Hevs; cbn in *.
  - exact Hb.
  - apply andb_true_iff in Hevs as [He Hevs].
    apply IH; [|exact Hevs]. apply batch_step; assumption.
Qed.

(** *** Sending a batch *)

Lemma set_xhrs_twice (f g : list xhr -> list xhr) (p : page) :
  set_xhrs f (set_xhrs g p) = set_xhrs (fun l => f (g l)) p.
Proof. reflexivity. Qed.

Lemma set_xhrs_id (p : page) : set_xhrs (fun l => l) p = p.
Proof. destruct p; reflexivity. Qed.

Lemma bind_at {A B} (c : M A) (k : A -> M B) (p : page) :
  (c ≫= k) p
  = match c p with
    | (Ok a, p') => k a p'
    | (Throw e, p') => (Throw e, p')
    end.
Proof. reflexivity. Qed.

Lemma ajax_at (s : ajax_settings) (p : page) :
  ajax s p
  = (Ok (length (xhrs p)),
     set_xhrs (fun l => l ++ [{| settings := s; state := Pending; subscribers := [] |}]) p).
Proof. reflexivity. Qed.

(** One request per id, in the order of the ids. *)
Lemma map_m_ajax (f : Z -> ajax_settings) (ids : list Z) (p : page) :
  map_m (fun id => ajax (f id)) ids p
  = (Ok (batch_calls p (length ids)),
     set_xhrs (fun l => l ++ map (fun id => {| settings := f id; state := Pending;
                                               subscribers := [] |}) ids) p).
Proof.
  unfold batch_calls. revert p. induction ids as [|id ids IH]; intros p.
  - cbn. f_equal. rewrite <- (set_xhrs_id p) at 1. apply set_xhrs_ext.
    symmetry. apply app_nil_r.
  - cbn [map_m]. rewrite bind_at, ajax_at, bind_at, IH. unfold ret.
    cbn [xhrs set_xhrs length map seq]. rewrite length_app. cbn [length].
    replace (length (xhrs p) + 1) with (S (length (xhrs p))) by lia.
    f_equal. rewrite set_xhrs_twice. apply set_xhrs_ext.
    rewrite <- app_assoc. reflexivity.
Qed.

Section Sending.
Context (f : Z -> ajax_settings) (ids : list Z) (p : page).
Hypothesis Hids : ids <> [].

(** The requests of the batch, whatever is attached to them. *)
Let news (subs : list nat) : list xhr :=
  map (fun id => {| settings := f id; state := Pending; subscribers := subs |}) ids.

Lemma sent_lookup (subs : list nat) (r : nat) :
  r ∈ batch_calls p (length ids) ->
  exists id, ids !! (r - length (xhrs p)) = Some id
             /\ (xhrs p ++ news subs) !! r
                = Some {| settings := f id; state := Pending; subscribers := subs |}.
Proof.
  unfold batch_calls. rewrite elem_of_seq. intros [Hlo Hhi].
  destruct (lookup_lt_is_Some_2 ids (r - length (xhrs p))) as [id Hid]; [lia|].
  exists id. split; [exact Hid|]. rewrite lookup_app_r by lia. unfold news.
  rewrite list_lookup_fmap, Hid. reflexivity.
Qed.

Lemma sent_pending (subs : list nat) (r : nat) :
  r ∈ batch_calls p (length ids) -> xhr_is Pending (xhrs p ++ news subs) r = true.
Proof.
  intros (id & _ & Hx)%(sent_lookup subs). apply xhr_is_true. eauto.
Qed.

Lemma sent_none_failed (subs : list nat) :
  existsb (xhr_is Failed (xhrs p ++ news subs)) (batch_calls p (length ids)) = false.
Proof.
  apply not_true_is_false. rewrite existsb_exists. intros (r & Hr & Hf).
  apply list_elem_of_In, (sent_pending subs) in Hr.
  pose proof (xhr_is_unique _ _ _ _ Hr Hf). discriminate.
Qed.

Lemma sent_not_all_succeeded (subs : list nat) :
  forallb (xhr_is Succeeded (xhrs p ++ news subs)) (batch_calls p (length ids)) = false.
Proof.
  apply not_true_is_false. rewrite forallb_forall. intros Hall.
  assert (Hr : length (xhrs p) ∈ batch_calls p (length ids)).
  { unfold batch_calls. apply elem_of_seq. destruct ids; [contradiction|cbn; lia]. }
  specialize (Hall _ (proj1 (list_elem_of_In _ _) Hr)). apply (sent_pending subs) in Hr.
  pose proof (xhr_is_unique _ _ _ _ Hr Hall). discriminate.
Qed.

(** The aggregate is attached to the requests of the batch and to no
    other. *)
Lemma subscribe_batch (j : nat) :
  imap (fun r x => if bool_decide (r ∈ batch_calls p (length ids))
                   then subscribe j x else x) (xhrs p ++ news [])
  = xhrs p ++ news [j].
Proof.
  apply list_eq. intros i. rewrite list_lookup_imap.
  destruct (decide (i < length (xhrs p))) as [Hi|Hi].
  - rewrite !lookup_app_l by exact Hi.
    rewrite bool_decide_eq_false_2.
    + destruct (xhrs p !! i); reflexivity.
    + unfold batch_calls. rewrite elem_of_seq. lia.
  - rewrite !lookup_app_r by lia. unfold news.
    rewrite !list_lookup_fmap.
    destruct (ids !! (i - length (xhrs p))) as [id|] eqn:Hid; [|reflexivity].
    cbn. rewrite bool_decide_eq_true_2; [reflexivity|].
    unfold batch_calls. apply elem_of_seq. apply lookup_lt_Some in Hid. lia.
Qed.

(** [$.when] on a batch just sent: the aggregate waits; nothing is
    reloaded or announced yet. *)
Lemma when_sent (k : continuation) :
  when (batch_calls p (length ids)) k (set_xhrs (fun l => l ++ news []) p)
  = (Ok tt, with_batch f k ids p).
Proof.
  unfold when, add_join. step_M.
  cbn [xhrs set_xhrs joins set_joins].
  rewrite sent_none_failed, sent_not_all_succeeded.
  unfold with_batch. f_equal. unfold set_joins, set_xhrs; cbn.
  f_equal. apply subscribe_batch.
Qed.

(** The page after the batch is a batch in flight. *)
Lemma batch_sent (k : continuation) :
  (forall id, callbacks (f id) = NoHandlers) ->
  window p !! "bootstrap_alert" = Some (VFun Fbootstrap_alert) ->
  batch (length (joins p)) (batch_calls p (length ids)) k (log p)
    (map settings (xhrs p) ++ map f ids) (with_batch f k ids p).
Proof.
  intros Hf Hw. unfold with_batch.
  split; unfold some_failed, all_succeeded;
    cbn [xhrs joins window log set_xhrs set_joins];
    change (map (fun id => batch_member (length (joins p)) (f id)) ids)
      with (news [length (joins p)]).
  - rewrite sent_none_failed, sent_not_all_succeeded.
    rewrite lookup_app_r by lia. rewrite Nat.sub_diag. reflexivity.
  - intros r (id & _ & Hx)%(sent_lookup [length (joins p)]).
    eexists. split; [exact Hx|]. split; [apply Hf|reflexivity].
  - exact Hw.
  - rewrite map_app. f_equal. unfold news. rewrite map_map. reflexivity.
  - rewrite sent_not_all_succeeded, app_nil_r. reflexivity.
Qed.
End Sending.

(** *** The batch actions as events *)

Lemma reachable_alert (p : page) :
  reachable p -> window p !! "bootstrap_alert" = Some (VFun Fbootstrap_alert).
Proof.
  intros (globals & evs & ->).
  rewrite (inv_window _ _ (invariant_reachable globals evs)) by discriminate.
  apply lookup_insert_eq.
Qed.


Lemma run_app (evs1 evs2 : list event) (p : page) :
  run (evs1 ++ evs2) p = run evs2 (run evs1 p).
Proof. unfold run. apply fold_left_app. Qed.

Lemma reachable_run (evs : list event) (p : page) : reachable p -> reachable (run evs p).
Proof.
  intros (globals & evs0 & ->). exists globals, (evs0 ++ evs). symmetry. apply run_app.
Qed.

(** A click on a disabled entry returns [false]: nothing is sent and the
    menu stays. *)
Lemma handle_disabled (p : page) :
  handle (ClickApprove true) p = p /\ handle (ClickDelete true) p = p.
Proof. split; reflexivity. Qed.

Lemma handle_action (a : action) (p : page) (ids : list Z) :
  menu_ids p = Some ids -> ids <> [] ->
  handle (action_click a) p
  = set_menu_shown false (with_batch (action_request a) (action_done a ids) ids p).
Proof.
  intros Hm Hids.
  destruct a; cbn [action_click action_request action_done];
    unfold handle, exec, handler, click, on_context_approve, on_context_delete;
    rewrite !bind_at; unfold get at 1; cbn iota beta; rewrite Hm; cbn [default];
    rewrite bind_at, map_m_ajax, bind_at, (when_sent _ _ _ Hids); reflexivity.
Qed.

Lemma batch_set_menu_shown (b : bool) (j : nat) (ms : list nat) (k : continuation)
    (L : list effect) (S : list ajax_settings) (p : page) :
  batch j ms k L S p -> batch j ms k L S (set_menu_shown b p).
Proof. intros [Hj Hx Hw Hs Hl]. split; assumption. Qed.

(** After the click the batch is in flight. *)
Lemma batch_action (a : action) (p : page) (ids : list Z) :
  reachable p -> menu_ids p = Some ids -> ids <> [] ->
  batch (length (joins p)) (batch_calls p (length ids)) (action_done a ids) (log p)
    (map settings (xhrs p) ++ map (action_request a) ids)
    (handle (action_click a) p).
Proof.
  intros Hp Hm Hids. rewrite (handle_action a p ids Hm Hids).
  apply batch_set_menu_shown, batch_sent.
  - exact Hids.
  - intros id. destruct a; reflexivity.
  - apply reachable_alert, Hp.
Qed.

Lemma action_done_closed (a : action) (ids : list Z) : closed_over_ids (action_done a ids).
Proof. destruct a; cbn; eauto. Qed.


(** ** Reloads and resolved aggregates *)

Lemma forallb_impl {A} (P Q : A -> bool) (l : list A) :
  (forall a, P a = true -> Q a = true) -> forallb P l = true -> forallb Q l = true.
Proof.
  intros HPQ. rewrite !forallb_forall. intros HP a Ha. apply HPQ, HP, Ha.
Qed.


Section Settled.
Implicit Types (p : page) (n : nat).

Lemma settled_set_log n (e : effect) p :
  is_reload e = false -> reloads_settled n p ->
  reloads_settled n (set_log (fun l => l ++ [e]) p).
Proof.
  intros He [Hm Hr]. split; cbn [joins xhrs log set_log]; [exact Hm|].
  rewrite filter_app_one by exact He. exact Hr.
Qed.

(** A reload pays for one resolved aggregate. *)
Lemma settled_reload n p :
  reloads_settled (S n) p -> reloads_settled n (set_log (fun l => l ++ [Reload]) p).
Proof.
  intros [Hm Hr]. split; cbn [joins xhrs log set_log]; [exact Hm|].
  rewrite List.filter_app, length_app. cbn. lia.
Qed.

Lemma settled_set_xhrs n (f : list xhr -> list xhr) p :
  (forall r, xhr_is Succeeded (xhrs p) r = true -> xhr_is Succeeded (f (xhrs p)) r = true) ->
  reloads_settled n p -> reloads_settled n (set_xhrs f p).
Proof.
  intros Hf [Hm Hr]. split; cbn [joins xhrs log set_xhrs]; [|exact Hr].
  intros j jn Hj Hres. eapply forallb_impl; [exact Hf|]. eapply Hm; eassumption.
Qed.

Lemma settled_set_joins_app n (jn : join) p :
  is_resolved jn = false -> reloads_settled n p ->
  reloads_settled n (set_joins (fun l => l ++ [jn]) p).
Proof.
  intros Hjn [Hm Hr]. split; cbn [joins xhrs log set_joins].
  - intros j jn' Hj Hres. destruct (decide (j < length (joins p))) as [Hlt|Hge].
    + rewrite lookup_app_l in Hj by exact Hlt. eapply Hm; eassumption.
    + rewrite lookup_app_r in Hj by lia.
      destruct (j - length (joins p)) as [|i]; cbn in Hj; [|discriminate].
      injection Hj as <-. unfold is_resolved in Hjn. rewrite Hres in Hjn. discriminate.
  - rewrite filter_app_one by exact Hjn. exact Hr.
Qed.



Lemma settled_set_window n f p : reloads_settled n p -> reloads_settled n (set_window f p).
Proof. intros [Hm Hr]. split; assumption. Qed.

Lemma settled_set_table_rows n f p :
  reloads_settled n p -> reloads_settled n (set_table_rows f p).
Proof. intros [Hm Hr]. split; assumption. Qed.

Lemma settled_set_last_selected n z p :
  reloads_settled n p -> reloads_settled n (set_last_selected z p).
Proof. intros [Hm Hr]. split; assumption. Qed.

Lemma settled_set_menu_ids n ids p :
  reloads_settled n p -> reloads_settled n (set_menu_ids ids p).
Proof. intros [Hm Hr]. split; assumption. Qed.

Lemma settled_set_menu_shown n b p :
  reloads_settled n p -> reloads_settled n (set_menu_shown b p).
Proof. intros [Hm Hr]. split; assumption. Qed.

Lemma settled_set_dialogs n f p :
  reloads_settled n p -> reloads_settled n (set_dialogs f p).
Proof. intros [Hm Hr]. split; assumption. Qed.

Lemma settled_set_timers n f p :
  reloads_settled n p -> reloads_settled n (set_timers f p).
Proof. intros [Hm Hr]. split; assumption. Qed.
End Settled.

Lemma xhr_is_app (s : xhr_state) (xs ys : list xhr) (r : nat) :
  xhr_is s xs r = true -> xhr_is s (xs ++ ys) r = true.
Proof.
  rewrite !xhr_is_true. intros (x & Hx & Hs). exists x. split; [|exact Hs].
  apply lookup_app_l_Some, Hx.
Qed.

Lemma xhr_is_imap (s : xhr_state) (g : nat -> xhr -> xhr) (xs : list xhr) (r : nat) :
  (forall i x, state (g i x) = state x) ->
  xhr_is s (imap g xs) r = xhr_is s xs r.
Proof.
  intros Hg. unfold xhr_is. rewrite list_lookup_imap.
  destruct (xs !! r) as [x|]; cbn; [rewrite Hg|]; reflexivity.
Qed.

Lemma subscribe_state (ms : list nat) (j i : nat) (x : xhr) :
  state (if bool_decide (i ∈ ms) then subscribe j x else x) = state x.
Proof. destruct (bool_decide _); reflexivity. Qed.

Section KeepsSettled.
Abbreviation Settled := (reloads_settled 0).

Create HintDb settled.
Hint Resolve settled_set_window settled_set_table_rows settled_set_last_selected
  settled_set_menu_ids settled_set_menu_shown settled_set_dialogs settled_set_timers
  : settled.

Lemma settled_emit (e : effect) : is_reload e = false -> keeps Settled (emit e).
Proof. intros He. apply keeps_modify. intros p. apply settled_set_log, He. Qed.

Ltac settled_step :=
  lazymatch goal with
  | |- keeps _ (ret _) => apply keeps_ret
  | |- keeps _ (throw _) => apply keeps_throw
  | |- keeps _ (lift _) => apply keeps_lift
  | |- keeps _ (emit _) => apply settled_emit; reflexivity
  | |- keeps _ (modify _) => apply keeps_modify; intros ? ?; solve [eauto with settled]
  | |- keeps _ (for_each _ _) => apply keeps_for_each; intros ?
  | |- keeps _ (map_m _ _) => apply keeps_map_m; intros ?
  | |- keeps _ (get ≫= _) =>
      let p0 := fresh "p0" in let Hp0 := fresh "Hp0" in
      apply keeps_get_bind; intros p0 Hp0
  | |- keeps _ (_ ≫= _) => apply keeps_bind; [|intros ?]
  end.

Lemma settled_ajax (s : ajax_settings) : keeps Settled (ajax s).
Proof.
  unfold ajax. settled_step. settled_step; [|settled_step].
  apply keeps_modify. intros p Hp. apply settled_set_xhrs; [|exact Hp].
  intros r. apply xhr_is_app.
Qed.

Lemma settled_refresh_table : keeps Settled refresh_table.
Proof. unfold refresh_table. settled_step; [apply settled_ajax|settled_step]. Qed.


Lemma settled_resolve_global (x : string) : keeps Settled (resolve_global x).
Proof.
  unfold resolve_global. intros p Hp. apply keeps_get_bind_at.
  destruct (window p !! x); exact Hp.
Qed.



Lemma settled_call (v : jsval) (args : list jsval) : keeps Settled (call v args).
Proof.
  destruct v as [| | | | |[]| |]; cbn [call]; unfold bootstrap_alert; repeat settled_step.
  apply settled_refresh_table.
Qed.

(** The [done] callback reloads the grid first: the reload that was owed. *)
Lemma settled_run_continuation (k : continuation) (p : page) :
  reloads_settled 1 p -> Settled (run_continuation k p).2.
Proof.
  intros Hp.
  destruct k as [ids|ids|calls]; cbn [run_continuation]; unfold reload, emit, length_of;
    (apply keeps_modify_bind_at; [apply settled_reload, Hp|]);
    (settled_step; [apply settled_resolve_global|]);
    try destruct ids; repeat settled_step; apply settled_call.
Qed.

Lemma settled_add_join (ajax_calls : list nat) (k : continuation) (st : join_state) :
  st <> Resolved -> keeps Settled (add_join ajax_calls k st).
Proof.
  intros Hst. unfold add_join. settled_step. settled_step.
  - apply keeps_modify. intros p. apply settled_set_joins_app.
    unfold is_resolved; cbn. destruct st; congruence.
  - apply keeps_modify. intros p Hp. apply settled_set_xhrs; [|exact Hp].
    intros r. rewrite xhr_is_imap; [auto|]. intros i x. apply subscribe_state.
Qed.

Lemma settled_when (ajax_calls : list nat) (k : continuation) :
  keeps Settled (when ajax_calls k).
Proof.
  intros p Hp. unfold when. apply keeps_get_bind_at.
  destruct (existsb _ _); [apply settled_add_join; [discriminate|exact Hp]|].
  destruct (forallb _ _) eqn:Hall; [|apply settled_add_join; [discriminate|exact Hp]].
  rewrite bind_at. unfold add_join. step_M. apply settled_run_continuation.
  destruct Hp as [Hm Hr]. split; cbn [joins xhrs log set_joins set_xhrs].
  - intros j jn Hj Hres.
    eapply forallb_impl;
      [intros r Hs; rewrite xhr_is_imap; [exact Hs|intros i x; apply subscribe_state]|].
    destruct (decide (j < length (joins p))) as [Hlt|Hge].
    + rewrite lookup_app_l in Hj by exact Hlt. eapply Hm; eassumption.
    + rewrite lookup_app_r in Hj by lia.
      destruct (j - length (joins p)) as [|i]; cbn in Hj; [|discriminate].
      injection Hj as <-. exact Hall.
  - rewrite List.filter_app, length_app. cbn. lia.
Qed.





Lemma settled_send (f : Z -> ajax_settings) (ids : list Z) (kf : list nat -> continuation) :
  keeps Settled (map_m (fun id => ajax (f id)) ids ≫= fun calls => when calls (kf calls)).
Proof. repeat settled_step; [apply settled_ajax|apply settled_when]. Qed.



End KeepsSettled.


(** Once a request of the batch has failed, one has failed for good. *)
Lemma some_failed_step (j : nat) (ms : list nat) (k : continuation) (L : list effect)
    (S : list ajax_settings) (p : page) (e : event) :
  closed_over_ids k -> batch j ms k L S p -> completes ms e = true ->
  some_failed ms p = true -> some_failed ms (handle e p) = true.
Proof.
  intros Hk Hb He Hf. destruct e as [|r o| | | | | | | | | | | | |]; try discriminate.
  apply bool_decide_eq_true in He.
  destruct (batch_xhrs _ _ _ _ _ _ Hb r He) as (x & Hx & Hcb & Hsub).
  destruct (decide (state x = Pending)) as [Hst|Hst];
    [|rewrite (settle_settled p r x o Hx Hst); exact Hf].
  rewrite (settle_member p r j x _ o Hx Hst Hcb Hsub (batch_join _ _ _ _ _ _ Hb)
             (batch_alert _ _ _ _ _ _ Hb) Hk).
  cbn [joined]. rewrite Hf. unfold some_failed in *. cbn [xhrs set_xhrs].
  eapply failed_stays_failed; eassumption.
Qed.

Lemma some_failed_run (j : nat) (ms : list nat) (k : continuation) (L : list effect)
    (S : list ajax_settings) (evs : list event) (p : page) :
  closed_over_ids k -> batch j ms k L S p -> forallb (completes ms) evs = true ->
  some_failed ms p = true -> some_failed ms (run evs p) = true.
Proof.
  intros Hk. revert p. induction evs as [|e evs IH]; intros p Hb Hevs Hf; cbn in *.
  - exact Hf.
  - apply andb_true_iff in Hevs as [He Hevs]. apply IH; [|exact Hevs|].
    + apply batch_step; assumption.
    + eapply some_failed_step; eassumption.
Qed.

(** ** The context-menu actions *)


Lemma reachable_menu_page : reachable menu_page.
Proof.
  exists ∅, [AjaxDone 0 (Success (table_response [11; 22; 33; 44; 55]%Z));
             ClickRow 3 false false; ClickRow 1 false true; ContextMenu 2].
  vm_compute. reflexivity.
Defined.


(** A pending request of a batch fails: it is in state [Failed]. *)
Lemma member_fails (j : nat) (ms : list nat) (k : continuation) (L : list effect)
    (S : list ajax_settings) (p : page) (r : nat) (code : Z) (st er rq : string) :
  closed_over_ids k -> batch j ms k L S p -> r ∈ ms ->
  xhr_is Pending (xhrs p) r = true ->
  some_failed ms (handle (AjaxDone r (Failure code st er rq)) p) = true.
Proof.
  intros Hk Hb Hr (x & Hx & Hst)%xhr_is_true.
  destruct (batch_xhrs _ _ _ _ _ _ Hb r Hr) as (x' & Hx' & Hcb & Hsub).
  assert (x' = x) as -> by congruence.
  rewrite (settle_member p r j x _ _ Hx Hst Hcb Hsub (batch_join _ _ _ _ _ _ Hb)
             (batch_alert _ _ _ _ _ _ Hb) Hk).
  cbn [joined outcome_state].
  assert (Hf : existsb (xhr_is Failed (<[r := with_state Failed x]> (xhrs p))) ms = true)
    by (eapply failure_fails; eauto).
  unfold some_failed.
  destruct (existsb (xhr_is Failed (xhrs p)) ms); [exact Hf|].
  destruct (all_succeeded ms p); exact Hf.
Qed.

Lemma failed_batch_log (j : nat) (ms : list nat) (k : continuation) (L : list effect)
    (S : list ajax_settings) (p : page) :
  batch j ms k L S p -> all_succeeded ms p = false -> log p = L.
Proof.
  intros Hb Hn. rewrite (batch_log _ _ _ _ _ _ Hb), Hn. apply app_nil_r.
Qed.

(** C8: while a batch of approve or delete is in flight, the failure of one
    of its requests changes nothing that the user sees: the log is what it
    was before the click, at the failure and whatever the other requests of
    the batch do afterwards; the aggregate is rejected and stays so, and no
    request is sent again.  In general the log of a batch differs from the
    log before the click only when every request of the batch has
    succeeded. *)
Theorem batch_failure (a : action) (p : page) (ids : list Z) (evs1 evs2 evs : list event)
    (r : nat) (code : Z) (st er rq : string) :
  reachable p -> menu_ids p = Some ids -> ids <> [] ->
  let calls := batch_calls p (length ids) in
  r ∈ calls ->
  forallb (completes calls) evs1 = true ->
  forallb (completes calls) evs2 = true ->
  forallb (completes calls) evs = true ->
  let p' := handle (action_click a) p in
  let q1 := run evs1 p' in
  xhr_is Pending (xhrs q1) r = true ->
  let q2 := handle (AjaxDone r (Failure code st er rq)) q1 in
  let q3 := run evs2 q2 in
  log q1 = log p /\ log q2 = log p /\ log q3 = log p
  /\ joins q3 !! length (joins p)
     = Some {| members := calls; done_callback := action_done a ids; joined := Rejected |}
  /\ map settings (xhrs q3) = map settings (xhrs p')
  /\ (all_succeeded calls (run evs p') = false -> log (run evs p') = log p).
Proof.
  intros Hp Hm Hids calls Hr Hevs1 Hevs2 Hevs p' q1 Hpend q2 q3.
  pose proof (action_done_closed a ids) as Hk.
  pose proof (batch_action a p ids Hp Hm Hids) as Hb. fold calls p' in Hb.
  pose proof (batch_run _ _ _ _ _ evs1 _ Hk Hb Hevs1) as Hb1. fold q1 in Hb1.
  assert (He : completes calls (AjaxDone r (Failure code st er rq)) = true)
    by (apply bool_decide_eq_true; exact Hr).
  pose proof (batch_step _ _ _ _ _ _ _ Hk Hb1 He) as Hb2. fold q2 in Hb2.
  pose proof (batch_run _ _ _ _ _ evs2 _ Hk Hb2 Hevs2) as Hb3. fold q3 in Hb3.
  pose proof (member_fails _ _ _ _ _ _ r code st er rq Hk Hb1 Hr Hpend) as Hf2.
  fold q2 in Hf2.
  pose proof (some_failed_run _ _ _ _ _ evs2 _ Hk Hb2 Hevs2 Hf2) as Hf3. fold q3 in Hf3.
  assert (Hn1 : all_succeeded calls q1 = false).
  { apply xhr_is_true in Hpend as (x & Hx & Hst).
    eapply pending_not_all_succeeded; eauto. }
  repeat split.
  - apply (failed_batch_log _ _ _ _ _ _ Hb1 Hn1).
  - apply (failed_batch_log _ _ _ _ _ _ Hb2). apply failed_not_all_succeeded, Hf2.
  - apply (failed_batch_log _ _ _ _ _ _ Hb3). apply failed_not_all_succeeded, Hf3.
  - rewrite (batch_join _ _ _ _ _ _ Hb3), Hf3. reflexivity.
  - rewrite (batch_requests _ _ _ _ _ _ Hb3), (batch_requests _ _ _ _ _ _ Hb). reflexivity.
  - apply failed_batch_log with (j := length (joins p)) (k := action_done a ids)
      (S := map settings (xhrs p) ++ map (action_request a) ids).
    apply batch_run; assumption.
Qed.

Lemma batch_failure_witness :
  log (run [AjaxDone 3 succeeds]
         (handle (AjaxDone 1 fails)
            (run [AjaxDone 2 succeeds] (handle (ClickDelete false) menu_page))))
  = log menu_page.
Proof.
  assert (Hm : menu_ids menu_page = Some [22; 33; 44]%Z) by (vm_compute; reflexivity).
  assert (Hids : [22; 33; 44]%Z <> []) by discriminate.
  assert (Hr : 1 ∈ batch_calls menu_page 3)
    by (apply (bool_decide_unpack _); vm_compute; exact I).
  assert (Hevs1 : forallb (completes (batch_calls menu_page 3)) [AjaxDone 2 succeeds] = true)
    by (vm_compute; reflexivity).
  assert (Hevs2 : forallb (completes (batch_calls menu_page 3)) [AjaxDone 3 succeeds] = true)
    by (vm_compute; reflexivity).
  assert (Hpend : xhr_is Pending
                    (xhrs (run [AjaxDone 2 succeeds] (handle (ClickDelete false) menu_page)))
                    1 = true)
    by (vm_compute; reflexivity).
  destruct (batch_failure Delete menu_page [22; 33; 44]%Z _ _ [] 1 500 "error"
              "Internal Server Error" "{}" reachable_menu_page Hm Hids Hr Hevs1 Hevs2
              eq_refl Hpend) as (_ & _ & Hlog & _).
  exact Hlog.
Defined.

(** ** The Delete key *)







Lemma batch_set_dialogs (f : list dialog -> list dialog) (j : nat) (ms : list nat)
    (k : continuation) (L : list effect) (S : list ajax_settings) (p : page) :
  batch j ms k L S p -> batch j ms k L S (set_dialogs f p).
Proof. intros [Hj Hx Hw Hs Hl]. split; assumption. Qed.




(** * Further properties of the script *)

(** ** Clicks with ctrl and with shift *)

Lemma map_imap_keep {A B} (g : A -> B) (h : nat -> A -> A) (l : list A) :
  (forall i x, g (h i x) = g x) -> map g (imap h l) = map g l.
Proof.
  revert h. induction l as [|y l IH]; intros h Hh; cbn; [reflexivity|].
  rewrite Hh. f_equal. apply (IH (h ∘ S)). intros i x. apply Hh.
Qed.

Lemma In_selection (rows : list tr) (k : nat) :
  In k (selection rows) <-> exists r, rows !! k = Some r /\ selected r = true.
Proof.
  unfold selection. rewrite filter_In, in_seq. split.
  - intros [_ Hs]. destruct (rows !! k) as [r|]; [eauto|discriminate].
  - intros (r & Hr & Hs). rewrite Hr. split; [|exact Hs].
    apply lookup_lt_Some in Hr. lia.
Qed.

(** Membership in the selection, read off the class of the row. *)
Lemma In_selection_class (rows : list tr) (k : nat) (s : bool) :
  selected <$> rows !! k = Some s -> In k (selection rows) <-> s = true.
Proof.
  intros Hs. rewrite In_selection. destruct (rows !! k) as [r|]; [|discriminate].
  cbn in Hs. injection Hs as <-. split; [intros (r' & [= <-] & Hr); exact Hr|eauto].
Qed.

(** A row that is not there is not selected, before or after a click. *)
Lemma In_selection_none (rows rows' : list tr) (k : nat) :
  length rows' = length rows -> rows !! k = None ->
  ~ In k (selection rows) /\ ~ In k (selection rows').
Proof.
  intros Hlen Hr. rewrite !In_selection, Hr.
  assert (Hr' : rows' !! k = None).
  { apply lookup_ge_None. rewrite Hlen. apply lookup_ge_None, Hr. }
  rewrite Hr'. split; intros (r & Hk & _); discriminate.
Qed.

Section RowClick.
Implicit Types (rows : list tr) (k i j : nat).

(** A click changes the class [selected] of rows and nothing else of
    them. *)
Lemma rowid_row_click c s z rows last :
  map rowid (row_click c s z rows last).1 = map rowid rows.
Proof.
  unfold row_click, toggleClass, addClass_slice, removeClass_all. cbn [fst].
  rewrite map_imap_keep by (intros i x; destruct (_ =? _)%Z; reflexivity).
  destruct (negb c && negb s); [rewrite map_map; reflexivity|].
  destruct s; [|reflexivity].
  rewrite map_imap_keep by (intros i x; destruct (in_slice _ _ _ _); reflexivity).
  destruct (_ <? _)%Z; [|reflexivity].
  apply map_imap_keep. intros i x; destruct (in_slice _ _ _ _); reflexivity.
Qed.

Lemma child_shown_row_click c s z rows last :
  map child_shown (row_click c s z rows last).1 = map child_shown rows.
Proof.
  unfold row_click, toggleClass, addClass_slice, removeClass_all. cbn [fst].
  rewrite map_imap_keep by (intros i x; destruct (_ =? _)%Z; reflexivity).
  destruct (negb c && negb s); [rewrite map_map; reflexivity|].
  destruct s; [|reflexivity].
  rewrite map_imap_keep by (intros i x; destruct (in_slice _ _ _ _); reflexivity).
  destruct (_ <? _)%Z; [|reflexivity].
  apply map_imap_keep. intros i x; destruct (in_slice _ _ _ _); reflexivity.
Qed.

Lemma length_row_click c s z rows last :
  length (row_click c s z rows last).1 = length rows.
Proof.
  rewrite <- (length_map rowid), rowid_row_click. apply length_map.
Qed.

(** With ctrl alone the click toggles the row. *)
Lemma row_click_ctrl rows last i k s :
  selected <$> rows !! k = Some s ->
  selected <$> (row_click true false (Z.of_nat i) rows last).1 !! k
  = Some (if decide (k = i) then negb s else s).
Proof.
  intros Hs. unfold row_click. cbn [negb andb fst].
  rewrite (sel_toggleClass _ _ _ _ Hs). f_equal.
  destruct (Z.eqb_spec (Z.of_nat k) (Z.of_nat i)), (decide (k = i)); try reflexivity; lia.
Qed.

Lemma toggleClass_twice z rows : toggleClass z (toggleClass z rows) = rows.
Proof.
  unfold toggleClass. apply list_eq. intros k. rewrite !list_lookup_imap.
  destruct (rows !! k) as [[id s c]|]; cbn; [|reflexivity].
  destruct (Z.of_nat k =? z)%Z eqn:Hk; cbn; rewrite ?Hk; cbn; [|reflexivity].
  rewrite negb_involutive. reflexivity.
Qed.

Ltac decide_indices :=
  repeat match goal with
         | |- context [(?a <? ?b)%Z] => destruct (Z.ltb_spec a b)
         | |- context [(?a <=? ?b)%Z] => destruct (Z.leb_spec a b)
         | |- context [(?a =? ?b)%Z] => destruct (Z.eqb_spec a b)
         end;
  repeat case_bool_decide; repeat case_decide; cbn;
  rewrite ?orb_true_r, ?orb_false_r; try reflexivity; lia.

(** The class of each row after a shift-click on row [j], the click before
    having been on row [l]. *)
Lemma row_click_shift_any rows l j ctrlKey k s :
  j < length rows -> l < length rows ->
  selected <$> rows !! k = Some s ->
  selected <$> (row_click ctrlKey true (Z.of_nat j) rows (Z.of_nat l)).1 !! k
  = Some (if decide (k = j) then negb s
          else s || bool_decide (Nat.min l j < k < Nat.max l j)).
Proof.
  intros Hj Hl Hs. unfold row_click. cbn [fst].
  replace (negb ctrlKey && negb true) with false by (destruct ctrlKey; reflexivity).
  assert (Hk : k < length rows).
  { destruct (rows !! k) eqn:Hr; [|discriminate]. eapply lookup_lt_Some, Hr. }
  destruct (Z.ltb_spec (Z.of_nat j) (Z.of_nat l)) as [Hlt|Hge].
  - erewrite sel_toggleClass;
      [|apply sel_addClass_slice, sel_addClass_slice, Hs].
    f_equal. rewrite length_addClass_slice.
    unfold in_slice.
    rewrite (slice_index_neg _ (Z.of_nat j - _)) by lia.
    rewrite (slice_index_neg _ (Z.of_nat l - _ - 1)) by lia.
    rewrite (slice_index_nonneg _ (Z.of_nat l + 1)) by lia.
    rewrite (slice_index_nonneg _ (Z.of_nat j)) by lia.
    destruct s; decide_indices.
  - erewrite sel_toggleClass; [|apply sel_addClass_slice, Hs].
    f_equal. unfold in_slice.
    rewrite (slice_index_nonneg _ (Z.of_nat l + 1)) by lia.
    rewrite (slice_index_nonneg _ (Z.of_nat j)) by lia.
    destruct s; decide_indices.
Qed.
End RowClick.

(** X1: a click with ctrl (and without shift) on row [i] toggles that row in
    the selection and leaves every other row as it was, selected or not;
    the ids and the child rows are untouched, the row becomes the last one
    clicked, and a second such click on it restores the rows. *)
Theorem ctrl_click_toggles (p : page) (i : nat) :
  i < length (table_rows p) ->
  let p1 := handle (ClickRow i true false) p in
  (forall k, In k (selection (table_rows p1))
             <-> (k = i /\ ~ In k (selection (table_rows p)))
                 \/ (k <> i /\ In k (selection (table_rows p))))
  /\ map rowid (table_rows p1) = map rowid (table_rows p)
  /\ map child_shown (table_rows p1) = map child_shown (table_rows p)
  /\ last_selected p1 = Z.of_nat i
  /\ table_rows (handle (ClickRow i true false) p1) = table_rows p.
Proof.
  intros Hi p1.
  destruct (handle_ClickRow p i true false Hi) as [Hrows Hlast].
  fold p1 in Hrows, Hlast.
  assert (Hlen : length (table_rows p1) = length (table_rows p))
    by (rewrite Hrows; apply length_row_click).
  split; [|split; [|split; [|split]]].
  - intros k. destruct (table_rows p !! k) as [r|] eqn:Hr.
    + assert (Hs : selected <$> table_rows p !! k = Some (selected r))
        by (rewrite Hr; reflexivity).
      rewrite (In_selection_class _ _ _ Hs).
      pose proof (row_click_ctrl (table_rows p) (last_selected p) i k _ Hs) as Hs1.
      rewrite <- Hrows in Hs1. rewrite (In_selection_class _ _ _ Hs1).
      destruct (decide (k = i)), (selected r); cbn; intuition congruence.
    + destruct (In_selection_none _ _ k Hlen Hr) as [Hno Hno1].
      apply lookup_ge_None in Hr. split; [tauto|].
      intros [[-> _]|[_ Hin]]; [lia|tauto].
  - rewrite Hrows. apply rowid_row_click.
  - rewrite Hrows. apply child_shown_row_click.
  - exact Hlast.
  - assert (Hi1 : i < length (table_rows p1)) by (rewrite Hlen; exact Hi).
    destruct (handle_ClickRow p1 i true false Hi1) as [Hrows2 _].
    rewrite Hrows2, Hrows. unfold row_click. cbn [negb andb fst].
    apply toggleClass_twice.
Qed.

Lemma ctrl_click_toggles_witness :
  selection (table_rows (handle (ClickRow 2 true false) selected_page)) = [1; 3]
  /\ table_rows (handle (ClickRow 2 true false) (handle (ClickRow 2 true false) selected_page))
     = table_rows selected_page.
Proof.
  assert (Hi : 2 < length (table_rows selected_page)) by (vm_compute; lia).
  destruct (ctrl_click_toggles selected_page 2 Hi) as (_ & _ & _ & _ & Htwice).
  split; [vm_compute; reflexivity|exact Htwice].
Defined.

(** X2: a click with shift on row [j], the click before having been on row
    [l], toggles row [j], adds the rows strictly between [l] and [j] to the
    selection, and deselects no other row; row [l] itself is not added.  The
    ids are untouched and [j] becomes the last row clicked. *)
Theorem shift_click_extends (p : page) (j l : nat) (ctrlKey : bool) :
  j < length (table_rows p) -> l < length (table_rows p) ->
  last_selected p = Z.of_nat l ->
  let p1 := handle (ClickRow j ctrlKey true) p in
  (forall k, In k (selection (table_rows p1))
             <-> (k = j /\ ~ In k (selection (table_rows p)))
                 \/ (k <> j /\ (In k (selection (table_rows p))
                                \/ Nat.min l j < k < Nat.max l j)))
  /\ map rowid (table_rows p1) = map rowid (table_rows p)
  /\ last_selected p1 = Z.of_nat j.
Proof.
  intros Hj Hl Hlast p1.
  destruct (handle_ClickRow p j ctrlKey true Hj) as [Hrows Hlast1].
  fold p1 in Hrows, Hlast1. rewrite Hlast in Hrows.
  assert (Hlen : length (table_rows p1) = length (table_rows p))
    by (rewrite Hrows; apply length_row_click).
  split; [|split]; [|rewrite Hrows; apply rowid_row_click|exact Hlast1].
  intros k. destruct (table_rows p !! k) as [r|] eqn:Hr.
  - assert (Hs : selected <$> table_rows p !! k = Some (selected r))
      by (rewrite Hr; reflexivity).
    rewrite (In_selection_class _ _ _ Hs).
    pose proof (row_click_shift_any (table_rows p) l j ctrlKey k _ Hj Hl Hs) as Hs1.
    rewrite <- Hrows in Hs1. rewrite (In_selection_class _ _ _ Hs1).
    destruct (decide (k = j)), (selected r); cbn;
      try case_bool_decide; intuition (congruence || lia).
  - destruct (In_selection_none _ _ k Hlen Hr) as [Hno Hno1].
    apply lookup_ge_None in Hr. split; [tauto|].
    intros [[-> _]|[_ [Hin|Hb]]]; [lia|tauto|lia].
Qed.

Lemma shift_click_extends_witness :
  let p := handle (ClickRow 1 true false) selected_page in
  selection (table_rows p) = [2; 3]
  /\ selection (table_rows (handle (ClickRow 4 false true) p)) = [2; 3; 4]
  /\ last_selected (handle (ClickRow 4 false true) p) = 4%Z.
Proof.
  cbv zeta.
  assert (Hj : 4 < length (table_rows (handle (ClickRow 1 true false) selected_page)))
    by (vm_compute; lia).
  assert (Hl : 1 < length (table_rows (handle (ClickRow 1 true false) selected_page)))
    by (vm_compute; lia).
  assert (Hlast : last_selected (handle (ClickRow 1 true false) selected_page) = Z.of_nat 1)
    by (vm_compute; reflexivity).
  destruct (shift_click_extends _ 4 1 false Hj Hl Hlast) as (_ & _ & Hlast').
  split; [vm_compute; reflexivity|]. split; [vm_compute; reflexivity|exact Hlast'].
Defined.

(** ** The context menu *)

Lemma selected_ids_removeClass_all (rows : list tr) :
  selected_ids (removeClass_all rows) = [].
Proof. induction rows as [|y rows IH]; [reflexivity|exact IH]. Qed.

(** The ids of the selection once row [i] has been made the only selected
    row. *)
Lemma selected_ids_sole (rows : list tr) (i : nat) (r : tr) :
  rows !! i = Some r ->
  selected_ids (<[i := with_selected true r]> (removeClass_all rows)) = [rowid r].
Proof.
  revert i. induction rows as [|y rows IH]; intros [|i] Hr; try discriminate.
  - injection Hr as ->.
    change (rowid r :: selected_ids (removeClass_all rows) = [rowid r]).
    rewrite selected_ids_removeClass_all. reflexivity.
  - apply (IH i Hr).
Qed.



Lemma elem_of_selected_ids (rows : list tr) (i : nat) (r : tr) :
  rows !! i = Some r -> selected r = true -> In (rowid r) (selected_ids rows).
Proof.
  intros Hr Hs. unfold selected_ids. apply in_map, filter_In. split; [|exact Hs].
  apply list_elem_of_In. eapply list_elem_of_lookup_2, Hr.
Qed.

(** The clicked row is among the rows the menu is opened for. *)
Lemma with_menu_ids (p : page) (i : nat) (r : tr) :
  table_rows p !! i = Some r ->
  let ids := if selected r then selected_ids (table_rows p) else [rowid r] in
  menu_ids (with_menu i r p) = Some ids /\ In (rowid r) ids.
Proof.
  intros Hr. unfold with_menu. cbn [menu_ids set_menu_shown set_menu_ids].
  destruct (selected r) eqn:Hs.
  - split; [reflexivity|]. eapply elem_of_selected_ids; eassumption.
  - rewrite (selected_ids_sole _ _ _ Hr). split; [reflexivity|left; reflexivity].
Qed.

(** The page after a right click on row [i]. *)
Lemma handle_ContextMenu (p : page) (i : nat) (r : tr) :
  table_rows p !! i = Some r -> handle (ContextMenu i) p = with_menu i r p.
Proof.
  intros Hr. unfold handle, exec, handler, on_contextmenu, with_menu. step_M. rewrite Hr.
  destruct (selected r); step_M; [destruct p|]; reflexivity.
Qed.





(** X5: when the menu is opened by a right click on row [i] for that row
    alone, its info entry opens the page of the request of that row,
    [/requests/id], and the menu is hidden; disabled, the entry does
    nothing.  A double click on the row opens the same page. *)
Theorem info_opens_request (p : page) (i : nat) (r : tr) :
  table_rows p !! i = Some r ->
  selected r = false \/ selected_ids (table_rows p) = [rowid r] ->
  let p1 := handle (ContextMenu i) p in
  let opened := Fancybox "ajax" ("/requests/" +:+ pretty (rowid r)) in
  log (handle (ClickInfo false) p1) = log p ++ [opened]
  /\ menu_shown (handle (ClickInfo false) p1) = false
  /\ handle (ClickInfo true) p1 = p1
  /\ log (handle (DblClickRow i) p) = log p ++ [opened].
Proof.
  intros Hr Hsel p1 opened.
  assert (Hm : menu_ids p1 = Some [rowid r]).
  { subst p1. rewrite (handle_ContextMenu p i r Hr).
    destruct (with_menu_ids p i r Hr) as [Hm _]. rewrite Hm. f_equal.
    destruct (selected r) eqn:Hs; [|reflexivity].
    destruct Hsel as [Hsel|Hsel]; [congruence|exact Hsel]. }
  assert (Hl : log p1 = log p).
  { subst p1. rewrite (handle_ContextMenu p i r Hr). reflexivity. }
  split; [|split; [|split]].
  - unfold handle, exec, handler, click, on_context_info, hide_menu. step_M.
    cbn [log set_menu_shown set_log]. rewrite Hm, Hl. reflexivity.
  - reflexivity.
  - reflexivity.
  - unfold handle, exec, handler, on_dblclick. step_M. rewrite Hr. reflexivity.
Qed.

Lemma info_opens_request_witness :
  log (handle (ClickInfo false) (handle (ContextMenu 0) selected_page))
  = log selected_page ++ [Fancybox "ajax" "/requests/11"].
Proof.
  assert (Hr : table_rows selected_page !! 0 = Some (new_row 11)) by (vm_compute; reflexivity).
  destruct (info_opens_request selected_page 0 _ Hr (or_introl eq_refl)) as (Hlog & _).
  exact Hlog.
Defined.

(** ** The cells of the main table *)

(** X6: for display, a string of more than 40 code units is cut to its
    first 40 followed by an ellipsis, and a shorter one is shown as it is;
    what is shown has at most 41 code units, starts as the data does, and
    is rendered as itself.  For sorting, filtering and type detection the
    data is returned whole, whatever it is.  For display, a cell that is
    [null] or [undefined] makes the renderer throw. *)
Theorem render_cell_truncates (units : list N) (data : cell) (type : string) :
  (exists shown,
      render_cell (CStr units) "display" = inr (CStr shown)
      /\ length shown <= 41
      /\ take 40 shown = take 40 units
      /\ (length units <= 40 -> shown = units)
      /\ (40 < length units -> length shown = 41 /\ last shown = Some ellipsis)
      /\ render_cell (CStr shown) "display" = inr (CStr shown))
  /\ (type <> "display" -> render_cell data type = inr data)
  /\ (data = CNull \/ data = CUndefined ->
      render_cell data "display" = inl (TypeError "Cannot read property length")).
Proof.
  split; [|split].
  - unfold render_cell.
    change (negb (String.eqb "display" "display")) with false. cbn iota.
    destruct (Nat.ltb_spec 40 (length units)) as [Hlong|Hshort].
    + exists (take 40 units ++ [ellipsis]).
      assert (Hlen : length (take 40 units ++ [ellipsis]) = 41).
      { rewrite length_app, length_take. cbn [length]. lia. }
      rewrite Hlen. change (40 <? 41) with true. cbn iota.
      repeat split.
      * lia.
      * rewrite take_app_le by (rewrite length_take; lia).
        rewrite take_take. f_equal.
      * lia.
      * rewrite last_snoc. reflexivity.
      * rewrite take_app_le by (rewrite length_take; lia).
        rewrite take_take. reflexivity.
    + exists units. destruct (Nat.ltb_spec 40 (length units)) as [Hlong|_]; [lia|].
      repeat split; solve [reflexivity | lia].
  - intros Ht. unfold render_cell.
    destruct (String.eqb_spec type "display") as [->|_]; [contradiction|reflexivity].
  - intros [-> | ->]; reflexivity.
Qed.

(** ** The text of the banner *)

Section Strings.
Implicit Types (s t u pat : string) (c : ascii).

Lemma string_app_cons c s t : String c s +:+ t = String c (s +:+ t).
Proof. reflexivity. Qed.

Lemma string_app_assoc s t u : (s +:+ t) +:+ u = s +:+ t +:+ u.
Proof.
  induction s as [|c s IH]; [reflexivity|]. rewrite !string_app_cons, IH. reflexivity.
Qed.

Lemma string_app_nil_r s : s +:+ "" = s.
Proof. induction s as [|c s IH]; [reflexivity|]. rewrite string_app_cons, IH. reflexivity. Qed.

Lemma has_char_app c s t : has_char c (s +:+ t) = has_char c s || has_char c t.
Proof.
  induction s as [|d s IH]; [reflexivity|].
  rewrite string_app_cons. cbn [has_char]. rewrite IH. apply orb_assoc.
Qed.

Lemma search_unfold pat s :
  search pat s
  = match strip_prefix pat s with
    | Some after => Some (EmptyString, after)
    | None =>
        match s with
        | EmptyString => None
        | String c rest =>
            match search pat rest with
            | Some (before, after) => Some (String c before, after)
            | None => None
            end
        end
    end.
Proof. destruct s; reflexivity. Qed.

Lemma strip_prefix_app pat s : strip_prefix pat (pat +:+ s) = Some s.
Proof.
  induction pat as [|c pat IH]; [destruct s; reflexivity|].
  rewrite string_app_cons. cbn [strip_prefix]. rewrite Ascii.eqb_refl. exact IH.
Qed.

(** The pattern is found where it stands. *)
Lemma search_here pat s : search pat (pat +:+ s) = Some (EmptyString, s).
Proof. rewrite search_unfold, strip_prefix_app. reflexivity. Qed.

(** No occurrence starts in a text that lacks the first character of the
    pattern. *)
Lemma search_skip c pat t s :
  has_char c t = false ->
  search (String c pat) (t +:+ s)
  = match search (String c pat) s with
    | Some (before, after) => Some (t +:+ before, after)
    | None => None
    end.
Proof.
  intros Ht. induction t as [|d t IH].
  - change ("" +:+ s) with s. destruct (search _ s) as [[before after]|]; reflexivity.
  - cbn [has_char] in Ht. apply orb_false_elim in Ht as [Hd Ht].
    rewrite string_app_cons, search_unfold. cbn [strip_prefix]. rewrite Hd.
    rewrite (IH Ht). destruct (search _ s) as [[before after]|]; reflexivity.
Qed.

(** A replacement text without dollars stands for itself. *)
Lemma GetSubstitution_plain matched before after s :
  has_char "$" s = false -> GetSubstitution matched before after s = s.
Proof.
  induction s as [|c s IH]; intros Hs; [reflexivity|].
  cbn [has_char] in Hs. apply orb_false_elim in Hs as [Hc Hs].
  rewrite Ascii.eqb_sym in Hc. cbn [GetSubstitution]. rewrite Hc, (IH Hs). reflexivity.
Qed.
End Strings.

(** X7: when the status, the message and the level hold no dollar, and the
    level no hash, the banner is the template with the level in the class
    of the [div], the status in the [strong] element and the message after
    it, each as given. *)
Theorem notification_html_fills (status message level : string) :
  has_char "$" status = false -> has_char "$" message = false ->
  has_char "$" level = false -> has_char "#" level = false ->
  notification_html status message level
  = alert_open +:+ level +:+ alert_button +:+ status +:+ "</strong> " +:+ message
    +:+ alert_close.
Proof.
  intros Hstatus Hmessage Hlevel Hsharp.
  assert (Hopen : has_char "#" alert_open = false) by (vm_compute; reflexivity).
  assert (Hbutton : has_char "#" alert_button = false) by (vm_compute; reflexivity).
  assert (H1 : search "###LEVEL###" notification_template
               = Some (alert_open,
                       alert_button +:+ "###STATUS###" +:+ "</strong> " +:+ "###MESSAGE###"
                       +:+ alert_close)) by (vm_compute; reflexivity).
  assert (H2 : search "###MESSAGE###"
                 (alert_button +:+ "###STATUS###" +:+ "</strong> " +:+ "###MESSAGE###"
                  +:+ alert_close)
               = Some (alert_button +:+ "###STATUS###" +:+ "</strong> ", alert_close))
    by (vm_compute; reflexivity).
  unfold notification_html.
  unfold replace at 3. rewrite H1, (GetSubstitution_plain _ _ _ _ Hlevel).
  unfold replace at 2.
  rewrite (search_skip _ _ _ _ Hopen), (search_skip _ _ _ _ Hsharp), H2.
  rewrite (GetSubstitution_plain _ _ _ _ Hmessage).
  unfold replace.
  rewrite !string_app_assoc.
  rewrite (search_skip _ _ _ _ Hopen), (search_skip _ _ _ _ Hsharp),
    (search_skip _ _ _ _ Hbutton).
  change ("###STATUS###" +:+ "</strong> " +:+ message +:+ alert_close)
    with ("###STATUS###" +:+ ("</strong> " +:+ message +:+ alert_close)).
  rewrite search_here, (GetSubstitution_plain _ _ _ _ Hstatus).
  rewrite string_app_nil_r, !string_app_assoc. reflexivity.
Qed.

Lemma notification_html_fills_witness :
  notification_html "Info!" "Approved 3 request(s)" "alert-info"
  = alert_open +:+ "alert-info" +:+ alert_button +:+ "Info!" +:+ "</strong> "
    +:+ "Approved 3 request(s)" +:+ alert_close.
Proof.
  apply notification_html_fills; vm_compute; reflexivity.
Defined.

(** A dollar in the message is read as a replacement pattern: here the
    marker itself comes back. *)
Example notification_html_dollar :
  notification_html "Info!" "$&" "alert-info"
  = alert_open +:+ "alert-info" +:+ alert_button +:+ "Info!" +:+ "</strong> "
    +:+ "###MESSAGE###" +:+ alert_close.
Proof. vm_compute. reflexivity. Qed.

(** ** Completion of the requests of the tables *)

(** A request to which no aggregate is attached completes: its state
    changes and its own callbacks run. *)
Lemma settle_alone (p : page) (r : nat) (x : xhr) (o : outcome) :
  xhrs p !! r = Some x -> state x = Pending -> subscribers x = [] ->
  handle (AjaxDone r o) p
  = exec (run_handlers (callbacks (settings x)) o)
      (set_xhrs (<[r := with_state (outcome_state o) x]>) p).
Proof.
  intros Hx Hst Hsub. unfold handle, handler, settle, exec. step_M.
  rewrite Hx, Hst. step_M. rewrite Hsub. cbn [for_each].
  destruct (run_handlers _ _ _) as [[[]|e] q]; reflexivity.
Qed.


Lemma xhr_is_inserted (xs : list xhr) (r : nat) (x : xhr) (s : xhr_state) :
  xs !! r = Some x -> xhr_is s (<[r := with_state s x]> xs) r = true.
Proof.
  intros Hx. rewrite (xhr_is_insert _ _ _ _ _ _ Hx).
  rewrite decide_True by reflexivity. apply bool_decide_eq_true. reflexivity.
Qed.




(** X9: when the request of [refresh_subtable] fails, the warning with the
    status and the error is logged, followed by the warning of a bad
    request exactly when the status code is 400; the rows of the main
    table and the globals are left alone and no request is sent. *)
Theorem subtable_failure (p : page) (r : nat) (x : xhr) (request_id : jsval)
    (code : Z) (status error request_json : string) :
  xhrs p !! r = Some x -> state x = Pending -> subscribers x = [] ->
  callbacks (settings x) = SubtableHandlers request_id ->
  let p1 := handle (AjaxDone r (Failure code status error request_json)) p in
  log p1 = log p ++ error_warning status error request_json
                    :: (if decide (code = 400%Z) then [Warn bad_request] else [])
  /\ table_rows p1 = table_rows p
  /\ window p1 = window p
  /\ map settings (xhrs p1) = map settings (xhrs p)
  /\ xhr_is Failed (xhrs p1) r = true.
Proof.
  intros Hx Hst Hsub Hcb p1. subst p1. rewrite (settle_alone p r x _ Hx Hst Hsub), Hcb.
  cbn [run_handlers outcome_state]. unfold exec, warn_error. step_M.
  destruct (Z.eqb_spec code 400) as [->|Hne]; step_M;
    cbn [table_rows log window xhrs set_table_rows set_log set_window set_xhrs].
  - rewrite decide_True by reflexivity. rewrite <- app_assoc.
    repeat split; [apply (settings_insert _ _ _ _ Hx)|apply xhr_is_inserted, Hx].
  - rewrite decide_False by exact Hne.
    repeat split; [apply (settings_insert _ _ _ _ Hx)|apply xhr_is_inserted, Hx].
Qed.

Lemma subtable_failure_witness :
  log (handle (AjaxDone 1 (Failure 400 "error" "BAD REQUEST" "{}")) (expanded ∅))
  = [DataTable "#tableBody" (RequestRows [11%Z]) (VArr []) [control_column];
     error_warning "error" "BAD REQUEST" "{}"; Warn bad_request].
Proof.
  assert (Hx : xhrs (expanded ∅) !! 1 = Some (subtable_request (VNum 11)))
    by (vm_compute; reflexivity).
  destruct (subtable_failure (expanded ∅) 1 _ (VNum 11) 400 "error" "BAD REQUEST" "{}"
              Hx eq_refl eq_refl eq_refl) as (Hlog & _).
  rewrite Hlog. vm_compute. reflexivity.
Defined.

(** ** Rescheduling and expanding *)

(** X10: a click on a reschedule glyph sends one
    [PUT requests/request_id/parametricjobs/macro_id] (a relative address)
    with [reschedule = true] and logs nothing.  When that request succeeds,
    the sub-table is asked for again, by one
    [GET /requests/request_id/parametricjobs]; when it fails, nothing is
    sent and nothing is logged. *)
Theorem reschedule_click (p : page) (macro_id request_id : jsval) (o : outcome) :
  let p1 := handle (ClickReschedule macro_id request_id) p in
  let p2 := handle (AjaxDone (length (xhrs p)) o) p1 in
  let sent s := {| settings := reschedule_request macro_id request_id; state := s;
                   subscribers := [] |} in
  xhrs p1 = xhrs p ++ [sent Pending]
  /\ log p1 = log p
  /\ xhrs p2 = xhrs p ++ sent (outcome_state o)
                         :: match o with
                            | Success _ => [subtable_request request_id]
                            | Failure _ _ _ _ => []
                            end
  /\ log p2 = log p.
Proof.
  intros p1 p2 sent.
  assert (Hp1 : p1 = set_menu_shown false (set_xhrs (fun l => l ++ [sent Pending]) p))
    by reflexivity.
  assert (Hx : xhrs p1 !! length (xhrs p) = Some (sent Pending)).
  { rewrite Hp1. cbn [xhrs set_menu_shown set_xhrs].
    rewrite lookup_app_r by lia. rewrite Nat.sub_diag. reflexivity. }
  split; [rewrite Hp1; reflexivity|]. split; [rewrite Hp1; reflexivity|].
  subst p2. rewrite (settle_alone p1 _ _ o Hx eq_refl eq_refl).
  cbn [callbacks settings sent reschedule_request].
  assert (Hins : <[length (xhrs p) := with_state (outcome_state o) (sent Pending)]> (xhrs p1)
                 = xhrs p ++ [sent (outcome_state o)]).
  { rewrite Hp1. cbn [xhrs set_menu_shown set_xhrs].
    rewrite insert_app_r_alt by lia. rewrite Nat.sub_diag. reflexivity. }
  destruct o as [resp|code st er rq]; cbn [run_handlers outcome_state] in *;
    unfold exec, refresh_subtable, ajax; step_M;
    cbn [xhrs log set_xhrs set_log]; rewrite Hins.
  - split; [|rewrite Hp1; reflexivity]. rewrite <- app_assoc. reflexivity.
  - split; [reflexivity|rewrite Hp1; reflexivity].
Qed.

(** The page after a click on the expand control of row [i], [r1] being the
    row once the click has passed through the selection handler. *)
Lemma handle_ClickDetails (p : page) (i : nat) (c s : bool) (r1 : tr) :
  (row_click c s (Z.of_nat i) (table_rows p) (last_selected p)).1 !! i = Some r1 ->
  handle (ClickDetails i c s) p
  = let rows1 := (row_click c s (Z.of_nat i) (table_rows p) (last_selected p)).1 in
    let p1 := set_last_selected (Z.of_nat i) (set_table_rows (fun _ => rows1) p) in
    set_menu_shown false
      (if child_shown r1
       then set_table_rows (<[i := with_child_shown false r1]>) p1
       else set_xhrs (fun l => l ++ [subtable_request (VNum (rowid r1))])
              (set_table_rows (<[i := with_child_shown true r1]>) p1)).
Proof.
  intros Hr1.
  assert (Hi : i < length (table_rows p)).
  { rewrite <- (length_row_click c s (Z.of_nat i) _ (last_selected p)).
    eapply lookup_lt_Some, Hr1. }
  unfold handle, exec, handler, on_row_click, click, on_details_click, hide_menu,
    refresh_subtable, ajax.
  step_M. rewrite bool_decide_eq_true_2 by exact Hi.
  unfold row_click in *. cbn [fst] in Hr1. step_M.
  cbn [table_rows set_last_selected set_table_rows]. rewrite Hr1.
  destruct (child_shown r1); reflexivity.
Qed.

Lemma lookup_map_eq {A B} (f : A -> B) (l l' : list A) (i : nat) (x : A) :
  map f l' = map f l -> l !! i = Some x -> exists x', l' !! i = Some x' /\ f x' = f x.
Proof.
  intros Hm Hx.
  assert (Hfx : map f l !! i = Some (f x))
    by (change (map f l) with (f <$> l); rewrite list_lookup_fmap, Hx; reflexivity).
  rewrite <- Hm in Hfx. change (map f l') with (f <$> l') in Hfx.
  rewrite list_lookup_fmap in Hfx. destruct (l' !! i) as [x'|]; [|discriminate].
  exists x'. split; [reflexivity|]. cbn in Hfx. congruence.
Qed.

(** What a click on the expand control of row [i] does to the child rows
    and to the requests. *)
Lemma details_click_page (p : page) (i : nat) (r : tr) (c s : bool) :
  table_rows p !! i = Some r ->
  let p1 := handle (ClickDetails i c s) p in
  map child_shown (table_rows p1)
  = <[i := negb (child_shown r)]> (map child_shown (table_rows p))
  /\ map rowid (table_rows p1) = map rowid (table_rows p)
  /\ xhrs p1 = xhrs p ++ (if child_shown r then []
                          else [subtable_request (VNum (rowid r))])
  /\ log p1 = log p.
Proof.
  intros Hr p1.
  pose proof (rowid_row_click c s (Z.of_nat i) (table_rows p) (last_selected p)) as Hid.
  pose proof (child_shown_row_click c s (Z.of_nat i) (table_rows p) (last_selected p)) as Hch.
  destruct (lookup_map_eq rowid _ _ i r Hid Hr) as (r1 & Hr1 & Hid1).
  destruct (lookup_map_eq child_shown _ _ i r Hch Hr) as (r1' & Hr1' & Hch1).
  assert (r1' = r1) by congruence. subst r1'.
  subst p1. rewrite (handle_ClickDetails p i c s r1 Hr1). cbv zeta.
  rewrite <- Hch1, <- Hid1.
  destruct (child_shown r1);
    cbn [table_rows xhrs log set_menu_shown set_table_rows set_xhrs set_last_selected];
    change (map child_shown) with (fmap (M := list) child_shown);
    change (map rowid) with (fmap (M := list) rowid);
    rewrite !list_fmap_insert; cbn [child_shown rowid with_child_shown negb];
    change (fmap (M := list) child_shown) with (map child_shown);
    change (fmap (M := list) rowid) with (map rowid);
    rewrite Hch, Hid.
  - repeat split; [|symmetry; apply app_nil_r].
    apply list_insert_id. change (map rowid (table_rows p)) with (rowid <$> table_rows p).
    rewrite list_lookup_fmap, Hr. cbn. congruence.
  - repeat split.
    apply list_insert_id. change (map rowid (table_rows p)) with (rowid <$> table_rows p).
    rewrite list_lookup_fmap, Hr. cbn. congruence.
Qed.

(** X11: a click on the expand control of row [i] shows its child row if it
    was hidden and hides it if it was shown, and touches no other child row
    and no id; showing sends one [GET /requests/id/parametricjobs] for the
    id of the row, hiding sends nothing, and nothing is logged.  After a
    second click on the control the child rows are as they were, and
    whichever of the two clicks did the showing, one request was sent. *)
Theorem details_click_toggles (p : page) (i : nat) (r : tr) (c s c' s' : bool) :
  table_rows p !! i = Some r ->
  let p1 := handle (ClickDetails i c s) p in
  let p2 := handle (ClickDetails i c' s') p1 in
  map child_shown (table_rows p1)
  = <[i := negb (child_shown r)]> (map child_shown (table_rows p))
  /\ map rowid (table_rows p1) = map rowid (table_rows p)
  /\ xhrs p1 = xhrs p ++ (if child_shown r then []
                          else [subtable_request (VNum (rowid r))])
  /\ log p1 = log p
  /\ map child_shown (table_rows p2) = map child_shown (table_rows p)
  /\ xhrs p2 = xhrs p ++ [subtable_request (VNum (rowid r))]
  /\ log p2 = log p.
Proof.
  intros Hr p1 p2.
  destruct (details_click_page p i r c s Hr) as (Hch & Hid & Hx & Hlog).
  fold p1 in Hch, Hid, Hx, Hlog.
  destruct (lookup_map_eq rowid _ _ i r Hid Hr) as (r1 & Hr1 & Hid1).
  destruct (details_click_page p1 i r1 c' s' Hr1) as (Hch2 & _ & Hx2 & Hlog2).
  fold p2 in Hch2, Hx2, Hlog2.
  assert (Hc1 : child_shown r1 = negb (child_shown r)).
  { assert (Hl : map child_shown (table_rows p1) !! i = Some (child_shown r1))
      by (change (map child_shown (table_rows p1)) with (child_shown <$> table_rows p1);
          rewrite list_lookup_fmap, Hr1; reflexivity).
    rewrite Hch in Hl. rewrite list_lookup_insert_eq in Hl.
    - congruence.
    - rewrite length_map. eapply lookup_lt_Some, Hr. }
  repeat split; try assumption.
  - rewrite Hch2, Hch, list_insert_insert_eq, Hc1, negb_involutive.
    apply list_insert_id. change (map child_shown (table_rows p))
      with (child_shown <$> table_rows p).
    rewrite list_lookup_fmap, Hr. reflexivity.
  - rewrite Hx2, Hx, Hc1, Hid1.
    destruct (child_shown r); cbn [negb]; rewrite <- app_assoc; reflexivity.
  - congruence.
Qed.

Lemma details_click_toggles_witness :
  let p1 := handle (ClickDetails 0 false false) (loaded [11%Z]) in
  let p2 := handle (ClickDetails 0 false false) p1 in
  xhrs p1 = xhrs (loaded [11%Z]) ++ [subtable_request (VNum 11)]
  /\ xhrs p2 = xhrs p1 /\ map child_shown (table_rows p2) = [false].
Proof.
  assert (Hr : table_rows (loaded [11%Z]) !! 0 = Some (new_row 11))
    by (vm_compute; reflexivity).
  destruct (details_click_toggles (loaded [11%Z]) 0 _ false false false false Hr)
    as (_ & _ & Hx & _ & Hch & Hx2 & _).
  cbv zeta. rewrite Hx2, Hx, Hch. split; [reflexivity|]. split; [|vm_compute; reflexivity].
  destruct (child_shown (new_row 11)) eqn:Hc; [discriminate Hc|reflexivity].
Defined.

(** ** Batch actions without a context menu *)




(** ** Properties that every handler preserves *)

Section Stable.
Context (I : page -> Prop) (HI : stable I).

Ltac stable_step :=
  lazymatch goal with
  | |- keeps _ (ret _) => apply keeps_ret
  | |- keeps _ (throw _) => apply keeps_throw
  | |- keeps _ (lift _) => apply keeps_lift
  | |- keeps _ (emit _) => apply keeps_modify; intros ? ?; apply (stable_log I HI); assumption
  | |- keeps _ (for_each _ _) => apply keeps_for_each; intros ?
  | |- keeps _ (map_m _ _) => apply keeps_map_m; intros ?
  | |- keeps _ (get ≫= _) =>
      let p0 := fresh "p0" in let Hp0 := fresh "Hp0" in
      apply keeps_get_bind; intros p0 Hp0
  | |- keeps _ (_ ≫= _) => apply keeps_bind; [|intros ?]
  end.

Lemma stable_ajax (s : ajax_settings) : keeps I (ajax s).
Proof.
  unfold ajax. stable_step. stable_step; [|stable_step].
  apply keeps_modify. intros p. apply (stable_send I HI).
Qed.

Lemma stable_refresh_subtable (request_id : jsval) : keeps I (refresh_subtable request_id).
Proof. unfold refresh_subtable. stable_step; [apply stable_ajax|stable_step]. Qed.

Lemma stable_resolve_global (x : string) : keeps I (resolve_global x).
Proof.
  unfold resolve_global. intros p Hp. apply keeps_get_bind_at.
  destruct (window p !! x); exact Hp.
Qed.

Lemma stable_set_global (x : string) (v : jsval) : keeps I (set_global x v).
Proof. unfold set_global. apply keeps_modify. intros p. apply (stable_window I HI). Qed.

Lemma stable_call (v : jsval) (args : list jsval) : keeps I (call v args).
Proof.
  destruct v as [| | | | |[]| |]; cbn [call]; unfold bootstrap_alert, refresh_table;
    repeat stable_step.
  apply stable_ajax.
Qed.

Lemma stable_run_continuation (k : continuation) : keeps I (run_continuation k).
Proof.
  destruct k as [ids|ids|calls]; cbn [run_continuation]; unfold reload, length_of;
    try destruct ids; repeat stable_step;
    first [apply stable_resolve_global | apply stable_call].
Qed.

Lemma stable_add_join (ajax_calls : list nat) (k : continuation) (st : join_state) :
  keeps I (add_join ajax_calls k st).
Proof.
  unfold add_join. stable_step. stable_step.
  - apply keeps_modify. intros p. apply (stable_joins I HI).
  - apply keeps_modify. intros p. apply (stable_subscribe I HI).
Qed.

Lemma stable_when (ajax_calls : list nat) (k : continuation) : keeps I (when ajax_calls k).
Proof.
  unfold when. stable_step.
  destruct (existsb _ _); [apply stable_add_join|].
  destruct (forallb _ _); [|apply stable_add_join].
  stable_step; [apply stable_add_join|apply stable_run_continuation].
Qed.

Lemma stable_notify_join (o : outcome) (j : nat) : keeps I (notify_join o j).
Proof.
  unfold notify_join. stable_step.
  destruct (joins p0 !! j) as [jn|]; [|stable_step].
  destruct (joined jn); try stable_step.
  destruct o.
  - destruct (forallb _ _); [|stable_step]. stable_step.
    + apply keeps_modify. intros p. apply (stable_joins I HI).
    + apply stable_run_continuation.
  - apply keeps_modify. intros p. apply (stable_joins I HI).
Qed.

(** The callbacks of a request other than the load of the table. *)
Lemma stable_run_handlers (h : handlers) (o : outcome) :
  (forall resp, h = TableHandlers -> o <> Success resp) -> keeps I (run_handlers h o).
Proof.
  intros Hno. destruct h, o; cbn [run_handlers];
    unfold warn_error, subtable_success; repeat stable_step;
    try apply stable_resolve_global; try apply stable_set_global.
  - exfalso. eapply Hno; reflexivity.
  - destruct (code =? 400)%Z; stable_step.
  - apply stable_refresh_subtable.
Qed.

Lemma stable_table_success (r : nat) (x : xhr) (resp : response) (p : page) :
  xhrs p !! r = Some x -> state x = Pending -> callbacks (settings x) = TableHandlers ->
  I p -> I (table_success resp (set_xhrs (<[r := with_state Succeeded x]>) p)).2.
Proof.
  intros Hx Hst Hcb Hp. unfold table_success, set_global. step_M. cbn [snd].
  pose proof (stable_load I HI r x resp p Hx Hst Hcb Hp) as Hq.
  apply (stable_window I HI "columns" (VArr [control_column])) in Hq.
  apply (stable_log I HI (DataTable "#tableBody" (content resp) (Datatable_Order resp)
                            (control_column :: Datatable_Columns resp))) in Hq.
  exact Hq.
Qed.

Lemma stable_settle_at (r : nat) (o : outcome) : keeps I (settle r o).
Proof.
  intros p Hp. unfold settle. apply keeps_get_bind_at.
  destruct (xhrs p !! r) as [x|] eqn:Hx; [|exact Hp].
  destruct (state x) eqn:Hst; try exact Hp.
  destruct (callbacks (settings x)) eqn:Hcb.
  1, 3, 4: (apply keeps_modify_bind_at; [apply (stable_settle I HI); assumption|];
            stable_step; [apply stable_run_handlers; discriminate|];
            stable_step; apply stable_notify_join).
  destruct o as [resp|code st er rq].
  - rewrite bind_at. unfold modify at 1. cbn iota beta.
    rewrite bind_at. cbn [run_handlers outcome_state].
    pose proof (stable_table_success r x resp p Hx Hst Hcb Hp) as Hq.
    destruct (table_success resp _) as [[[]|e] q]; cbn [snd] in *; [|exact Hq].
    apply keeps_for_each; [intros j; apply stable_notify_join|exact Hq].
  - apply keeps_modify_bind_at; [apply (stable_settle I HI); assumption|].
    stable_step; [apply stable_run_handlers; discriminate|].
    stable_step. apply stable_notify_join.
Qed.

Lemma stable_fire (t : nat) : keeps I (fire t).
Proof.
  unfold fire. stable_step.
  destruct (timers p0 !! t) as [[[| | | | |f| |] delay]|]; repeat stable_step.
  apply stable_call.
Qed.

Lemma stable_hide_menu : keeps I hide_menu.
Proof. apply keeps_modify. intros p. apply (stable_hide I HI). Qed.

Lemma stable_click_handler (h : M bool) : keeps I h -> keeps I (click h).
Proof.
  intros Hh. unfold click.
  apply keeps_bind; [exact Hh|intros [|]]; [apply stable_hide_menu|stable_step].
Qed.

Lemma stable_on_row_click (c s : bool) (i : nat) : keeps I (on_row_click c s i).
Proof.
  intros p Hp. unfold on_row_click. apply keeps_get_bind_at.
  destruct (bool_decide_reflect (i < length (table_rows p))) as [Hi|_]; [|exact Hp].
  pose proof (stable_click I HI c s i p Hi Hp) as Hq.
  unfold row_click in *. cbn [fst] in Hq. step_M. cbn [snd].
  apply (stable_last_selected I HI), Hq.
Qed.

Lemma stable_on_details_click (i : nat) : keeps I (on_details_click i).
Proof.
  intros p Hp. unfold on_details_click. apply keeps_get_bind_at.
  destruct (table_rows p !! i) as [r|] eqn:Hr; [|exact Hp].
  destruct (child_shown r).
  - apply keeps_modify_bind_at; [apply (stable_child I HI); assumption|stable_step].
  - apply keeps_modify_bind_at; [apply (stable_child I HI); assumption|].
    stable_step; [apply stable_refresh_subtable|stable_step].
Qed.

Lemma stable_on_contextmenu (i : nat) : keeps I (on_contextmenu i).
Proof.
  intros p Hp. unfold on_contextmenu. apply keeps_get_bind_at.
  destruct (table_rows p !! i) as [r|] eqn:Hr; [|exact Hp].
  pose proof (stable_menu I HI i r p Hr Hp) as Hq. unfold with_menu in Hq.
  destruct (selected r); exact Hq.
Qed.

Lemma stable_send_batch (f : Z -> ajax_settings) (ids : list Z)
    (kf : list nat -> continuation) :
  keeps I (map_m (fun id => ajax (f id)) ids ≫= fun calls => when calls (kf calls)).
Proof. repeat stable_step; [apply stable_ajax|apply stable_when]. Qed.

Lemma stable_on_keypress (k : Z) : keeps I (on_keypress k).
Proof.
  intros p Hp. unfold on_keypress. destruct (k =? 46)%Z; [|exact Hp].
  apply keeps_get_bind_at.
  destruct (bool_decide_reflect (length (selected_ids (table_rows p)) = 0)) as [|Hne];
    [exact Hp|].
  step_M. cbn [snd].
  apply (stable_confirm I HI (set_log _ p)); [|apply (stable_log I HI), Hp].
  cbn [table_rows set_log]. intros He. rewrite He in Hne. apply Hne. reflexivity.
Qed.

Lemma stable_on_answer (d : nat) (b : bool) : keeps I (on_answer d b).
Proof.
  intros p Hp. unfold on_answer. apply keeps_get_bind_at.
  destruct (dialogs p !! d) as [dlg|] eqn:Hd; [|exact Hp].
  destruct (answered dlg); [exact Hp|].
  apply keeps_modify_bind_at; [apply (stable_answer I HI); assumption|].
  destruct b; cbn [negb]; [|stable_step].
  repeat stable_step; [apply stable_ajax|apply stable_when].
Qed.

Lemma stable_handler (e : event) : keeps I (handler e).
Proof.
  destruct e as [t|r o|i c s|i c s|m rq|i|i| |dis|dis|dis|dis|dis|kc|d b]; cbn [handler].
  - apply stable_fire.
  - apply stable_settle_at.
  - stable_step; [apply stable_on_row_click|apply stable_hide_menu].
  - stable_step; [apply stable_on_row_click|].
    apply stable_click_handler, stable_on_details_click.
  - apply stable_click_handler. unfold on_reschedule_click. repeat stable_step.
    apply stable_ajax.
  - unfold on_dblclick. stable_step. destruct (table_rows p0 !! i); stable_step.
  - apply stable_on_contextmenu.
  - apply stable_hide_menu.
  - apply stable_click_handler. unfold on_context_info. destruct dis; repeat stable_step.
  - apply stable_click_handler. unfold on_context_edit. destruct dis; repeat stable_step.
  - apply stable_click_handler. unfold on_context_copy. destruct dis; repeat stable_step.
  - apply stable_click_handler. unfold on_context_approve. destruct dis; [stable_step|].
    repeat stable_step; [apply stable_ajax|apply stable_when].
  - apply stable_click_handler. unfold on_context_delete. destruct dis; [stable_step|].
    repeat stable_step; [apply stable_ajax|apply stable_when].
  - apply stable_on_keypress.
  - apply stable_on_answer.
Qed.

Lemma stable_handle (e : event) (p : page) : I p -> I (handle e p).
Proof.
  apply keeps_exec; [apply stable_handler|].
  intros x q. apply (stable_log I HI).
Qed.

Lemma stable_run (evs : list event) (p : page) : I p -> I (run evs p).
Proof.
  revert p. induction evs as [|e evs IH]; intros p Hp; cbn; [exact Hp|].
  apply IH, stable_handle, Hp.
Qed.
End Stable.

(** ** The menu, the dialogs and the rows *)

Lemma table_loaded_xhrs (f : list xhr -> list xhr) (p : page) :
  (forall r x, xhrs p !! r = Some x -> state x = Succeeded ->
     exists x', f (xhrs p) !! r = Some x' /\ settings x' = settings x
                /\ state x' = Succeeded) ->
  table_loaded p -> table_loaded (set_xhrs f p).
Proof.
  intros Hf (r & x & Hx & Hcb & Hst).
  destruct (Hf r x Hx Hst) as (x' & Hx' & Hs' & Hst').
  exists r, x'. split; [exact Hx'|]. split; [congruence|exact Hst'].
Qed.

Lemma lookup_subscribe (ms : list nat) (j r : nat) (xs : list xhr) (x : xhr) :
  xs !! r = Some x ->
  exists x', imap (fun r x => if bool_decide (r ∈ ms) then subscribe j x else x) xs !! r
             = Some x'
             /\ settings x' = settings x /\ state x' = state x.
Proof.
  intros Hx. rewrite list_lookup_imap, Hx. cbn.
  destruct (bool_decide _); eexists; repeat split.
Qed.

Lemma lookup_settle (xs : list xhr) (r r' : nat) (x y : xhr) (s : xhr_state) :
  xs !! r = Some x -> state x = Pending -> xs !! r' = Some y ->
  exists y', <[r := with_state s x]> xs !! r' = Some y'
             /\ settings y' = settings y /\ (state y <> Pending -> state y' = state y).
Proof.
  intros Hx Hst Hy. destruct (decide (r' = r)) as [->|Hne].
  - rewrite list_lookup_insert_eq by (eapply lookup_lt_Some, Hx).
    assert (y = x) by congruence. subst y.
    eexists. split; [reflexivity|]. split; [reflexivity|]. intros Hp. contradiction.
  - rewrite list_lookup_insert_ne by congruence. eauto.
Qed.

Lemma wellformed_stable : stable wellformed.
Proof.
  split.
  - intros x v p [Hi Hs Hd Hr]. split; assumption.
  - intros e p [Hi Hs Hd Hr]. split; assumption.
  - intros f p [Hi Hs Hd Hr]. split; assumption.
  - intros z p [Hi Hs Hd Hr]. split; assumption.
  - intros p [Hi Hs Hd Hr]. split; try assumption. discriminate.
  - intros s p [Hi Hs Hd Hr]. split; try assumption. intros Hne.
    apply table_loaded_xhrs; [|exact (Hr Hne)].
    intros r x Hx Hst. exists x. rewrite lookup_app_l by (eapply lookup_lt_Some, Hx). auto.
  - intros ms j p [Hi Hs Hd Hr]. split; try assumption. intros Hne.
    apply table_loaded_xhrs; [|exact (Hr Hne)].
    intros r x Hx Hst. destruct (lookup_subscribe ms j r _ x Hx) as (x' & Hx' & Hs' & Hst').
    exists x'. split; [exact Hx'|]. split; congruence.
  - intros r x o p Hx Hst [Hi Hs Hd Hr]. split; try assumption. intros Hne.
    apply table_loaded_xhrs; [|exact (Hr Hne)].
    intros r' y Hy Hsy.
    destruct (lookup_settle _ r r' x y (outcome_state o) Hx Hst Hy) as (y' & Hy' & Hs' & Hst').
    exists y'. split; [exact Hy'|]. split; [exact Hs'|]. rewrite Hst'; congruence.
  - intros r x resp p Hx Hst Hcb [Hi Hs Hd Hr]. split; try assumption. intros _.
    exists r, (with_state Succeeded x). cbn [xhrs set_table_rows set_xhrs].
    rewrite list_lookup_insert_eq by (eapply lookup_lt_Some, Hx). auto.
  - intros c s i p Hlt [Hi Hs Hd Hr]. split; try assumption. intros _.
    apply Hr. intros He. rewrite He in Hlt. cbn in Hlt. lia.
  - intros i r b p Hri [Hi Hs Hd Hr]. split; try assumption. intros _.
    apply Hr. intros He. rewrite He in Hri. discriminate.
  - intros i r p Hri [Hi Hs Hd Hr].
    assert (Hin : In (rowid r)
                    (selected_ids (if selected r then table_rows p
                                   else <[i := with_selected true r]>
                                          (removeClass_all (table_rows p))))).
    { destruct (selected r) eqn:Hsel.
      - eapply elem_of_selected_ids; eassumption.
      - rewrite (selected_ids_sole _ _ _ Hri). left. reflexivity. }
    split; unfold with_menu; cbn.
    + intros ids [= <-] He. rewrite He in Hin. exact Hin.
    + intros _. eauto.
    + exact Hd.
    + intros _. apply Hr. intros He. rewrite He in Hri. discriminate.
  - intros p Hne [Hi Hs Hd Hr]. split; try assumption. cbn. intros d dlg Hl.
    apply lookup_app_Some in Hl as [Hl|[_ Hl]]; [eapply Hd, Hl|].
    destruct (d - length (dialogs p)) as [|n]; cbn in Hl; [|discriminate].
    injection Hl as <-. exact Hne.
  - intros d dlg p Hdl [Hi Hs Hd Hr]. split; try assumption. cbn. intros d' dlg' Hl.
    destruct (decide (d' = d)) as [->|Hne].
    + rewrite list_lookup_insert_eq in Hl by (eapply lookup_lt_Some, Hdl).
      injection Hl as <-. cbn. eapply Hd, Hdl.
    + rewrite list_lookup_insert_ne in Hl by congruence. eapply Hd, Hl.
Qed.

Lemma wellformed_reachable (p : page) : reachable p -> wellformed p.
Proof.
  intros (globals & evs & ->). apply (stable_run _ wellformed_stable).
  rewrite startup_page. split; cbn [menu_ids menu_shown dialogs table_rows].
  - discriminate.
  - discriminate.
  - intros [|d] dlg Hd; discriminate.
  - intros Hne. contradiction.
Qed.

Lemma keeps_requests_stable (p0 : page) : stable (keeps_requests p0).
Proof.
  split; try (intros; assumption).
  - intros s p Hp r x Hx. destruct (Hp r x Hx) as (x' & Hx' & Hk).
    exists x'. cbn. rewrite lookup_app_l by (eapply lookup_lt_Some, Hx'). auto.
  - intros ms j p Hp r x Hx. destruct (Hp r x Hx) as (x' & Hx' & Hs' & Hst').
    destruct (lookup_subscribe ms j r _ x' Hx') as (y & Hy & Hsy & Hsty).
    exists y. cbn. split; [exact Hy|]. split; [congruence|]. intros Hne. rewrite Hsty. auto.
  - intros r y o p Hy Hst Hp r' x Hx. destruct (Hp r' x Hx) as (x' & Hx' & Hs' & Hst').
    destruct (lookup_settle _ r r' y x' (outcome_state o) Hy Hst Hx') as (z & Hz & Hsz & Hstz).
    exists z. cbn. split; [exact Hz|]. split; [congruence|]. intros Hne.
    rewrite Hstz; [auto|]. rewrite (Hst' Hne). exact Hne.
  - intros r y resp p Hy Hst Hcb Hp r' x Hx. destruct (Hp r' x Hx) as (x' & Hx' & Hs' & Hst').
    destruct (lookup_settle _ r r' y x' Succeeded Hy Hst Hx') as (z & Hz & Hsz & Hstz).
    exists z. cbn. split; [exact Hz|]. split; [congruence|]. intros Hne.
    rewrite Hstz; [auto|]. rewrite (Hst' Hne). exact Hne.
Qed.

Lemma keeps_requests_run (evs : list event) (p : page) : keeps_requests p (run evs p).
Proof.
  apply (stable_run _ (keeps_requests_stable p)).
  intros r x Hx. exists x. auto.
Qed.

(** Of the requests of [refresh_table], when there is one only, the first
    is that one. *)
Lemma sole_refresh_table (xs : list xhr) (r : nat) (x0 x : xhr) :
  length (List.filter is_refresh_table xs) = 1 ->
  xs !! 0 = Some x0 -> is_refresh_table x0 = true ->
  xs !! r = Some x -> is_refresh_table x = true -> r = 0.
Proof.
  intros Hone H0 Hf0 Hx Hf. destruct xs as [|y ys]; [discriminate|].
  injection H0 as ->. cbn in Hone. rewrite Hf0 in Hone. cbn in Hone.
  destruct r as [|r]; [reflexivity|]. cbn in Hx.
  assert (Hin : In x (List.filter is_refresh_table ys)).
  { apply filter_In. split; [|exact Hf]. apply list_elem_of_In.
    eapply list_elem_of_lookup_2, Hx. }
  destruct (List.filter is_refresh_table ys); [contradiction|discriminate].
Qed.





(** X15: whatever events follow, a request that was sent stays where it is
    in the order of the requests, with the settings it was sent with, and
    once it has succeeded or failed it stays so: no request is withdrawn,
    sent again in place or settled twice. *)
Theorem requests_are_kept (p : page) (evs : list event) (r : nat) (x : xhr) :
  xhrs p !! r = Some x ->
  exists x', xhrs (run evs p) !! r = Some x' /\ settings x' = settings x
             /\ (state x <> Pending -> state x' = state x).
Proof. intros Hx. exact (keeps_requests_run evs p r x Hx). Qed.

Lemma requests_are_kept_witness :
  exists x', xhrs (run [AjaxDone 0 succeeds; Tick 0; AjaxDone 0 fails] failed_load) !! 0
             = Some x'
             /\ url (settings x') = "/requests" /\ state x' = Failed.
Proof.
  assert (Hx : xhrs failed_load !! 0
               = Some {| settings := {| url := "/requests"; type := GET; data := [];
                                        callbacks := TableHandlers |};
                         state := Failed; subscribers := [] |}) by (vm_compute; reflexivity).
  destruct (requests_are_kept failed_load [AjaxDone 0 succeeds; Tick 0; AjaxDone 0 fails]
              0 _ Hx) as (x' & Hx' & Hs & Hst).
  exists x'. split; [exact Hx'|]. split; [rewrite Hs; reflexivity|].
  apply Hst. discriminate.
Defined.

(** X16: once the request for the table has failed, the table stays empty
    whatever events follow: nothing can be selected, [refresh_table] is not
    called again, and the request stays failed, whatever answer comes for
    it later. *)
Theorem failed_load_stays_empty (p : page) (evs : list event) :
  reachable p -> xhr_is Failed (xhrs p) 0 = true ->
  table_rows (run evs p) = []
  /\ selection (table_rows (run evs p)) = []
  /\ refresh_table_calls (run evs p) = 1
  /\ xhr_is Failed (xhrs (run evs p)) 0 = true.
Proof.
  intros Hp Hf. set (q := run evs p).
  assert (Hq : reachable q) by (apply reachable_run, Hp).
  assert (Hcalls : refresh_table_calls q = 1).
  { destruct Hq as (globals & evs0 & ->). apply (inv_calls _ _ (invariant_reachable _ _)). }
  apply xhr_is_true in Hf as (x & Hx & Hst).
  destruct (keeps_requests_run evs p 0 x Hx) as (x' & Hx' & Hs' & Hst').
  fold q in Hx'. rewrite Hst in Hst'. specialize (Hst' ltac:(discriminate)).
  assert (Hfirst : is_refresh_table x' = true).
  { destruct Hq as (globals & evs0 & Hq).
    destruct (keeps_requests_run evs0 (startup globals) 0 _ eq_refl) as (y & Hy & Hsy & _).
    rewrite <- Hq in Hy. assert (y = x') by congruence. subst y.
    unfold is_refresh_table. rewrite Hsy. reflexivity. }
  assert (Hrows : table_rows q = []).
  { destruct (table_rows q) as [|row rows] eqn:Hrows; [reflexivity|]. exfalso.
    destruct (wf_rows q (wellformed_reachable q Hq)) as (r & y & Hy & Hcb & Hsy).
    - rewrite Hrows. discriminate.
    - assert (r = 0).
      { eapply (sole_refresh_table (xhrs q)); try eassumption.
        unfold is_refresh_table. rewrite Hcb. reflexivity. }
      subst r. congruence. }
  split; [exact Hrows|]. split; [rewrite Hrows; reflexivity|]. split; [exact Hcalls|].
  apply xhr_is_true. eauto.
Qed.

Lemma failed_load_stays_empty_witness :
  table_rows (run [AjaxDone 0 succeeds; Tick 0; ClickRow 0 false false] failed_load) = [].
Proof.
  assert (Hp : reachable failed_load) by (exists ∅, [AjaxDone 0 fails]; reflexivity).
  assert (Hf : xhr_is Failed (xhrs failed_load) 0 = true) by (vm_compute; reflexivity).
  destruct (failed_load_stays_empty failed_load
              [AjaxDone 0 succeeds; Tick 0; ClickRow 0 false false] Hp Hf) as (Hrows & _).
  exact Hrows.
Defined.

(** ** Globals *)

(** X17: whatever events follow start-up, the script leaves every global
    of the page as it found it, but for [columns], which the success
    callbacks write, and [bootstrap_alert], which holds the banner function
    from start-up on; the one timer holds [undefined]. *)
Theorem globals_written (globals : gmap string jsval) (evs : list event) (x : string) :
  x <> "columns" -> x <> "bootstrap_alert" ->
  let p := run evs (startup globals) in
  window p !! x = globals !! x
  /\ window p !! "bootstrap_alert" = Some (VFun Fbootstrap_alert)
  /\ timers p = [(VUndefined, 300000%Z)].
Proof.
  intros Hc Ha p. pose proof (invariant_reachable globals evs) as Hinv. fold p in Hinv.
  split; [|split].
  - rewrite (inv_window _ _ Hinv x Hc). apply lookup_insert_ne. congruence.
  - rewrite (inv_window _ _ Hinv) by discriminate. apply lookup_insert_eq.
  - apply (inv_timers _ _ Hinv).
Qed.

Lemma globals_written_witness :
  window (run [AjaxDone 0 (Success (table_response [11%Z])); ClickDetails 0 false false]
            (startup ∅)) !! "parametricjob" = None.
Proof.
  destruct (globals_written ∅ [AjaxDone 0 (Success (table_response [11%Z]));
                               ClickDetails 0 false false] "parametricjob")
    as (Hw & _); [discriminate|discriminate|].
  rewrite Hw. reflexivity.
Defined.

(** ** The widths of the progress bar *)

Section ExactWidths.
Local Open Scope Qc_scope.
Implicit Types (a b c n : Qc).

Lemma Qc_nonneg_add a b : Q2Qc 0 <= a -> Q2Qc 0 <= b -> Q2Qc 0 <= a + b.
Proof.
  intros Ha Hb. replace (Q2Qc 0) with (Q2Qc 0 + Q2Qc 0) by ring.
  apply Qcplus_le_compat; assumption.
Qed.

Lemma Qc_nonneg_hundred c : Q2Qc 0 <= c <-> Q2Qc 0 <= Q2Qc 100 * c.
Proof.
  assert (H100 : Q2Qc 0 < Q2Qc 100) by reflexivity.
  split; intros Hc.
  - replace (Q2Qc 0) with (Q2Qc 0 * Q2Qc 100) by ring.
    replace (Q2Qc 100 * c) with (c * Q2Qc 100) by ring.
    apply Qcmult_le_compat_r; [exact Hc|apply Qclt_le_weak, H100].
  - apply (Qcmult_lt_0_le_reg_r _ _ (Q2Qc 100) H100).
    replace (Q2Qc 0 * Q2Qc 100) with (Q2Qc 0) by ring.
    replace (c * Q2Qc 100) with (Q2Qc 100 * c) by ring. exact Hc.
Qed.

Lemma width_times_njobs c n : n <> Q2Qc 0 -> Q2Qc 100 * c / n * n = Q2Qc 100 * c.
Proof. intros Hn. field. exact Hn. Qed.

(** The sign of a width is the sign of its count. *)
Lemma width_nonneg c n : Q2Qc 0 < n -> Q2Qc 0 <= c <-> Q2Qc 0 <= Q2Qc 100 * c / n.
Proof.
  intros Hn. assert (Hn0 : n <> Q2Qc 0) by (intros He; apply Qclt_not_eq in Hn; congruence).
  rewrite (Qc_nonneg_hundred c). split; intros Hc.
  - apply (Qcmult_lt_0_le_reg_r _ _ n Hn).
    rewrite (width_times_njobs c n Hn0).
    replace (Q2Qc 0 * n) with (Q2Qc 0) by ring. exact Hc.
  - rewrite <- (width_times_njobs c n Hn0).
    replace (Q2Qc 0) with (Q2Qc 0 * n) by ring.
    apply Qcmult_le_compat_r; [exact Hc|apply Qclt_le_weak, Hn].
Qed.

Lemma width_le_hundred c n : Q2Qc 0 < n -> c <= n -> Q2Qc 100 * c / n <= Q2Qc 100.
Proof.
  intros Hn Hc.
  assert (Hn0 : n <> Q2Qc 0) by (intros He; apply Qclt_not_eq in Hn; congruence).
  apply (Qcmult_lt_0_le_reg_r _ _ n Hn). rewrite (width_times_njobs c n Hn0).
  replace (Q2Qc 100 * c) with (c * Q2Qc 100) by ring.
  replace (Q2Qc 100 * n) with (n * Q2Qc 100) by ring.
  apply Qcmult_le_compat_r; [exact Hc|]. apply Qclt_le_weak. reflexivity.
Qed.

(** A count that, with the rest of the counts, is within [n]. *)
Lemma width_in_range c n b :
  Q2Qc 0 < n -> Q2Qc 0 <= c -> Q2Qc 0 <= b -> c + b <= n ->
  Q2Qc 0 <= Q2Qc 100 * c / n /\ Q2Qc 100 * c / n <= Q2Qc 100.
Proof.
  intros Hn Hc Hb Hsum. split; [apply (width_nonneg c n Hn), Hc|].
  apply width_le_hundred; [exact Hn|].
  apply Qcle_trans with (c + b); [|exact Hsum].
  apply Qcle_minus_iff. replace (c + b + - c) with b by ring. exact Hb.
Qed.
End ExactWidths.

(** X18: in exact arithmetic, for a record with [njobs > 0] and counts
    that are not negative, the five widths lie between 0 and 100 when the
    counts add up to at most [njobs]; when they add up to more, the width
    of the last segment is negative. *)
Theorem exact_widths_in_range (pj : parametricjob Qc) :
  (Q2Qc 0 < njobs pj)%Qc ->
  (Q2Qc 0 <= num_completed pj)%Qc -> (Q2Qc 0 <= num_failed pj)%Qc ->
  (Q2Qc 0 <= num_running pj)%Qc -> (Q2Qc 0 <= num_submitted pj)%Qc ->
  let v := progress_vars pj in
  let counted := (num_submitted pj + num_running pj + num_completed pj + num_failed pj)%Qc in
  ((counted <= njobs pj)%Qc ->
   Forall (fun w => Q2Qc 0 <= w /\ w <= Q2Qc 100)%Qc (percentages v))
  /\ ((njobs pj < counted)%Qc -> (percent_other v < Q2Qc 0)%Qc).
Proof.
  intros Hn Hc Hf Hr Hs v counted.
  destruct pj as [i rq n c f r s st rs]. cbn in *.
  unfold v, counted, percentages, progress_vars; cbn. split.
  - intros Hsum. repeat apply List.Forall_cons; [| | | | |apply List.Forall_nil].
    + apply (width_in_range c n (s + r + f)%Qc); auto using Qc_nonneg_add.
      replace (c + (s + r + f))%Qc with (s + r + c + f)%Qc by ring. exact Hsum.
    + apply (width_in_range f n (s + r + c)%Qc); auto using Qc_nonneg_add.
      replace (f + (s + r + c))%Qc with (s + r + c + f)%Qc by ring. exact Hsum.
    + apply (width_in_range r n (s + c + f)%Qc); auto using Qc_nonneg_add.
      replace (r + (s + c + f))%Qc with (s + r + c + f)%Qc by ring. exact Hsum.
    + apply (width_in_range s n (r + c + f)%Qc); auto using Qc_nonneg_add.
      replace (s + (r + c + f))%Qc with (s + r + c + f)%Qc by ring. exact Hsum.
    + apply (width_in_range (n - (s + r + c + f))%Qc n (s + r + c + f)%Qc);
        auto using Qc_nonneg_add.
      * apply Qcle_minus_iff in Hsum.
        replace (n - (s + r + c + f))%Qc with (n + - (s + r + c + f))%Qc by ring. exact Hsum.
      * replace (n - (s + r + c + f) + (s + r + c + f))%Qc with n by ring. apply Qcle_refl.
  - intros Hover. apply Qcnot_le_lt. intros Hw.
    apply (width_nonneg _ n Hn) in Hw. apply (Qclt_not_le _ _ Hover).
    apply Qcle_minus_iff.
    replace (n + - (s + r + c + f))%Qc with (n - (s + r + c + f))%Qc by ring. exact Hw.
Qed.

Lemma exact_widths_in_range_witness :
  Forall (fun w => Q2Qc 0 <= w /\ w <= Q2Qc 100)%Qc
    (percentages (progress_vars
                    (job_of_counts (Q2Qc 7) (Q2Qc 1) (Q2Qc 1) (Q2Qc 1) (Q2Qc 1)))).
Proof.
  assert (Hn : (Q2Qc 0 < Q2Qc 7)%Qc) by reflexivity.
  assert (H1 : (Q2Qc 0 <= Q2Qc 1)%Qc) by (vm_compute; discriminate).
  destruct (exact_widths_in_range
              (job_of_counts (Q2Qc 7) (Q2Qc 1) (Q2Qc 1) (Q2Qc 1) (Q2Qc 1)) Hn H1 H1 H1 H1)
    as [Hin _].
  apply Hin. vm_compute. discriminate.
Defined.

Lemma double_total_near_100_witness :
  near_100 (total (progress_vars
                     (job_of_counts (double_of_nat 6) (double_of_nat 0) (double_of_nat 0)
                        (double_of_nat 1) (double_of_nat 4)))) = true.
Proof. apply double_total_near_100; lia. Defined.
